(** * ReorderService: the offline-first reorder list engine

    A shallow embedding of [ReorderService] (the reorder list service of the
    JoyLabs catalogue app) and the properties of its in-memory collection,
    pending queue, team-data cache and listener bus.

    Modelling conventions.
    - JavaScript objects are shared by reference.  Every [ReorderItem] object
      lives in an object store ([heap]); arrays hold references into it, so
      an assignment such as [item.index = ...] is visible through every
      array that holds the object.
    - Each public method runs to completion: the interleaving of two
      [async] methods at an [await] is not modelled.
    - Everything the service obtains from outside (the remote GraphQL
      client, the SQLite store, AsyncStorage, the wall clock, the random
      generator, the listeners) is an input of the operation, collected
      in [Env].
    - A listener returns or throws, as [Env] says; an exception takes the
      path that the code gives it: it ends [notifyListeners], reaches the
      [catch] block of the method around it, or leaves the method.  A
      listener does not call back into the service while it runs.
    - An operation returns its state together with its outcome: the value
      that the promise resolves with, or [Thrown] when the method throws
      or its promise is rejected.
    - [number] fields are IEEE doubles ([float]), [quantity] included.
      JSON has no text for a number that is not finite: a record read
      back from the offline snapshot has [null] there, which is why
      [quantity] is optional.
    - The text of the offline snapshot is represented by the values that
      [JSON.parse] returns for it; AsyncStorage returns the text that it
      was given. *)

From Stdlib Require Import Floats.PrimFloat.
From stdpp Require Import base list strings gmap pretty.

Open Scope string_scope.
Open Scope list_scope.
Open Scope nat_scope.

(** ** JavaScript values *)

Abbreviation number := float.

(** Outcome of an awaited promise. *)
Inductive Reply (A : Type) : Type :=
| Resolved (a : A)
| Thrown.
Arguments Resolved {A} a.
Arguments Thrown {A}.

(** One reading of the wall clock: [Date.now()] and the text that
    [new Date().toISOString()] renders for it. *)
Record Clock := { ms : Z; iso : string }.

(** A [Date] object: [new Date()] of a clock reading, or [new Date(text)]. *)
Inductive JsDate :=
| DateMs (m : Z)
| DateParse (text : string).

(** [x || d] on an optional string: [undefined] and the empty string are
    falsy. *)
Definition str_or (x : option string) (d : string) : string :=
  match x with
  | Some s => if decide (s = "") then d else s
  | None => d
  end.

(** [x || undefined] on an optional string. *)
Definition str_or_undefined (x : option string) : option string :=
  match x with
  | Some s => if decide (s = "") then None else Some s
  | None => None
  end.

(** Truthiness of an optional number: [undefined], [0], [-0] and [NaN] are
    falsy. *)
Definition num_truthy (x : option number) : bool :=
  match x with
  | Some f => negb (PrimFloat.eqb f 0%float) && PrimFloat.eqb f f
  | None => false
  end.

(** A quantity in an addition: [null] counts as [0]. *)
Definition num_or_zero (x : option number) : number :=
  match x with
  | Some f => f
  | None => 0%float
  end.

(** [JSON.parse(JSON.stringify(x))] on a number: a number that is not
    finite comes back as [null], [-0] as [0], every other one as it is
    (its text is the shortest decimal that reads back as the number). *)
Definition jsonNumber (x : option number) : option number :=
  match x with
  | Some f =>
      if PrimFloat.is_finite f
      then Some (if PrimFloat.Leibniz.eqb f (PrimFloat.opp 0%float) then 0%float else f)
      else None
  | None => None
  end.

(** ** Data model *)

Record TeamData := {
  vendor : option string;
  vendorCost : option number;
  caseUpc : option string;
  caseCost : option number;
  caseQuantity : option number;
  discontinued : option bool;
  notes : option string
}.

Record ReorderItem := {
  id : string;
  itemId : string;
  itemName : string;
  itemBarcode : option string;
  itemCategory : option string;
  itemPrice : option number;
  quantity : option number;               (* a number; [null] after a snapshot *)
  completed : bool;
  addedBy : string;
  createdAt : string;
  updatedAt : string;
  teamData : option TeamData;
  timestamp : option JsDate;
  index : option nat
}.

(** The catalogue item handed to [addItem] (the fields the service reads). *)
Record ConvertedItem := {
  c_id : string;
  c_name : option string;
  c_barcode : option string;
  c_category : option string;
  c_price : option number
}.

(** The argument of [addCustomItem]. *)
Record CustomItem := {
  cu_itemName : string;
  cu_itemCategory : option string;
  cu_quantity : number;
  cu_addedBy : string;
  cu_vendor : option string;
  cu_notes : option string
}.

(** A row of the local [reorder_items] table. *)
Record Row := {
  row_id : string;
  row_item_id : string;
  row_item_name : string;
  row_item_barcode : option string;
  row_item_category : option string;
  row_item_price : option number;
  row_quantity : option number;
  row_completed : Z;
  row_added_by : string;
  row_created_at : string;
  row_updated_at : string
}.

(** Team data as the local store holds it ([modernDb.getTeamData]). *)
Record TeamRow := {
  t_vendor : option string;
  t_caseUpc : option string;
  t_caseCost : option number;
  t_caseQuantity : option number;
  t_discontinued : option bool;
  t_notes : option string
}.

(** Team data as the remote service returns it ([getItemData]) and as the
    [onUpdateItemData] event carries it; [notes] is a list of notes. *)
Record ItemData := {
  d_id : string;
  d_vendor : option string;
  d_caseUpc : option string;
  d_caseCost : option number;
  d_caseQuantity : option number;
  d_discontinued : option bool;
  d_notes : list string
}.

(** The input of the [createReorderItem] mutation. *)
Record CreateInput := {
  in_itemId : string;
  in_itemName : option string;
  in_itemBarcode : option string;
  in_itemCategory : option string;
  in_itemPrice : option number;
  in_quantity : option number;
  in_completed : bool;
  in_addedBy : string
}.

(** Calls that leave the service, most recent first in [log]. *)
Inductive Effect :=
| GqlListReorderItems (limit : nat)
| GqlCreateReorderItem (input : CreateInput)
| GqlUpdateQuantity (target : string) (q : number)
| GqlUpdateCompleted (target : string) (c : bool)
| GqlDeleteReorderItem (target : string)
| GqlGetItemData (target : string)
| MonitorBeforeRequest (operation : string)
| DbGetTeamData (target : string)
| DbUpsertTeamData (target : string)
| DbLoadReorderItems
| DbSaveReorderItems (items : list ReorderItem)
| HistoryLogReorder (target name : string) (q : option number) (user : string).

(** A call that reaches the remote service. *)
Definition is_remote (e : Effect) : bool :=
  match e with
  | GqlListReorderItems _ | GqlCreateReorderItem _ | GqlUpdateQuantity _ _
  | GqlUpdateCompleted _ _ | GqlDeleteReorderItem _ | GqlGetItemData _ => true
  | _ => false
  end.

Definition remote_calls (l : list Effect) : nat :=
  length (filter (λ e, is_remote e = true) l).

(** ** The object store *)

Abbreviation ref := nat.
Abbreviation Heap := (list ReorderItem).

Definition blank : ReorderItem :=
  {| id := ""; itemId := ""; itemName := ""; itemBarcode := None;
     itemCategory := None; itemPrice := None; quantity := None;
     completed := false; addedBy := ""; createdAt := ""; updatedAt := "";
     teamData := None; timestamp := None; index := None |}.

#[global] Instance ReorderItem_inhabited : Inhabited ReorderItem := populate blank.

(** Reading through a reference. *)
Definition deref (h : Heap) (r : ref) : ReorderItem := h !!! r.

(** [new]: the object gets the next free address. *)
Definition alloc (x : ReorderItem) (h : Heap) : ref * Heap := (length h, h ++ [x]).

(** The objects of a freshly built array ([map] over parsed or fetched
    data): consecutive new addresses. *)
Definition alloc_all (xs : list ReorderItem) (h : Heap) : list ref * Heap :=
  (seq (length h) (length xs), h ++ xs).

(** Field assignments on an object. *)
Definition with_quantity (q : option number) (x : ReorderItem) : ReorderItem :=
  {| id := id x; itemId := itemId x; itemName := itemName x;
     itemBarcode := itemBarcode x; itemCategory := itemCategory x;
     itemPrice := itemPrice x; quantity := q; completed := completed x;
     addedBy := addedBy x; createdAt := createdAt x; updatedAt := updatedAt x;
     teamData := teamData x; timestamp := timestamp x; index := index x |}.

Definition with_completed (c : bool) (x : ReorderItem) : ReorderItem :=
  {| id := id x; itemId := itemId x; itemName := itemName x;
     itemBarcode := itemBarcode x; itemCategory := itemCategory x;
     itemPrice := itemPrice x; quantity := quantity x; completed := c;
     addedBy := addedBy x; createdAt := createdAt x; updatedAt := updatedAt x;
     teamData := teamData x; timestamp := timestamp x; index := index x |}.

Definition with_updatedAt (t : string) (x : ReorderItem) : ReorderItem :=
  {| id := id x; itemId := itemId x; itemName := itemName x;
     itemBarcode := itemBarcode x; itemCategory := itemCategory x;
     itemPrice := itemPrice x; quantity := quantity x; completed := completed x;
     addedBy := addedBy x; createdAt := createdAt x; updatedAt := t;
     teamData := teamData x; timestamp := timestamp x; index := index x |}.

Definition with_teamData (t : option TeamData) (x : ReorderItem) : ReorderItem :=
  {| id := id x; itemId := itemId x; itemName := itemName x;
     itemBarcode := itemBarcode x; itemCategory := itemCategory x;
     itemPrice := itemPrice x; quantity := quantity x; completed := completed x;
     addedBy := addedBy x; createdAt := createdAt x; updatedAt := updatedAt x;
     teamData := t; timestamp := timestamp x; index := index x |}.

Definition with_timestamp (t : option JsDate) (x : ReorderItem) : ReorderItem :=
  {| id := id x; itemId := itemId x; itemName := itemName x;
     itemBarcode := itemBarcode x; itemCategory := itemCategory x;
     itemPrice := itemPrice x; quantity := quantity x; completed := completed x;
     addedBy := addedBy x; createdAt := createdAt x; updatedAt := updatedAt x;
     teamData := teamData x; timestamp := t; index := index x |}.

Definition with_index (i : option nat) (x : ReorderItem) : ReorderItem :=
  {| id := id x; itemId := itemId x; itemName := itemName x;
     itemBarcode := itemBarcode x; itemCategory := itemCategory x;
     itemPrice := itemPrice x; quantity := quantity x; completed := completed x;
     addedBy := addedBy x; createdAt := createdAt x; updatedAt := updatedAt x;
     teamData := teamData x; timestamp := timestamp x; index := i |}.

(** [r.f = v]: assignment through a reference. *)
Definition assign (f : ReorderItem → ReorderItem) (r : ref) (h : Heap) : Heap :=
  alter f r h.

(** [{ ...x }]: a copy of the object at a new address. *)
Definition clone (r : ref) (h : Heap) : ref * Heap := alloc (deref h r) h.

(** [{ ...item, timestamp: new Date(item.createdAt), index: i + 1 }]. *)
Definition stamp (i : nat) (x : ReorderItem) : ReorderItem :=
  with_index (Some (i + 1)) (with_timestamp (Some (DateParse (createdAt x))) x).

(** ** The environment of one operation *)

(** What one [fetchTeamData] call obtains from outside, in program order. *)
Record FetchEnv := {
  f_now : Z;                             (* Date.now() of the cache test *)
  f_local : Reply (option TeamRow);      (* modernDb.getTeamData *)
  f_monitor : Reply unit;                (* appSyncMonitor.beforeRequest *)
  f_remote : Reply (option ItemData);    (* the getItemData query *)
  f_upsert : Reply unit;                 (* modernDb.upsertTeamData *)
  f_stamp : Z                            (* Date.now() of the cache entry *)
}.

(** What one operation obtains from outside.  Streams are indexed by the
    number of the call within the operation, in program order. *)
Record Env := {
  clock : nat → Clock;                   (* k-th reading of the clock *)
  random : nat → string;                 (* k-th Math.random().toString(36).substr(2, 9) *)
  authProbe : Reply unit;                (* listReorderItems(limit 1) of checkAuthStatus *)
  createReply : nat → Reply bool;        (* k-th createReorderItem: is data.createReorderItem set *)
  updateReply : Reply bool;              (* updateReorderItem: is data.updateReorderItem set *)
  deleteReply : nat → Reply bool;        (* k-th deleteReorderItem *)
  monitorReply : Reply unit;             (* appSyncMonitor.beforeRequest('listReorderItems') *)
  listReply : Reply (option (list ReorderItem));   (* listReorderItems(limit 1000): data.listReorderItems.items *)
  dbRows : Reply (list Row);             (* SELECT on reorder_items *)
  teamFetch : nat → FetchEnv;            (* environment of the k-th fetchTeamData *)
  storageSet : nat → Reply unit;         (* k-th AsyncStorage.setItem *)
  storageGet : nat → Reply unit;         (* k-th AsyncStorage.getItem: resolves with the stored text *)
  listenerReply : nat → nat → Reply unit
    (* the call of listener [l] that is entry [k] of the log of listener
       calls: it returns or it throws *)
}.

(** The environment as a block of code finds it when the blocks before
    it have used up [c] readings of the clock, [r] random draws, [w]
    writes and [g] reads of the storage.  (The blocks run this way make
    no remote call, and listener calls are numbered along the log of
    listener calls.) *)
Definition later (c r w g : nat) (e : Env) : Env :=
  {| clock := λ k, clock e (c + k); random := λ k, random e (r + k);
     authProbe := authProbe e; createReply := createReply e;
     updateReply := updateReply e; deleteReply := deleteReply e;
     monitorReply := monitorReply e; listReply := listReply e;
     dbRows := dbRows e; teamFetch := teamFetch e;
     storageSet := λ k, storageSet e (w + k); storageGet := λ k, storageGet e (g + k);
     listenerReply := listenerReply e |}.

(** No listener throws. *)
Definition quiet (e : Env) : Prop := ∀ l k, listenerReply e l k = Resolved ().

(** ** The state of the service *)

Record State := {
  heap : Heap;
  reorderItems : list ref;
  listeners : list nat;
  teamDataCache : gmap string (TeamData * Z);
  isInitialized : bool;
  currentUserId : option string;
  isOfflineMode : bool;
  pendingSyncItems : list ref;
  (* outside the object, observed by the properties *)
  storage : option (list ReorderItem);   (* AsyncStorage under STORAGE_KEY *)
  broadcasts : list (nat * list ref);    (* listener calls: listener, array passed; oldest first *)
  log : list Effect                      (* outgoing calls, most recent first *)
}.

Definition CACHE_DURATION : Z := 5 * 60 * 1000.

Definition set_heap (h : Heap) (s : State) : State :=
  {| heap := h; reorderItems := reorderItems s; listeners := listeners s;
     teamDataCache := teamDataCache s; isInitialized := isInitialized s;
     currentUserId := currentUserId s; isOfflineMode := isOfflineMode s;
     pendingSyncItems := pendingSyncItems s; storage := storage s;
     broadcasts := broadcasts s; log := log s |}.

Definition set_reorderItems (l : list ref) (s : State) : State :=
  {| heap := heap s; reorderItems := l; listeners := listeners s;
     teamDataCache := teamDataCache s; isInitialized := isInitialized s;
     currentUserId := currentUserId s; isOfflineMode := isOfflineMode s;
     pendingSyncItems := pendingSyncItems s; storage := storage s;
     broadcasts := broadcasts s; log := log s |}.

Definition set_listeners (l : list nat) (s : State) : State :=
  {| heap := heap s; reorderItems := reorderItems s; listeners := l;
     teamDataCache := teamDataCache s; isInitialized := isInitialized s;
     currentUserId := currentUserId s; isOfflineMode := isOfflineMode s;
     pendingSyncItems := pendingSyncItems s; storage := storage s;
     broadcasts := broadcasts s; log := log s |}.

Definition set_teamDataCache (c : gmap string (TeamData * Z)) (s : State) : State :=
  {| heap := heap s; reorderItems := reorderItems s; listeners := listeners s;
     teamDataCache := c; isInitialized := isInitialized s;
     currentUserId := currentUserId s; isOfflineMode := isOfflineMode s;
     pendingSyncItems := pendingSyncItems s; storage := storage s;
     broadcasts := broadcasts s; log := log s |}.

Definition set_isInitialized (b : bool) (s : State) : State :=
  {| heap := heap s; reorderItems := reorderItems s; listeners := listeners s;
     teamDataCache := teamDataCache s; isInitialized := b;
     currentUserId := currentUserId s; isOfflineMode := isOfflineMode s;
     pendingSyncItems := pendingSyncItems s; storage := storage s;
     broadcasts := broadcasts s; log := log s |}.

Definition set_currentUserId (u : option string) (s : State) : State :=
  {| heap := heap s; reorderItems := reorderItems s; listeners := listeners s;
     teamDataCache := teamDataCache s; isInitialized := isInitialized s;
     currentUserId := u; isOfflineMode := isOfflineMode s;
     pendingSyncItems := pendingSyncItems s; storage := storage s;
     broadcasts := broadcasts s; log := log s |}.

Definition set_isOfflineMode (b : bool) (s : State) : State :=
  {| heap := heap s; reorderItems := reorderItems s; listeners := listeners s;
     teamDataCache := teamDataCache s; isInitialized := isInitialized s;
     currentUserId := currentUserId s; isOfflineMode := b;
     pendingSyncItems := pendingSyncItems s; storage := storage s;
     broadcasts := broadcasts s; log := log s |}.

Definition set_pendingSyncItems (l : list ref) (s : State) : State :=
  {| heap := heap s; reorderItems := reorderItems s; listeners := listeners s;
     teamDataCache := teamDataCache s; isInitialized := isInitialized s;
     currentUserId := currentUserId s; isOfflineMode := isOfflineMode s;
     pendingSyncItems := l; storage := storage s;
     broadcasts := broadcasts s; log := log s |}.

Definition set_storage (v : option (list ReorderItem)) (s : State) : State :=
  {| heap := heap s; reorderItems := reorderItems s; listeners := listeners s;
     teamDataCache := teamDataCache s; isInitialized := isInitialized s;
     currentUserId := currentUserId s; isOfflineMode := isOfflineMode s;
     pendingSyncItems := pendingSyncItems s; storage := v;
     broadcasts := broadcasts s; log := log s |}.

Definition set_broadcasts (b : list (nat * list ref)) (s : State) : State :=
  {| heap := heap s; reorderItems := reorderItems s; listeners := listeners s;
     teamDataCache := teamDataCache s; isInitialized := isInitialized s;
     currentUserId := currentUserId s; isOfflineMode := isOfflineMode s;
     pendingSyncItems := pendingSyncItems s; storage := storage s;
     broadcasts := b; log := log s |}.

(** An outgoing call is recorded. *)
Definition emit (e : Effect) (s : State) : State :=
  {| heap := heap s; reorderItems := reorderItems s; listeners := listeners s;
     teamDataCache := teamDataCache s; isInitialized := isInitialized s;
     currentUserId := currentUserId s; isOfflineMode := isOfflineMode s;
     pendingSyncItems := pendingSyncItems s; storage := storage s;
     broadcasts := broadcasts s; log := e :: log s |}.

(** The state of a new [ReorderService]; [stored] is what AsyncStorage
    holds from an earlier run of the app. *)
Definition initial (stored : option (list ReorderItem)) : State :=
  {| heap := []; reorderItems := []; listeners := []; teamDataCache := ∅;
     isInitialized := false; currentUserId := None; isOfflineMode := false;
     pendingSyncItems := []; storage := stored; broadcasts := []; log := [] |}.

(** The records an array of references shows. *)
Definition records (h : Heap) (l : list ref) : list ReorderItem := deref h <$> l.

(** The identifiers an array of references shows. *)
Definition ids (h : Heap) (l : list ref) : list string := id <$> records h l.

(** ** Outcomes *)

Definition is_thrown {A} (r : Reply A) : bool :=
  match r with
  | Thrown => true
  | Resolved _ => false
  end.

(** [try { body } catch { handler }]: the handler runs on the state that
    the body left when it threw. *)
Definition tryCatch {A} (body : Reply A * State) (handler : State → Reply A * State)
  : Reply A * State :=
  match body.1 with
  | Resolved a => (Resolved a, body.2)
  | Thrown => handler body.2
  end.

(** [first; next]: what follows a statement that threw does not run. *)
Definition andThen {A} (first : Reply unit * State) (next : State → Reply A * State)
  : Reply A * State :=
  match first.1 with
  | Resolved _ => next first.2
  | Thrown => (Thrown, first.2)
  end.

(** ** Listener bus *)

(** [listener([...this.reorderItems])]: the callback gets a new array
    holding the same references, and returns or throws. *)
Definition callListener (l : nat) (e : Env) (s : State) : Reply unit * State :=
  (listenerReply e l (length (broadcasts s)),
   set_broadcasts (broadcasts s ++ [(l, reorderItems s)]) s).

(** [forEach] over the listeners: the first exception ends it. *)
Fixpoint forEachListener (ls : list nat) (e : Env) (s : State) : Reply unit * State :=
  match ls with
  | [] => (Resolved (), s)
  | l :: ls' => andThen (callListener l e s) (forEachListener ls' e)
  end.

(** [notifyListeners]. *)
Definition notifyListeners (e : Env) (s : State) : Reply unit * State :=
  forEachListener (listeners s) e s.

(** The listeners that a broadcast calls when [k] listener calls were
    made before it: those up to the first one that throws. *)
Fixpoint calledFrom (e : Env) (k : nat) (ls : list nat) : list nat :=
  match ls with
  | [] => []
  | l :: ls' =>
      l :: match listenerReply e l k with
           | Resolved _ => calledFrom e (S k) ls'
           | Thrown => []
           end
  end.

Definition called (e : Env) (s : State) : list nat :=
  calledFrom e (length (broadcasts s)) (listeners s).

(** Every listener of such a broadcast returns. *)
Fixpoint allReturn (e : Env) (k : nat) (ls : list nat) : bool :=
  match ls with
  | [] => true
  | l :: ls' =>
      match listenerReply e l k with
      | Resolved _ => allReturn e (S k) ls'
      | Thrown => false
      end
  end.

(** The broadcast from [s] throws. *)
Definition broadcastThrows (e : Env) (s : State) : bool :=
  negb (allReturn e (length (broadcasts s)) (listeners s)).

(** [getItems]: a new array holding the same references. *)
Definition getItems (s : State) : list ref := reorderItems s.

Definition getCount (s : State) : nat := length (reorderItems s).

Definition getIncompleteCount (s : State) : nat :=
  length (filter (λ r, completed (deref (heap s) r) = false) (reorderItems s)).

(** ** Offline snapshot *)

(** What [JSON.parse] returns for the text of a [TeamData] object. *)
Definition jsonTeamData (t : TeamData) : TeamData :=
  {| vendor := vendor t; vendorCost := jsonNumber (vendorCost t);
     caseUpc := caseUpc t; caseCost := jsonNumber (caseCost t);
     caseQuantity := jsonNumber (caseQuantity t);
     discontinued := discontinued t; notes := notes t |}.

(** What [JSON.parse] returns for the text of a record: the strings, the
    flag and the display index as they are, the numbers as JSON carries
    them.  (In the text the [timestamp] is a string; nothing reads it:
    [loadOfflineItems] replaces it.) *)
Definition jsonItem (x : ReorderItem) : ReorderItem :=
  {| id := id x; itemId := itemId x; itemName := itemName x;
     itemBarcode := itemBarcode x; itemCategory := itemCategory x;
     itemPrice := jsonNumber (itemPrice x); quantity := jsonNumber (quantity x);
     completed := completed x; addedBy := addedBy x; createdAt := createdAt x;
     updatedAt := updatedAt x; teamData := jsonTeamData <$> teamData x;
     timestamp := None; index := index x |}.

(** [saveOfflineItems]: the collection is serialised under STORAGE_KEY; a
    failure is logged and ignored. *)
Definition saveOfflineItems (e : Env) (s : State) : State :=
  match storageSet e 0 with
  | Resolved _ => set_storage (Some (jsonItem <$> records (heap s) (reorderItems s))) s
  | Thrown => s
  end.

(** [loadOfflineItems]: when something is stored, the collection becomes
    the stored records, each a new object with [timestamp] and [index]
    recomputed. *)
Definition loadOfflineItems (e : Env) (s : State) : State :=
  match storageGet e 0 with
  | Resolved _ =>
      match storage s with
      | Some items =>
          let '(refs, h) := alloc_all (imap stamp items) (heap s) in
          set_reorderItems refs (set_heap h s)
      | None => s
      end
  | Thrown => s
  end.

(** [checkAuthStatus]: one probe query decides the session mode. *)
Definition checkAuthStatus (e : Env) (s : State) : bool * State :=
  let s := emit (GqlListReorderItems 1) s in
  match authProbe e with
  | Resolved _ => (true, set_isOfflineMode false s)
  | Thrown => (false, set_isOfflineMode true s)
  end.

(** ** Team data *)

(** [caseCost && caseQuantity ? caseCost / caseQuantity : undefined]. *)
Definition vendorCostOf (cost qty : option number) : option number :=
  match cost, qty with
  | Some c, Some q =>
      if num_truthy cost && num_truthy qty then Some (PrimFloat.div c q) else None
  | _, _ => None
  end.

Definition teamDataOfRow (t : TeamRow) : TeamData :=
  {| vendor := t_vendor t;
     vendorCost := vendorCostOf (t_caseCost t) (t_caseQuantity t);
     caseUpc := t_caseUpc t; caseCost := t_caseCost t;
     caseQuantity := t_caseQuantity t; discontinued := t_discontinued t;
     notes := t_notes t |}.

(** [notes?.[0]?.content] of the remote shape. *)
Definition teamDataOfItemData (d : ItemData) : TeamData :=
  {| vendor := d_vendor d;
     vendorCost := vendorCostOf (d_caseCost d) (d_caseQuantity d);
     caseUpc := d_caseUpc d; caseCost := d_caseCost d;
     caseQuantity := d_caseQuantity d; discontinued := d_discontinued d;
     notes := head (d_notes d) |}.

(** [recoverTeamDataFromDynamoDB]: one remote query behind the request
    monitor; a result is written to the local store, then cached. *)
Definition recoverTeamDataFromDynamoDB (fe : FetchEnv) (target : string) (s : State)
  : option TeamData * State :=
  let s := emit (MonitorBeforeRequest "getItemData") s in
  match f_monitor fe with
  | Thrown => (None, s)
  | Resolved _ =>
      let s := emit (GqlGetItemData target) s in
      match f_remote fe with
      | Thrown => (None, s)
      | Resolved None => (None, s)
      | Resolved (Some d) =>
          let t := teamDataOfItemData d in
          let s := emit (DbUpsertTeamData target) s in
          match f_upsert fe with
          | Thrown => (None, s)
          | Resolved _ =>
              (Some t, set_teamDataCache (<[target := (t, f_stamp fe)]> (teamDataCache s)) s)
          end
      end
  end.

(** The part of [fetchTeamData] after a cache miss. *)
Definition fetchTeamDataLocal (fe : FetchEnv) (target : string) (s : State)
  : option TeamData * State :=
  let s := emit (DbGetTeamData target) s in
  match f_local fe with
  | Thrown => (None, s)
  | Resolved (Some row) =>
      let t := teamDataOfRow row in
      (Some t, set_teamDataCache (<[target := (t, f_stamp fe)]> (teamDataCache s)) s)
  | Resolved None => recoverTeamDataFromDynamoDB fe target s
  end.

(** [fetchTeamData]. *)
Definition fetchTeamData (fe : FetchEnv) (target : string) (s : State)
  : option TeamData * State :=
  match teamDataCache s !! target with
  | Some (data, stamped) =>
      if decide (f_now fe - stamped < CACHE_DURATION)%Z then (Some data, s)
      else fetchTeamDataLocal fe target s
  | None => fetchTeamDataLocal fe target s
  end.

(** The loop of [loadTeamDataForItems], from the [k]-th fetch on. *)
Fixpoint loadTeamDataFrom (e : Env) (k : nat) (l : list ref) (s : State) : State :=
  match l with
  | [] => s
  | item :: l' =>
      let '(t, s1) := fetchTeamData (teamFetch e k) (itemId (deref (heap s) item)) s in
      let s2 :=
        match t with
        | Some _ => set_heap (assign (with_teamData t) item (heap s1)) s1
        | None => s1
        end in
      loadTeamDataFrom e (S k) l' s2
  end.

Definition loadTeamDataForItems (e : Env) (s : State) : State :=
  loadTeamDataFrom e 0 (reorderItems s) s.

(** The [forEach] of [handleTeamDataUpdate]. *)
Fixpoint attachTeamData (target : string) (t : TeamData) (l : list ref) (h : Heap)
  : bool * Heap :=
  match l with
  | [] => (false, h)
  | r :: l' =>
      if decide (itemId (deref h r) = target)
      then (true, (attachTeamData target t l' (assign (with_teamData (Some t)) r h)).2)
      else attachTeamData target t l' h
  end.

(** [handleTeamDataUpdate]: an exception of a listener leaves the handler. *)
Definition handleTeamDataUpdate (d : ItemData) (e : Env) (s : State) : Reply unit * State :=
  let t := teamDataOfItemData d in
  let s := set_teamDataCache (<[d_id d := (t, ms (clock e 0))]> (teamDataCache s)) s in
  let '(itemsUpdated, h) := attachTeamData (d_id d) t (reorderItems s) (heap s) in
  let s := set_heap h s in
  if itemsUpdated then notifyListeners e s else (Resolved (), s).

(** ** Bulk loads *)

Definition itemOfRow (r : Row) : ReorderItem :=
  {| id := row_id r; itemId := row_item_id r; itemName := row_item_name r;
     itemBarcode := row_item_barcode r; itemCategory := row_item_category r;
     itemPrice := row_item_price r; quantity := row_quantity r;
     completed := bool_decide (row_completed r = 1%Z);
     addedBy := row_added_by r; createdAt := row_created_at r;
     updatedAt := row_updated_at r; teamData := None;
     timestamp := Some (DateParse (row_created_at r)); index := Some 0 |}.

(** [loadLocalReorderItems]: a failure yields the empty list. *)
Definition loadLocalReorderItems (e : Env) (s : State) : list ReorderItem * State :=
  let s := emit DbLoadReorderItems s in
  match dbRows e with
  | Resolved rows => (itemOfRow <$> rows, s)
  | Thrown => ([], s)
  end.

(** [saveReorderItemsLocally]: a failure is logged and ignored. *)
Definition saveReorderItemsLocally (items : list ReorderItem) (s : State) : State :=
  emit (DbSaveReorderItems items) s.

(** The common part of [recoverFromDynamoDB] and [manualSync] once the
    server answered with items; it ends with the broadcast. *)
Definition adoptServerItems (items : list ReorderItem) (e : Env) (s : State)
  : Reply unit * State :=
  let serverItems := imap stamp items in
  let s := saveReorderItemsLocally serverItems s in
  let '(refs, h) := alloc_all serverItems (heap s) in
  let s := set_reorderItems refs (set_heap h s) in
  notifyListeners e (loadTeamDataForItems e s).

(** [recoverFromDynamoDB]: never throws; its [catch] block only logs. *)
Definition recoverFromDynamoDB (e : Env) (s : State) : State :=
  let s := emit (MonitorBeforeRequest "listReorderItems") s in
  match monitorReply e with
  | Thrown => s
  | Resolved _ =>
      let s := emit (GqlListReorderItems 1000) s in
      match listReply e with
      | Resolved (Some items) => (adoptServerItems items e s).2
      | Resolved None => s
      | Thrown => s
      end
  end.

(** [manualSync]: as the recovery, but its [catch] block throws again
    what it caught. *)
Definition manualSync (e : Env) (s : State) : Reply unit * State :=
  let s := emit (MonitorBeforeRequest "listReorderItems") s in
  match monitorReply e with
  | Thrown => (Thrown, s)
  | Resolved _ =>
      let s := emit (GqlListReorderItems 1000) s in
      match listReply e with
      | Resolved (Some items) => adoptServerItems items e s
      | Resolved None => (Resolved (), s)
      | Thrown => (Thrown, s)
      end
  end.

(** [loadReorderItems]: the local table first, the remote list only when
    the table is empty; never throws. *)
Definition loadReorderItems (e : Env) (s : State) : State :=
  let '(localReorderItems, s) := loadLocalReorderItems e s in
  match localReorderItems with
  | _ :: _ =>
      let '(refs, h) := alloc_all localReorderItems (heap s) in
      loadTeamDataForItems e (set_reorderItems refs (set_heap h s))
  | [] => recoverFromDynamoDB e s
  end.

(** [this.currentUserId === userId]: [null] is not [undefined]. *)
Definition sameUser (current userId : option string) : bool :=
  match current, userId with
  | Some a, Some b => bool_decide (a = b)
  | _, _ => false
  end.

(** The [catch] block of [initialize]; an exception of its own broadcast
    rejects the promise. *)
Definition initializeFallback (e : Env) (s : State) : Reply unit * State :=
  let s := set_isOfflineMode true s in
  notifyListeners e (loadOfflineItems e s).

(** The [try] block of [initialize] up to its broadcast: the probe, the
    load and the flag.  Every callee handles its own failures. *)
Definition initializeLoad (userId : option string) (e : Env) (s : State) : State :=
  let s := set_currentUserId (str_or_undefined userId) s in
  let '(isAuthenticated, s) := checkAuthStatus e s in
  let s := if isAuthenticated then loadReorderItems e s else loadOfflineItems e s in
  set_isInitialized true s.

(** [initialize].  The [catch] block is reached when a listener throws
    in the broadcast, after [isInitialized] was set; the storage was
    read once before when the probe threw. *)
Definition initialize (userId : option string) (e : Env) (s : State) : Reply unit * State :=
  if isInitialized s && sameUser (currentUserId s) userId then (Resolved (), s)
  else
    tryCatch (notifyListeners e (initializeLoad userId e s))
      (initializeFallback (later 0 0 0 (if is_thrown (authProbe e) then 1 else 0) e)).

(** [addListener].  The first listener of a service that is not
    initialised is called once more when the promise of [initialize]
    resolves, and not when it is rejected. *)
Definition addListener (l : nat) (e : Env) (s : State) : Reply unit * State :=
  let s := set_listeners (listeners s ++ [l]) s in
  if bool_decide (length (listeners s) = 1) && negb (isInitialized s)
  then andThen (initialize (str_or_undefined (currentUserId s)) e s) (callListener l e)
  else callListener l e s.

(** The function [addListener] returns. *)
Definition removeListener (l : nat) (s : State) : State :=
  set_listeners (filter (λ l', l' ≠ l) (listeners s)) s.

(** ** Real-time events

    The handlers are called by the subscriptions; an exception of a
    listener leaves the handler. *)

(** [handleReorderItemCreated]. *)
Definition handleReorderItemCreated (newItem : ReorderItem) (e : Env) (s : State)
  : Reply unit * State :=
  match list_find (λ r, id (deref (heap s) r) = id newItem) (reorderItems s) with
  | Some _ => (Resolved (), s)
  | None =>
      let reorderItem :=
        with_index (Some (length (reorderItems s) + 1))
          (with_timestamp (Some (DateParse (createdAt newItem))) newItem) in
      let '(r, h) := alloc reorderItem (heap s) in
      notifyListeners e (set_reorderItems (reorderItems s ++ [r]) (set_heap h s))
  end.

(** [handleReorderItemUpdated]: the slot gets a new object that keeps the
    display index of the old one. *)
Definition handleReorderItemUpdated (updatedItem : ReorderItem) (e : Env) (s : State)
  : Reply unit * State :=
  match list_find (λ r, id (deref (heap s) r) = id updatedItem) (reorderItems s) with
  | Some (i, old) =>
      let reorderItem :=
        with_index (index (deref (heap s) old))
          (with_timestamp (Some (DateParse (createdAt updatedItem))) updatedItem) in
      let '(r, h) := alloc reorderItem (heap s) in
      notifyListeners e (set_reorderItems (<[i := r]> (reorderItems s)) (set_heap h s))
  | None => (Resolved (), s)
  end.

(** [forEach((item, index) => { item.index = index + 1 })], from position
    [k] on. *)
Fixpoint reindexFrom (k : nat) (l : list ref) (h : Heap) : Heap :=
  match l with
  | [] => h
  | r :: l' => reindexFrom (S k) l' (assign (with_index (Some (k + 1))) r h)
  end.

Definition reindex (l : list ref) (h : Heap) : Heap := reindexFrom 0 l h.

(** [handleReorderItemDeleted]. *)
Definition handleReorderItemDeleted (deletedItem : ReorderItem) (e : Env) (s : State)
  : Reply unit * State :=
  let initialLength := length (reorderItems s) in
  let s := set_reorderItems
             (filter (λ r, id (deref (heap s) r) ≠ id deletedItem) (reorderItems s)) s in
  if decide (length (reorderItems s) < initialLength)
  then notifyListeners e (set_heap (reindex (reorderItems s) (heap s)) s)
  else (Resolved (), s).

(** ** Mutating operations *)

(** The fragment that every offline mutation of an existing record ends
    with: the pending entry of the same id is replaced by a copy of the
    record, or the copy is appended. *)
Definition queuePending (item : ref) (s : State) : State :=
  let key := id (deref (heap s) item) in
  let existingPendingIndex :=
    list_find (λ p, id (deref (heap s) p) = key) (pendingSyncItems s) in
  let '(copy, h) := clone item (heap s) in
  match existingPendingIndex with
  | Some (i, _) => set_pendingSyncItems (<[i := copy]> (pendingSyncItems s)) (set_heap h s)
  | None => set_pendingSyncItems (pendingSyncItems s ++ [copy]) (set_heap h s)
  end.

(** [prefix-${Date.now()}-${Math.random().toString(36).substr(2, 9)}]. *)
Definition mintId (prefix : string) (e : Env) : string :=
  prefix +:+ "-" +:+ pretty (ms (clock e 0)) +:+ "-" +:+ random e 0.

(** The record [addItem] builds for a new source item; it reads the clock
    four times: for the id, [createdAt], [updatedAt] and [timestamp]. *)
Definition newReorderItem (item : ConvertedItem) (qty : number) (team : option TeamData)
    (user : string) (e : Env) (s : State) : ReorderItem :=
  {| id := mintId "offline" e;
     itemId := c_id item;
     itemName := str_or (c_name item) "Unknown Item";
     itemBarcode := str_or_undefined (c_barcode item);
     itemCategory := str_or_undefined (c_category item);
     itemPrice := c_price item;
     quantity := Some qty;
     completed := false;
     addedBy := user;
     createdAt := iso (clock e 1);
     updatedAt := iso (clock e 2);
     teamData := team;
     timestamp := Some (DateMs (ms (clock e 3)));
     index := Some (length (reorderItems s) + 1) |}.

(** New quantity of an existing record: [quantity], or
    [existingItem.quantity + quantity]. *)
Definition mergedQuantity (overwriteMode : bool) (old : option number) (qty : number)
  : number :=
  if overwriteMode then qty else PrimFloat.add (num_or_zero old) qty.

(** The local addition, which the offline branch and the [catch] block of
    [addItem] both write out: the first record that references the source
    item gets the new quantity and is queued, or a new record is pushed
    and a copy of it queued. *)
Definition addLocally (item : ConvertedItem) (qty : number) (team : option TeamData)
    (user : string) (overwriteMode : bool) (e : Env) (s : State) : State :=
  match list_find (λ r, itemId (deref (heap s) r) = c_id item) (reorderItems s) with
  | Some (_, existingItem) =>
      let q := mergedQuantity overwriteMode (quantity (deref (heap s) existingItem)) qty in
      let h := assign (with_quantity (Some q)) existingItem (heap s) in
      let h := assign (with_updatedAt (iso (clock e 0))) existingItem h in
      queuePending existingItem (set_heap h s)
  | None =>
      let new := newReorderItem item qty team user e s in
      let '(r, h) := alloc new (heap s) in
      let s := set_reorderItems (reorderItems s ++ [r]) (set_heap h s) in
      let '(copy, h) := clone r (heap s) in
      set_pendingSyncItems (pendingSyncItems s ++ [copy]) (set_heap h s)
  end.

(** The offline branch of [addItem] (the body of [if (this.isOfflineMode)]). *)
Definition addItemOffline (item : ConvertedItem) (qty : number) (team : option TeamData)
    (user : string) (overwriteMode : bool) (e : Env) (s : State) : Reply bool * State :=
  let s := saveOfflineItems e (addLocally item qty team user overwriteMode e s) in
  andThen (notifyListeners e s) (λ s, (Resolved true, s)).

(** The [catch] block of [addItem]: the session goes offline and the
    addition is made locally, under [addedBy || 'Unknown User']; an
    exception of its broadcast rejects the promise. *)
Definition addItemFallback (item : ConvertedItem) (qty : number) (team : option TeamData)
    (user : string) (overwriteMode : bool) (e : Env) (s : State) : Reply bool * State :=
  let s := set_isOfflineMode true s in
  let s := saveOfflineItems e
             (addLocally item qty team (str_or (Some user) "Unknown User") overwriteMode e s) in
  andThen (notifyListeners e s) (λ s, (Resolved true, s)).

Definition createInputOfItem (item : ConvertedItem) (qty : number) (user : string)
  : CreateInput :=
  {| in_itemId := c_id item; in_itemName := c_name item;
     in_itemBarcode := str_or_undefined (c_barcode item);
     in_itemCategory := str_or_undefined (c_category item);
     in_itemPrice := c_price item; in_quantity := Some qty;
     in_completed := false; in_addedBy := user |}.

(** [addItem].  The [catch] block is reached from the online branch when
    the remote call throws, and from the offline branch when a listener
    throws in its broadcast: by then the branch has read the clock once
    (an existing record) or four times with one random draw (a new one),
    and has written the snapshot. *)
Definition addItem (item : ConvertedItem) (qty : number) (team : option TeamData)
    (user : string) (overwriteMode : bool) (e : Env) (s : State) : Reply bool * State :=
  let existingItemIndex :=
    list_find (λ r, itemId (deref (heap s) r) = c_id item) (reorderItems s) in
  if isOfflineMode s then
    tryCatch (addItemOffline item qty team user overwriteMode e s)
      (addItemFallback item qty team user overwriteMode
         (match existingItemIndex with
          | Some _ => later 1 0 1 0 e
          | None => later 4 1 1 0 e
          end))
  else
    match existingItemIndex with
    | Some (_, existingItem) =>
        let newQuantity :=
          mergedQuantity overwriteMode (quantity (deref (heap s) existingItem)) qty in
        let s := emit (GqlUpdateQuantity (id (deref (heap s) existingItem)) newQuantity) s in
        match updateReply e with
        | Resolved true => (Resolved true, s)
        | Resolved false => (Resolved false, s)
        | Thrown => addItemFallback item qty team user overwriteMode e s
        end
    | None =>
        let s := emit (GqlCreateReorderItem (createInputOfItem item qty user)) s in
        match createReply e 0 with
        | Resolved true => (Resolved true, s)
        | Resolved false => (Resolved false, s)
        | Thrown => addItemFallback item qty team user overwriteMode e s
        end
    end.

(** The local removal, which the offline branch and the [catch] block of
    [removeItem] both write out. *)
Definition removeLocally (target : string) (e : Env) (s : State) : Reply unit * State :=
  match list_find (λ r, id (deref (heap s) r) = target) (reorderItems s) with
  | Some (itemIndex, _) =>
      let s := set_reorderItems (delete itemIndex (reorderItems s)) s in
      let s := set_pendingSyncItems
                 (filter (λ p, id (deref (heap s) p) ≠ target) (pendingSyncItems s)) s in
      let s := set_heap (reindex (reorderItems s) (heap s)) s in
      notifyListeners e (saveOfflineItems e s)
  | None => (Resolved (), s)
  end.

(** [removeItem].  The [catch] block is reached from the online branch
    when the remote call throws, and from the offline branch when a
    listener throws in its broadcast, after the snapshot was written. *)
Definition removeItem (target : string) (e : Env) (s : State) : Reply unit * State :=
  if isOfflineMode s then
    tryCatch (removeLocally target e s)
      (λ s, removeLocally target (later 0 0 1 0 e) (set_isOfflineMode true s))
  else
    let s := emit (GqlDeleteReorderItem target) s in
    match deleteReply e 0 with
    | Resolved _ => (Resolved (), s)
    | Thrown => removeLocally target e (set_isOfflineMode true s)
    end.

(** The history call of [toggleCompletion]: only when the record becomes
    completed and refers to a catalogue item; its failure is ignored. *)
Definition logReorderHistory (item : ReorderItem) (userName : string) (s : State) : State :=
  if negb (completed item) && negb (bool_decide (itemId item = ""))
     && negb (bool_decide (itemId item = id item))
  then emit (HistoryLogReorder (itemId item) (str_or (Some (itemName item)) "Unknown Item")
               (quantity item) userName) s
  else s.

(** The local toggle, which the offline branch and the [catch] block of
    [toggleCompletion] both write out. *)
Definition toggleLocally (item : ref) (e : Env) (s : State) : Reply unit * State :=
  let newCompletedState := negb (completed (deref (heap s) item)) in
  let h := assign (with_completed newCompletedState) item (heap s) in
  let h := assign (with_updatedAt (iso (clock e 0))) item h in
  notifyListeners e (saveOfflineItems e (queuePending item (set_heap h s))).

(** The [catch] block of [toggleCompletion]: the record is looked up
    again, reported to the history on the state it has by then, and
    toggled. *)
Definition toggleFallback (target userName : string) (e : Env) (s : State)
  : Reply unit * State :=
  let s := set_isOfflineMode true s in
  match list_find (λ r, id (deref (heap s) r) = target) (reorderItems s) with
  | Some (_, item) =>
      let s := logReorderHistory (deref (heap s) item) userName s in
      toggleLocally item e s
  | None => (Resolved (), s)
  end.

(** [toggleCompletion].  The [catch] block is reached from the online
    branch when the remote call throws, and from the offline branch when
    a listener throws in its broadcast: by then the branch has read the
    clock once and has written the snapshot. *)
Definition toggleCompletion (target : string) (userName : string) (e : Env) (s : State)
  : Reply unit * State :=
  match list_find (λ r, id (deref (heap s) r) = target) (reorderItems s) with
  | None => (Resolved (), s)
  | Some (_, item) =>
      let newCompletedState := negb (completed (deref (heap s) item)) in
      let s := logReorderHistory (deref (heap s) item) userName s in
      if isOfflineMode s then
        tryCatch (toggleLocally item e s) (toggleFallback target userName (later 1 0 1 0 e))
      else
        let s := emit (GqlUpdateCompleted target newCompletedState) s in
        match updateReply e with
        | Resolved _ => (Resolved (), s)
        | Thrown => toggleFallback target userName e s
        end
  end.

Definition createInputOfPending (x : ReorderItem) : CreateInput :=
  {| in_itemId := itemId x; in_itemName := Some (itemName x);
     in_itemBarcode := itemBarcode x; in_itemCategory := itemCategory x;
     in_itemPrice := itemPrice x; in_quantity := quantity x;
     in_completed := completed x; in_addedBy := addedBy x |}.

(** The loop of [syncPendingItems]: every entry is resubmitted as a
    creation; the ids of the confirmed ones are collected. *)
Fixpoint syncLoop (e : Env) (k : nat) (l : list ref) (syncedItems : list string)
    (s : State) : list string * State :=
  match l with
  | [] => (syncedItems, s)
  | item :: l' =>
      let x := deref (heap s) item in
      let s := emit (GqlCreateReorderItem (createInputOfPending x)) s in
      match createReply e k with
      | Resolved true => syncLoop e (S k) l' (syncedItems ++ [id x]) s
      | _ => syncLoop e (S k) l' syncedItems s
      end
  end.

(** [syncPendingItems]: the flush of the pending queue. *)
Definition syncPendingItems (e : Env) (s : State) : State :=
  match pendingSyncItems s with
  | [] => s
  | _ :: _ =>
      let '(syncedItems, s) := syncLoop e 0 (pendingSyncItems s) [] s in
      set_pendingSyncItems
        (filter (λ p, id (deref (heap s) p) ∉ syncedItems) (pendingSyncItems s)) s
  end.

(** [refresh]: never throws; its [catch] block only logs, also what a
    listener throws in the broadcast. *)
Definition refresh (e : Env) (s : State) : State :=
  let '(isAuthenticated, s) := checkAuthStatus e s in
  if isAuthenticated
  then (notifyListeners e (loadReorderItems e (syncPendingItems e s))).2
  else (notifyListeners e (loadOfflineItems e s)).2.

(** The record [addCustomItem] builds. *)
Definition newCustomItem (c : CustomItem) (e : Env) (s : State) : ReorderItem :=
  let customId := mintId "custom" e in
  {| id := customId;
     itemId := customId;
     itemName := cu_itemName c;
     itemBarcode := None;
     itemCategory := Some (str_or (cu_itemCategory c) "Custom");
     itemPrice := None;
     quantity := Some (cu_quantity c);
     completed := false;
     addedBy := cu_addedBy c;
     createdAt := iso (clock e 1);
     updatedAt := iso (clock e 2);
     teamData :=
       match str_or_undefined (cu_vendor c) with
       | Some v => Some {| vendor := Some v; vendorCost := None; caseUpc := None;
                           caseCost := None; caseQuantity := None;
                           discontinued := None; notes := None |}
       | None => None
       end;
     timestamp := Some (DateMs (ms (clock e 3)));
     index := Some (length (reorderItems s) + 1) |}.

(** [unshift] into the collection and [push] of the same object onto the
    pending queue, then save and notify. *)
Definition commitCustomItem (newItem : ReorderItem) (e : Env) (s : State)
  : Reply unit * State :=
  let '(r, h) := alloc newItem (heap s) in
  let s := set_reorderItems (r :: reorderItems s) (set_heap h s) in
  let s := set_pendingSyncItems (pendingSyncItems s ++ [r]) s in
  notifyListeners e (saveOfflineItems e s).

Definition createInputOfCustom (customId : string) (c : CustomItem) : CreateInput :=
  {| in_itemId := customId; in_itemName := Some (cu_itemName c);
     in_itemBarcode := None;
     in_itemCategory := Some (str_or (cu_itemCategory c) "Custom");
     in_itemPrice := None; in_quantity := Some (cu_quantity c);
     in_completed := false; in_addedBy := cu_addedBy c |}.

(** The [catch] block of [addCustomItem]: the session goes offline, a
    second record with a second id is built and committed; an exception
    of its broadcast rejects the promise. *)
Definition addCustomItemFallback (c : CustomItem) (e : Env) (s : State)
  : Reply bool * State :=
  let s := set_isOfflineMode true s in
  andThen (commitCustomItem (newCustomItem c e s) e s) (λ s, (Resolved true, s)).

(** [addCustomItem].  The record is built first: four readings of the
    clock and one random draw.  The [catch] block is reached from the
    online branch when the remote call throws, and from the offline
    branch when a listener throws in its broadcast, after the snapshot
    was written. *)
Definition addCustomItem (c : CustomItem) (e : Env) (s : State) : Reply bool * State :=
  let newItem := newCustomItem c e s in
  if isOfflineMode s then
    tryCatch (andThen (commitCustomItem newItem e s) (λ s, (Resolved true, s)))
      (addCustomItemFallback c (later 4 1 1 0 e))
  else
    let s := emit (GqlCreateReorderItem (createInputOfCustom (id newItem) c)) s in
    match createReply e 0 with
    | Resolved true => (Resolved true, s)
    | Resolved false => (Resolved false, s)
    | Thrown => addCustomItemFallback c (later 4 1 0 0 e) s
    end.

(** The loop of [clear]: one delete request per record; the first failure
    ends the loop. *)
Fixpoint clearLoop (e : Env) (k : nat) (l : list ref) (s : State) : State :=
  match l with
  | [] => s
  | item :: l' =>
      let s := emit (GqlDeleteReorderItem (id (deref (heap s) item))) s in
      match deleteReply e k with
      | Resolved _ => clearLoop e (S k) l' s
      | Thrown => s
      end
  end.

(** [clear]. *)
Definition clear (e : Env) (s : State) : State :=
  clearLoop e 0 (reorderItems s) s.

(** ** Operations and runs *)

Inductive Op :=
| Initialize (userId : option string) (e : Env)
| Refresh (e : Env)
| ManualSync (e : Env)
| AddItem (item : ConvertedItem) (qty : number) (team : option TeamData) (user : string)
    (overwriteMode : bool) (e : Env)
| AddCustomItem (c : CustomItem) (e : Env)
| RemoveItem (target : string) (e : Env)
| ToggleCompletion (target userName : string) (e : Env)
| Clear (e : Env)
| FetchTeamData (target : string) (fe : FetchEnv)
| AddListener (l : nat) (e : Env)
| RemoveListener (l : nat)
| RemoteCreated (newItem : ReorderItem) (e : Env)
| RemoteUpdated (updatedItem : ReorderItem) (e : Env)
| RemoteDeleted (deletedItem : ReorderItem) (e : Env)
| RemoteTeamData (d : ItemData) (e : Env).

(** The state that an operation leaves, whatever its outcome. *)
Definition run (s : State) (o : Op) : State :=
  match o with
  | Initialize userId e => (initialize userId e s).2
  | Refresh e => refresh e s
  | ManualSync e => (manualSync e s).2
  | AddItem item qty team user overwriteMode e =>
      (addItem item qty team user overwriteMode e s).2
  | AddCustomItem c e => (addCustomItem c e s).2
  | RemoveItem target e => (removeItem target e s).2
  | ToggleCompletion target userName e => (toggleCompletion target userName e s).2
  | Clear e => clear e s
  | FetchTeamData target fe => (fetchTeamData fe target s).2
  | AddListener l e => (addListener l e s).2
  | RemoveListener l => removeListener l s
  | RemoteCreated newItem e => (handleReorderItemCreated newItem e s).2
  | RemoteUpdated updatedItem e => (handleReorderItemUpdated updatedItem e s).2
  | RemoteDeleted deletedItem e => (handleReorderItemDeleted deletedItem e s).2
  | RemoteTeamData d e => (handleTeamDataUpdate d e s).2
  end.

Definition runAll (s : State) (ops : list Op) : State := foldl run s ops.

(** The states the service can be in. *)
Inductive reachable : State → Prop :=
| reachable_initial stored : reachable (initial stored)
| reachable_run s o : reachable s → reachable (run s o).

(** ** Relations between states *)

(** [h'] extends [h]: it is at least as long and shows the same [id] and
    [itemId] at every address of [h]. *)
Definition extends (h h' : Heap) : Prop :=
  length h ≤ length h' ∧
  ∀ r, r < length h →
    id (deref h' r) = id (deref h r) ∧ itemId (deref h' r) = itemId (deref h r).

(** [s'] has the arrays and the offline snapshot of [s], and its objects
    at the same addresses with the same [id] and [itemId]. *)
Definition keeps (s s' : State) : Prop :=
  extends (heap s) (heap s') ∧ length (heap s') = length (heap s) ∧
  reorderItems s' = reorderItems s ∧ pendingSyncItems s' = pendingSyncItems s ∧
  storage s' = storage s.

(** [s'] differs from [s] at most in the log of outgoing calls. *)
Definition sameButLog (s s' : State) : Prop :=
  heap s' = heap s ∧ reorderItems s' = reorderItems s ∧
  listeners s' = listeners s ∧ teamDataCache s' = teamDataCache s ∧
  isInitialized s' = isInitialized s ∧ currentUserId s' = currentUserId s ∧
  isOfflineMode s' = isOfflineMode s ∧ pendingSyncItems s' = pendingSyncItems s ∧
  storage s' = storage s ∧ broadcasts s' = broadcasts s.

(** Every slot of the two arrays holds a live object, and no object is
    held by two slots of the collection. *)
Definition wf (s : State) : Prop :=
  Forall (λ r, r < length (heap s)) (reorderItems s) ∧
  Forall (λ r, r < length (heap s)) (pendingSyncItems s) ∧
  NoDup (reorderItems s).

(** ** Views of the state *)

(** The identifiers of the collection and of the pending queue, in order. *)
Definition itemIds (s : State) : list string := ids (heap s) (reorderItems s).
Definition pendingIds (s : State) : list string := ids (heap s) (pendingSyncItems s).

(** The display indices of the collection, in order. *)
Definition displayIndices (s : State) : list (option nat) :=
  index <$> records (heap s) (reorderItems s).

(** ** The remote call of an online addition *)

(** The remote call that [addItem] makes when the session is online: an
    update of the record that references the source item, a creation when
    there is none. *)
Definition addItemCall (item : ConvertedItem) (qty : number) (user : string)
    (overwriteMode : bool) (s : State) : Effect :=
  match list_find (λ r, itemId (deref (heap s) r) = c_id item) (reorderItems s) with
  | Some (_, existingItem) =>
      GqlUpdateQuantity (id (deref (heap s) existingItem))
        (mergedQuantity overwriteMode (quantity (deref (heap s) existingItem)) qty)
  | None => GqlCreateReorderItem (createInputOfItem item qty user)
  end.

(** The answer to that call. *)
Definition addItemReply (item : ConvertedItem) (e : Env) (s : State) : Reply bool :=
  match list_find (λ r, itemId (deref (heap s) r) = c_id item) (reorderItems s) with
  | Some _ => updateReply e
  | None => createReply e 0
  end.

(** ** Confirmation by a flush *)

(** The flush got the remote confirmation for an entry keyed [X]: the
    creation resubmitted for the [k]-th entry of the queue, keyed [X],
    was answered with data. *)
Definition confirmed (e : Env) (s : State) (X : string) : Prop :=
  ∃ k p, pendingSyncItems s !! k = Some p ∧ id (deref (heap s) p) = X ∧
         createReply e k = Resolved true.

(** ** How an operation changes the identifiers *)

(** The identifiers that an operation mints for the records that it
    commits locally, in the order of the commits.  [addItem] mints one
    when no record references the source item and the addition is made
    locally (offline, or after the remote call threw).  [addCustomItem]
    commits its first id offline, and then a second one when a listener
    throws in the broadcast; after the remote call threw it commits its
    second id only. *)
Definition mintedIds (s : State) (o : Op) : list string :=
  match o with
  | AddItem item _ _ _ _ e =>
      match list_find (λ r, itemId (deref (heap s) r) = c_id item) (reorderItems s) with
      | Some _ => []
      | None =>
          if isOfflineMode s then [mintId "offline" e]
          else match createReply e 0 with
               | Thrown => [mintId "offline" e]
               | Resolved _ => []
               end
      end
  | AddCustomItem c e =>
      if isOfflineMode s then
        mintId "custom" e ::
        (if is_thrown (commitCustomItem (newCustomItem c e s) e s).1
         then [mintId "custom" (later 4 1 1 0 e)] else [])
      else match createReply e 0 with
           | Thrown => [mintId "custom" (later 4 1 0 0 e)]
           | Resolved _ => []
           end
  | _ => []
  end.

(** The lists of records that a bulk load can install: the rows of the
    local table, the items of the remote list, the offline snapshot;
    each given by its identifiers. *)
Definition bulkIds (e : Env) (s : State) : list (list string) :=
  match dbRows e with Resolved rows => [row_id <$> rows] | Thrown => [] end ++
  match listReply e with Resolved (Some items) => [id <$> items] | _ => [] end ++
  match storage s with Some stored => [id <$> stored] | None => [] end.

Definition loadedIds (s : State) (o : Op) : list (list string) :=
  match o with
  | Initialize _ e | Refresh e | ManualSync e | AddListener _ e => bulkIds e s
  | _ => []
  end.

(** How one operation changes the identifiers of the collection: it keeps
    them or drops some; or it appends one that was absent; or it adds, at
    one end, those that it minted; or it installs a bulk load. *)
Definition itemsStep (s : State) (o : Op) (s' : State) : Prop :=
  itemIds s' `sublist_of` itemIds s
  ∨ (∃ x, (x ∉ itemIds s) ∧ itemIds s' = itemIds s ++ [x])
  ∨ (itemIds s' = itemIds s ++ mintedIds s o ∨ itemIds s' = reverse (mintedIds s o) ++ itemIds s)
  ∨ itemIds s' ∈ loadedIds s o.

(** How one operation changes the identifiers of the pending queue. *)
Definition pendingStep (s : State) (o : Op) (s' : State) : Prop :=
  pendingIds s' `sublist_of` pendingIds s
  ∨ (∃ x, (x ∉ pendingIds s) ∧ pendingIds s' = pendingIds s ++ [x])
  ∨ pendingIds s' = pendingIds s ++ mintedIds s o.

(** The offline snapshot is kept, or it lists records of the collection
    as it was or as it is, without repeating one. *)
Definition storageStep (s s' : State) : Prop :=
  storage s' = storage s
  ∨ ∃ stored, storage s' = Some stored ∧
      (id <$> stored `sublist_of` itemIds s' ∨ id <$> stored `sublist_of` itemIds s).

Definition summary (s : State) (o : Op) (s' : State) : Prop :=
  wf s' ∧ itemsStep s o s' ∧ pendingStep s o s' ∧ storageStep s s'.

(** The outcome of a loader: the collection is kept or replaced by one of
    the bulk loads; the pending queue and the offline snapshot are kept. *)
Definition loaded (e : Env) (s s' : State) : Prop :=
  wf s' ∧ storage s' = storage s ∧ pendingIds s' = pendingIds s ∧
  (itemIds s' = itemIds s ∨ itemIds s' ∈ bulkIds e s).

(** The outcome of a local block that started in [s]: the state is well
    formed, its identifiers are [items] and [pend], and the snapshot is
    the one of [s] or lists the records of [items]. *)
Definition localOutcome (s s' : State) (items pend : list string) : Prop :=
  wf s' ∧ itemIds s' = items ∧ pendingIds s' = pend ∧
  (storage s' = storage s ∨ ∃ stored, storage s' = Some stored ∧ id <$> stored = items).

(** [s'] differs from [s] at most in the objects, the two arrays and the
    snapshot. *)
Definition localChange (s s' : State) : Prop :=
  listeners s' = listeners s ∧ teamDataCache s' = teamDataCache s ∧
  isInitialized s' = isInitialized s ∧ currentUserId s' = currentUserId s ∧
  isOfflineMode s' = isOfflineMode s ∧ log s' = log s ∧ broadcasts s' = broadcasts s.

(** ** What the environment must grant for identifiers to stay unique *)








(** ** What a listener can do with its argument *)

(** Arrays are objects too.  For the call of a listener the memory holds
    the records and the arrays: the collection at address [0], the pending
    queue at address [1]. *)
Record Memory := { objects : Heap; arrays : list (list ref) }.

Definition collectionArray : nat := 0.
Definition pendingArray : nat := 1.

Definition memoryOf (s : State) : Memory :=
  {| objects := heap s; arrays := [reorderItems s; pendingSyncItems s] |}.

(** [[...a]]: a new array with the elements of the array at [a]. *)
Definition spread (a : nat) (m : Memory) : nat * Memory :=
  (length (arrays m),
   {| objects := objects m; arrays := arrays m ++ [arrays m !!! a] |}).

(** One step of a listener on the array [items] it was called with: an
    operation on the array itself ([items.push], [items.splice],
    [items.sort], [items[i] = ...], [items.length = 0]), or an assignment
    to a field of the record in slot [i] ([items[i].quantity = ...]). *)
Inductive Mutation :=
| OnArray (f : list ref → list ref)
| OnRecord (i : nat) (f : ReorderItem → ReorderItem).

Definition arrayOnly (m : Mutation) : bool :=
  match m with
  | OnArray _ => true
  | OnRecord _ _ => false
  end.

(** The listener runs its script on the array at [items], the only array
    it holds a reference to.  A step on a slot that the array does not
    have ends the script (the exception it raises is not modelled). *)
Fixpoint mutate (script : list Mutation) (items : nat) (m : Memory) : Memory :=
  match script with
  | [] => m
  | OnArray f :: script' =>
      mutate script' items {| objects := objects m; arrays := alter f items (arrays m) |}
  | OnRecord i f :: script' =>
      match (arrays m !!! items) !! i with
      | Some r => mutate script' items {| objects := assign f r (objects m); arrays := arrays m |}
      | None => m
      end
  end.

(** The service as the memory leaves it. *)
Definition withMemory (m : Memory) (s : State) : State :=
  set_pendingSyncItems (arrays m !!! pendingArray)
    (set_reorderItems (arrays m !!! collectionArray) (set_heap (objects m) s)).

(** [listener([...this.reorderItems])] for a listener with that script:
    it runs the script, then returns or throws as [callListener] has it. *)
Definition callListenerWith (script : list Mutation) (l : nat) (e : Env) (s : State)
  : Reply unit * State :=
  let out := callListener l e s in
  let '(items, m) := spread collectionArray (memoryOf out.2) in
  (out.1, withMemory (mutate script items m) out.2).

Fixpoint forEachListenerWith (behaviour : nat → list Mutation) (ls : list nat) (e : Env)
    (s : State) : Reply unit * State :=
  match ls with
  | [] => (Resolved (), s)
  | l :: ls' =>
      andThen (callListenerWith (behaviour l) l e s) (forEachListenerWith behaviour ls' e)
  end.

(** [notifyListeners] when listener [l] behaves as [behaviour l]. *)
Definition notifyListenersWith (behaviour : nat → list Mutation) (e : Env) (s : State)
  : Reply unit * State :=
  forEachListenerWith behaviour (listeners s) e s.

(** What [listener(this.reorderItems)] would be: the listener holds the
    array of the collection itself. *)
Definition callListenerUncopied (script : list Mutation) (s : State) : State :=
  withMemory (mutate script collectionArray (memoryOf s)) s.

(** ** The sync status *)

(** [getSyncStatus]. *)
Record SyncStatus := { isOnline : bool; pendingCount : nat; isAuthenticated : bool }.

Definition getSyncStatus (s : State) : SyncStatus :=
  {| isOnline := negb (isOfflineMode s);
     pendingCount := length (pendingSyncItems s);
     isAuthenticated := negb (isOfflineMode s) |}.

(** ** Calls and answers, by kind *)



(** The remote call that the operation guards with a [catch] that
    switches the session offline throws. *)
Definition remoteCallThrows (s : State) (o : Op) : bool :=
  match o with
  | Initialize _ e | Refresh e | AddListener _ e => is_thrown (authProbe e)
  | AddItem item _ _ _ _ e => is_thrown (addItemReply item e s)
  | AddCustomItem _ e => is_thrown (createReply e 0)
  | RemoveItem _ e => is_thrown (deleteReply e 0)
  | ToggleCompletion _ _ e => is_thrown (updateReply e)
  | _ => false
  end.

(** The remote service answered the call of the mutation. *)
Definition answered (s : State) (o : Op) : bool :=
  match o with
  | AddItem item _ _ _ _ e => negb (is_thrown (addItemReply item e s))
  | AddCustomItem _ e => negb (is_thrown (createReply e 0))
  | RemoveItem _ e => negb (is_thrown (deleteReply e 0))
  | ToggleCompletion _ _ e => negb (is_thrown (updateReply e))
  | _ => false
  end.

(** Whether [toggleCompletion] reports the record to the item history:
    the record becomes completed and refers to a catalogue item, not to
    itself as custom records do. *)
Definition tracksReorder (x : ReorderItem) : bool :=
  negb (completed x) && negb (bool_decide (itemId x = ""))
  && negb (bool_decide (itemId x = id x)).

Definition is_history (c : Effect) : bool :=
  match c with
  | HistoryLogReorder _ _ _ _ => true
  | _ => false
  end.

Definition historyCalls (l : list Effect) : list Effect :=
  filter (λ c, is_history c = true) l.

(** The calls of a team-data read. *)
Definition is_team_call (c : Effect) : bool :=
  match c with
  | DbGetTeamData _ | GqlGetItemData _ | DbUpsertTeamData _ => true
  | MonitorBeforeRequest operation => bool_decide (operation = "getItemData")
  | _ => false
  end.

(** ** The snapshot as text *)

(** The strings, the quantity and the flag of a record. *)
Definition plainFields (x : ReorderItem) :=
  (id x, itemId x, itemName x, itemBarcode x, itemCategory x,
   quantity x, completed x, addedBy x, createdAt x, updatedAt x).

(** The fields of a record that its JSON text carries as they are: the
    strings and the flag. *)
Definition textFields (x : ReorderItem) :=
  (id x, itemId x, itemName x, itemBarcode x, itemCategory x,
   completed x, addedBy x, createdAt x, updatedAt x).

(** A number that JSON carries as it is: it is finite and is not [-0]. *)
Definition jsonExact (f : number) : bool :=
  PrimFloat.is_finite f && negb (PrimFloat.Leibniz.eqb f (PrimFloat.opp 0%float)).

(** The snapshot after [saveOfflineItems]: the text of the records just
    listed when the write went through, the old snapshot otherwise. *)
Definition snapshotAfter (e : Env) (listed : list ReorderItem)
    (old : option (list ReorderItem)) : option (list ReorderItem) :=
  match storageSet e 0 with
  | Resolved _ => Some (jsonItem <$> listed)
  | Thrown => old
  end.

(** ** Further relations between states *)

(** [s'] has the session fields of [s]: the listeners, the
    initialisation flag, the user and the mode. *)
Definition sameSession (s s' : State) : Prop :=
  listeners s' = listeners s ∧ isInitialized s' = isInitialized s ∧
  currentUserId s' = currentUserId s ∧ isOfflineMode s' = isOfflineMode s.

(** [s'] has the log of [s] and, before it, team-data calls only. *)
Definition addsTeamCalls (s s' : State) : Prop :=
  ∃ calls, log s' = calls ++ log s ∧ Forall (λ c, is_team_call c = true) calls.



(** ** Subscriptions

    [initialize] also sets up the real-time subscriptions, and [cleanup]
    drops them.  The list of subscriptions is a field of its own, which
    no other method reads; it is kept beside the state, in [Service]. *)

Inductive Channel :=
| OnCreateReorderItem
| OnUpdateReorderItem
| OnDeleteReorderItem
| OnUpdateItemData.

Definition allChannels : list Channel :=
  [OnCreateReorderItem; OnUpdateReorderItem; OnDeleteReorderItem; OnUpdateItemData].

(** A subscription object: its channel, and whether it has an
    [unsubscribe] function. *)
Record Subscription := { channel : Channel; canUnsubscribe : bool }.

(** What [setupSubscriptions] obtains from outside. *)
Record SubscribeEnv := {
  emergencyMode : bool;        (* EXPO_PUBLIC_EMERGENCY_MODE === 'true' *)
  subscribeReply : Channel → Reply (option bool)
    (* client.graphql of the channel, then .subscribe: nothing when the
       result has no [subscribe], else whether the object returned has
       an [unsubscribe] function *)
}.

(** The blocks of [setupSubscriptions], in order; an exception ends the
    method. *)
Fixpoint subscribeEach (env : SubscribeEnv) (channels : list Channel)
    (subs : list Subscription) : list Subscription :=
  match channels with
  | [] => subs
  | ch :: rest =>
      match subscribeReply env ch with
      | Resolved (Some b) =>
          subscribeEach env rest (subs ++ [{| channel := ch; canUnsubscribe := b |}])
      | Resolved None => subscribeEach env rest subs
      | Thrown => subs
      end
  end.

(** [setupSubscriptions]. *)
Definition setupSubscriptions (env : SubscribeEnv) (subs : list Subscription)
  : list Subscription :=
  if emergencyMode env then subs else subscribeEach env allChannels subs.

Record Service := { service : State; subscriptions : list Subscription }.

(** [initialize], with the subscriptions: they are set up after the load
    and before the broadcast, when [checkAuthStatus] returned true. *)
Definition initializeService (userId : option string) (e : Env) (env : SubscribeEnv)
    (svc : Service) : Service :=
  let s := service svc in
  if isInitialized s && sameUser (currentUserId s) userId then svc
  else
    {| service := (initialize userId e s).2;
       subscriptions :=
         if (checkAuthStatus e (set_currentUserId (str_or_undefined userId) s)).1
         then setupSubscriptions env (subscriptions svc)
         else subscriptions svc |}.

(** [cleanup]: the subscriptions on which [unsubscribe] is called, and the
    service with no subscription left. *)
Definition cleanup (svc : Service) : list Subscription * Service :=
  (filter (λ sub, canUnsubscribe sub = true) (subscriptions svc),
   {| service := service svc; subscriptions := [] |}).

(** ** The application store ([useAppStore])

    The zustand store of the same module.  [set] merges a partial state
    into the current one, so every action is a function on [AppState].
    [ScanHistoryItem] is declared elsewhere; the store reads only its
    [id], given here as [scanId]. *)

Inductive SortBy := ByName | ByPrice | ByDate | ByCategory.
Inductive SortOrder := Asc | Desc.

Record Category := {
  cat_id : string;
  cat_name : string;
  cat_description : option string;
  cat_color : string;
  cat_icon : option string;
  cat_isActive : bool;
  cat_parentCategory : option string;
  cat_createdAt : string;
  cat_updatedAt : string
}.

Section AppStore.
Context {ScanHistoryItem : Type} (scanId : ScanHistoryItem → string).

Record AppState := {
  products : list ConvertedItem;
  selectedProduct : option ConvertedItem;
  isProductsLoading : bool;
  productError : option string;
  categories : list Category;
  selectedCategory : option Category;
  isCategoriesLoading : bool;
  categoryError : option string;
  searchQuery : string;
  sortBy : SortBy;
  sortOrder : SortOrder;
  scanHistory : list ScanHistoryItem;
  autoSearchOnEnter : bool;
  autoSearchOnTab : bool;
  itemSaveTriggeredAt : option Z;
  isSquareConnected : bool
}.

(** The state the store is created with. *)
Definition initialAppState : AppState :=
  {| products := []; selectedProduct := None; isProductsLoading := false;
     productError := None; categories := []; selectedCategory := None;
     isCategoriesLoading := false; categoryError := None; searchQuery := "";
     sortBy := ByName; sortOrder := Asc; scanHistory := [];
     autoSearchOnEnter := true; autoSearchOnTab := false;
     itemSaveTriggeredAt := None; isSquareConnected := false |}.

(** [set({ scanHistory })] and the like: one field is replaced. *)
Definition set_scanHistory (h : list ScanHistoryItem) (s : AppState) : AppState :=
  {| products := products s; selectedProduct := selectedProduct s;
     isProductsLoading := isProductsLoading s; productError := productError s;
     categories := categories s; selectedCategory := selectedCategory s;
     isCategoriesLoading := isCategoriesLoading s; categoryError := categoryError s;
     searchQuery := searchQuery s; sortBy := sortBy s; sortOrder := sortOrder s;
     scanHistory := h; autoSearchOnEnter := autoSearchOnEnter s;
     autoSearchOnTab := autoSearchOnTab s;
     itemSaveTriggeredAt := itemSaveTriggeredAt s;
     isSquareConnected := isSquareConnected s |}.

Definition set_autoSearchOnEnter (b : bool) (s : AppState) : AppState :=
  {| products := products s; selectedProduct := selectedProduct s;
     isProductsLoading := isProductsLoading s; productError := productError s;
     categories := categories s; selectedCategory := selectedCategory s;
     isCategoriesLoading := isCategoriesLoading s; categoryError := categoryError s;
     searchQuery := searchQuery s; sortBy := sortBy s; sortOrder := sortOrder s;
     scanHistory := scanHistory s; autoSearchOnEnter := b;
     autoSearchOnTab := autoSearchOnTab s;
     itemSaveTriggeredAt := itemSaveTriggeredAt s;
     isSquareConnected := isSquareConnected s |}.

Definition set_autoSearchOnTab (b : bool) (s : AppState) : AppState :=
  {| products := products s; selectedProduct := selectedProduct s;
     isProductsLoading := isProductsLoading s; productError := productError s;
     categories := categories s; selectedCategory := selectedCategory s;
     isCategoriesLoading := isCategoriesLoading s; categoryError := categoryError s;
     searchQuery := searchQuery s; sortBy := sortBy s; sortOrder := sortOrder s;
     scanHistory := scanHistory s; autoSearchOnEnter := autoSearchOnEnter s;
     autoSearchOnTab := b;
     itemSaveTriggeredAt := itemSaveTriggeredAt s;
     isSquareConnected := isSquareConnected s |}.

Definition set_itemSaveTriggeredAt (t : option Z) (s : AppState) : AppState :=
  {| products := products s; selectedProduct := selectedProduct s;
     isProductsLoading := isProductsLoading s; productError := productError s;
     categories := categories s; selectedCategory := selectedCategory s;
     isCategoriesLoading := isCategoriesLoading s; categoryError := categoryError s;
     searchQuery := searchQuery s; sortBy := sortBy s; sortOrder := sortOrder s;
     scanHistory := scanHistory s; autoSearchOnEnter := autoSearchOnEnter s;
     autoSearchOnTab := autoSearchOnTab s;
     itemSaveTriggeredAt := t;
     isSquareConnected := isSquareConnected s |}.

(** [addScanHistoryItem]: the entry found with the id of [item] is
    spliced out of a copy of the history, [item] is put first, and the
    result is cut to 100 entries. *)
Definition addScanHistoryItem (item : ScanHistoryItem) (state : AppState) : AppState :=
  let existingIndex :=
    list_find (λ histItem, scanId histItem = scanId item) (scanHistory state) in
  let newHistory :=
    match existingIndex with
    | Some (i, _) => delete i (scanHistory state)
    | None => scanHistory state
    end in
  set_scanHistory (take 100 (item :: newHistory)) state.

Definition clearScanHistory (state : AppState) : AppState := set_scanHistory [] state.

Definition toggleAutoSearchOnEnter (state : AppState) : AppState :=
  set_autoSearchOnEnter (negb (autoSearchOnEnter state)) state.

Definition toggleAutoSearchOnTab (state : AppState) : AppState :=
  set_autoSearchOnTab (negb (autoSearchOnTab state)) state.

(** [triggerItemSave]; [now] is the reading of [Date.now()]. *)
Definition triggerItemSave (now : Z) (state : AppState) : AppState :=
  set_itemSaveTriggeredAt (Some now) state.

(** The actions of the store.  The setters that only replace a field
    with their argument carry it. *)
Inductive Action :=
| SetProducts (v : list ConvertedItem)
| SetSelectedProduct (v : option ConvertedItem)
| SetProductsLoading (v : bool)
| SetProductError (v : option string)
| SetCategories (v : list Category)
| SetSelectedCategory (v : option Category)
| SetCategoriesLoading (v : bool)
| SetCategoryError (v : option string)
| SetSearchQuery (v : string)
| SetSortBy (v : SortBy)
| SetSortOrder (v : SortOrder)
| AddScanHistoryItem (item : ScanHistoryItem)
| ClearScanHistory
| ToggleAutoSearchOnEnter
| ToggleAutoSearchOnTab
| TriggerItemSave (now : Z)
| SetSquareConnected (v : bool)
| RefreshProducts
| LoadMoreProducts.

Definition act (s : AppState) (a : Action) : AppState :=
  match a with
  | SetProducts v =>
      {| products := v; selectedProduct := selectedProduct s;
         isProductsLoading := isProductsLoading s; productError := productError s;
         categories := categories s; selectedCategory := selectedCategory s;
         isCategoriesLoading := isCategoriesLoading s; categoryError := categoryError s;
         searchQuery := searchQuery s; sortBy := sortBy s; sortOrder := sortOrder s;
         scanHistory := scanHistory s; autoSearchOnEnter := autoSearchOnEnter s;
         autoSearchOnTab := autoSearchOnTab s;
         itemSaveTriggeredAt := itemSaveTriggeredAt s;
         isSquareConnected := isSquareConnected s |}
  | SetSelectedProduct v =>
      {| products := products s; selectedProduct := v;
         isProductsLoading := isProductsLoading s; productError := productError s;
         categories := categories s; selectedCategory := selectedCategory s;
         isCategoriesLoading := isCategoriesLoading s; categoryError := categoryError s;
         searchQuery := searchQuery s; sortBy := sortBy s; sortOrder := sortOrder s;
         scanHistory := scanHistory s; autoSearchOnEnter := autoSearchOnEnter s;
         autoSearchOnTab := autoSearchOnTab s;
         itemSaveTriggeredAt := itemSaveTriggeredAt s;
         isSquareConnected := isSquareConnected s |}
  | SetProductsLoading v =>
      {| products := products s; selectedProduct := selectedProduct s;
         isProductsLoading := v; productError := productError s;
         categories := categories s; selectedCategory := selectedCategory s;
         isCategoriesLoading := isCategoriesLoading s; categoryError := categoryError s;
         searchQuery := searchQuery s; sortBy := sortBy s; sortOrder := sortOrder s;
         scanHistory := scanHistory s; autoSearchOnEnter := autoSearchOnEnter s;
         autoSearchOnTab := autoSearchOnTab s;
         itemSaveTriggeredAt := itemSaveTriggeredAt s;
         isSquareConnected := isSquareConnected s |}
  | SetProductError v =>
      {| products := products s; selectedProduct := selectedProduct s;
         isProductsLoading := isProductsLoading s; productError := v;
         categories := categories s; selectedCategory := selectedCategory s;
         isCategoriesLoading := isCategoriesLoading s; categoryError := categoryError s;
         searchQuery := searchQuery s; sortBy := sortBy s; sortOrder := sortOrder s;
         scanHistory := scanHistory s; autoSearchOnEnter := autoSearchOnEnter s;
         autoSearchOnTab := autoSearchOnTab s;
         itemSaveTriggeredAt := itemSaveTriggeredAt s;
         isSquareConnected := isSquareConnected s |}
  | SetCategories v =>
      {| products := products s; selectedProduct := selectedProduct s;
         isProductsLoading := isProductsLoading s; productError := productError s;
         categories := v; selectedCategory := selectedCategory s;
         isCategoriesLoading := isCategoriesLoading s; categoryError := categoryError s;
         searchQuery := searchQuery s; sortBy := sortBy s; sortOrder := sortOrder s;
         scanHistory := scanHistory s; autoSearchOnEnter := autoSearchOnEnter s;
         autoSearchOnTab := autoSearchOnTab s;
         itemSaveTriggeredAt := itemSaveTriggeredAt s;
         isSquareConnected := isSquareConnected s |}
  | SetSelectedCategory v =>
      {| products := products s; selectedProduct := selectedProduct s;
         isProductsLoading := isProductsLoading s; productError := productError s;
         categories := categories s; selectedCategory := v;
         isCategoriesLoading := isCategoriesLoading s; categoryError := categoryError s;
         searchQuery := searchQuery s; sortBy := sortBy s; sortOrder := sortOrder s;
         scanHistory := scanHistory s; autoSearchOnEnter := autoSearchOnEnter s;
         autoSearchOnTab := autoSearchOnTab s;
         itemSaveTriggeredAt := itemSaveTriggeredAt s;
         isSquareConnected := isSquareConnected s |}
  | SetCategoriesLoading v =>
      {| products := products s; selectedProduct := selectedProduct s;
         isProductsLoading := isProductsLoading s; productError := productError s;
         categories := categories s; selectedCategory := selectedCategory s;
         isCategoriesLoading := v; categoryError := categoryError s;
         searchQuery := searchQuery s; sortBy := sortBy s; sortOrder := sortOrder s;
         scanHistory := scanHistory s; autoSearchOnEnter := autoSearchOnEnter s;
         autoSearchOnTab := autoSearchOnTab s;
         itemSaveTriggeredAt := itemSaveTriggeredAt s;
         isSquareConnected := isSquareConnected s |}
  | SetCategoryError v =>
      {| products := products s; selectedProduct := selectedProduct s;
         isProductsLoading := isProductsLoading s; productError := productError s;
         categories := categories s; selectedCategory := selectedCategory s;
         isCategoriesLoading := isCategoriesLoading s; categoryError := v;
         searchQuery := searchQuery s; sortBy := sortBy s; sortOrder := sortOrder s;
         scanHistory := scanHistory s; autoSearchOnEnter := autoSearchOnEnter s;
         autoSearchOnTab := autoSearchOnTab s;
         itemSaveTriggeredAt := itemSaveTriggeredAt s;
         isSquareConnected := isSquareConnected s |}
  | SetSearchQuery v =>
      {| products := products s; selectedProduct := selectedProduct s;
         isProductsLoading := isProductsLoading s; productError := productError s;
         categories := categories s; selectedCategory := selectedCategory s;
         isCategoriesLoading := isCategoriesLoading s; categoryError := categoryError s;
         searchQuery := v; sortBy := sortBy s; sortOrder := sortOrder s;
         scanHistory := scanHistory s; autoSearchOnEnter := autoSearchOnEnter s;
         autoSearchOnTab := autoSearchOnTab s;
         itemSaveTriggeredAt := itemSaveTriggeredAt s;
         isSquareConnected := isSquareConnected s |}
  | SetSortBy v =>
      {| products := products s; selectedProduct := selectedProduct s;
         isProductsLoading := isProductsLoading s; productError := productError s;
         categories := categories s; selectedCategory := selectedCategory s;
         isCategoriesLoading := isCategoriesLoading s; categoryError := categoryError s;
         searchQuery := searchQuery s; sortBy := v; sortOrder := sortOrder s;
         scanHistory := scanHistory s; autoSearchOnEnter := autoSearchOnEnter s;
         autoSearchOnTab := autoSearchOnTab s;
         itemSaveTriggeredAt := itemSaveTriggeredAt s;
         isSquareConnected := isSquareConnected s |}
  | SetSortOrder v =>
      {| products := products s; selectedProduct := selectedProduct s;
         isProductsLoading := isProductsLoading s; productError := productError s;
         categories := categories s; selectedCategory := selectedCategory s;
         isCategoriesLoading := isCategoriesLoading s; categoryError := categoryError s;
         searchQuery := searchQuery s; sortBy := sortBy s; sortOrder := v;
         scanHistory := scanHistory s; autoSearchOnEnter := autoSearchOnEnter s;
         autoSearchOnTab := autoSearchOnTab s;
         itemSaveTriggeredAt := itemSaveTriggeredAt s;
         isSquareConnected := isSquareConnected s |}
  | AddScanHistoryItem item => addScanHistoryItem item s
  | ClearScanHistory => clearScanHistory s
  | ToggleAutoSearchOnEnter => toggleAutoSearchOnEnter s
  | ToggleAutoSearchOnTab => toggleAutoSearchOnTab s
  | TriggerItemSave now => triggerItemSave now s
  | SetSquareConnected v =>
      {| products := products s; selectedProduct := selectedProduct s;
         isProductsLoading := isProductsLoading s; productError := productError s;
         categories := categories s; selectedCategory := selectedCategory s;
         isCategoriesLoading := isCategoriesLoading s; categoryError := categoryError s;
         searchQuery := searchQuery s; sortBy := sortBy s; sortOrder := sortOrder s;
         scanHistory := scanHistory s; autoSearchOnEnter := autoSearchOnEnter s;
         autoSearchOnTab := autoSearchOnTab s;
         itemSaveTriggeredAt := itemSaveTriggeredAt s;
         isSquareConnected := v |}
  | RefreshProducts | LoadMoreProducts => s
  end.

Definition actAll (s : AppState) (actions : list Action) : AppState := foldl act s actions.

(** The values of the entries of the state object. *)
Inductive Value :=
| VProducts (v : list ConvertedItem)
| VProduct (v : option ConvertedItem)
| VBool (v : bool)
| VError (v : option string)
| VCategories (v : list Category)
| VCategory (v : option Category)
| VString (v : string)
| VSortBy (v : SortBy)
| VSortOrder (v : SortOrder)
| VHistory (v : list ScanHistoryItem)
| VTime (v : option Z)
| VFunction.

(** [Object.entries(state)]: the data fields and the actions, in the
    order of the object literal that creates the store. *)
Definition entries (s : AppState) : list (string * Value) :=
  [("products", VProducts (products s));
   ("selectedProduct", VProduct (selectedProduct s));
   ("isProductsLoading", VBool (isProductsLoading s));
   ("productError", VError (productError s));
   ("categories", VCategories (categories s));
   ("selectedCategory", VCategory (selectedCategory s));
   ("isCategoriesLoading", VBool (isCategoriesLoading s));
   ("categoryError", VError (categoryError s));
   ("searchQuery", VString (searchQuery s));
   ("sortBy", VSortBy (sortBy s));
   ("sortOrder", VSortOrder (sortOrder s));
   ("scanHistory", VHistory (scanHistory s));
   ("autoSearchOnEnter", VBool (autoSearchOnEnter s));
   ("autoSearchOnTab", VBool (autoSearchOnTab s));
   ("itemSaveTriggeredAt", VTime (itemSaveTriggeredAt s));
   ("isSquareConnected", VBool (isSquareConnected s));
   ("setProducts", VFunction); ("setSelectedProduct", VFunction);
   ("setProductsLoading", VFunction); ("setProductError", VFunction);
   ("setCategories", VFunction); ("setSelectedCategory", VFunction);
   ("setCategoriesLoading", VFunction); ("setCategoryError", VFunction);
   ("setSearchQuery", VFunction); ("setSortBy", VFunction);
   ("setSortOrder", VFunction); ("addScanHistoryItem", VFunction);
   ("clearScanHistory", VFunction); ("toggleAutoSearchOnEnter", VFunction);
   ("toggleAutoSearchOnTab", VFunction); ("triggerItemSave", VFunction);
   ("setSquareConnected", VFunction); ("refreshProducts", VFunction);
   ("loadMoreProducts", VFunction)].

(** [partialize]: the entries that the persistence layer writes. *)
Definition partialize (s : AppState) : list (string * Value) :=
  filter (λ kv, kv.1 ∈ ["scanHistory"; "autoSearchOnEnter"; "autoSearchOnTab"]) (entries s).

(** The actions that write a persisted entry. *)
Definition writesPersisted (a : Action) : bool :=
  match a with
  | AddScanHistoryItem _ | ClearScanHistory | ToggleAutoSearchOnEnter
  | ToggleAutoSearchOnTab => true
  | _ => false
  end.

End AppStore.

Arguments AppState ScanHistoryItem : clear implicits.
Arguments Action ScanHistoryItem : clear implicits.
Arguments Value ScanHistoryItem : clear implicits.

(** ** Sample data for the examples *)

Definition reading (t : Z) : Clock :=
  {| ms := t; iso := "2023-11-14T22:13:20." +:+ pretty (t `mod` 1000)%Z +:+ "Z" |}.

Definition quietFetch : FetchEnv :=
  {| f_now := 1700000000000; f_local := Resolved None; f_monitor := Resolved ();
     f_remote := Resolved None; f_upsert := Resolved (); f_stamp := 1700000000000 |}.

(** The device cannot reach the service: every remote call throws.  The
    clock reads [t] throughout and the random draw renders as [r]. *)
Definition unreachableAt (t : Z) (r : string) : Env :=
  {| clock := λ _, reading t; random := λ _, r;
     authProbe := Thrown; createReply := λ _, Thrown; updateReply := Thrown;
     deleteReply := λ _, Thrown; monitorReply := Thrown; listReply := Thrown;
     dbRows := Resolved []; teamFetch := λ _, quietFetch;
     storageSet := λ _, Resolved (); storageGet := λ _, Resolved ();
     listenerReply := λ _ _, Resolved () |}.

(** The service answers and confirms every mutation. *)
Definition confirmingAt (t : Z) (r : string) : Env :=
  {| clock := λ _, reading t; random := λ _, r;
     authProbe := Resolved (); createReply := λ _, Resolved true;
     updateReply := Resolved true; deleteReply := λ _, Resolved true;
     monitorReply := Resolved (); listReply := Resolved (Some []);
     dbRows := Resolved []; teamFetch := λ _, quietFetch;
     storageSet := λ _, Resolved (); storageGet := λ _, Resolved ();
     listenerReply := λ _ _, Resolved () |}.

(** The service answers every mutation without data. *)
Definition decliningAt (t : Z) (r : string) : Env :=
  {| clock := λ _, reading t; random := λ _, r;
     authProbe := Resolved (); createReply := λ _, Resolved false;
     updateReply := Resolved false; deleteReply := λ _, Resolved false;
     monitorReply := Resolved (); listReply := Resolved (Some []);
     dbRows := Resolved []; teamFetch := λ _, quietFetch;
     storageSet := λ _, Resolved (); storageGet := λ _, Resolved ();
     listenerReply := λ _ _, Resolved () |}.

Definition widget : ConvertedItem :=
  {| c_id := "ITEM-1"; c_name := Some "Widget"; c_barcode := Some "0123456789012";
     c_category := Some "Hardware"; c_price := Some 2.5%float |}.

Definition tape : CustomItem :=
  {| cu_itemName := "Tape"; cu_itemCategory := None; cu_quantity := 1;
     cu_addedBy := "ann"; cu_vendor := Some "Acme"; cu_notes := None |}.

(** A record as the remote service announces it. *)
Definition announced (key source : string) (q : number) : ReorderItem :=
  {| id := key; itemId := source; itemName := "Widget"; itemBarcode := None;
     itemCategory := None; itemPrice := None; quantity := Some q; completed := false;
     addedBy := "bob"; createdAt := "2023-11-14T22:00:00.000Z";
     updatedAt := "2023-11-14T22:00:00.000Z"; teamData := None; timestamp := None;
     index := None |}.

(** Team data of the local store, and readings of the cache around it. *)
Definition acmeRow : TeamRow :=
  {| t_vendor := Some "Acme"; t_caseUpc := None; t_caseCost := Some 12%float;
     t_caseQuantity := Some 6%float; t_discontinued := Some false; t_notes := None |}.

(** The local store has the row; the clock reads [t]. *)
Definition fetchLocalAt (t : Z) : FetchEnv :=
  {| f_now := t; f_local := Resolved (Some acmeRow); f_monitor := Resolved ();
     f_remote := Resolved None; f_upsert := Resolved (); f_stamp := t |}.

(** The local store has no row and the remote service has none either. *)
Definition fetchMissingAt (t : Z) : FetchEnv :=
  {| f_now := t; f_local := Resolved None; f_monitor := Resolved ();
     f_remote := Resolved None; f_upsert := Resolved (); f_stamp := t |}.

(** A row of the local table. *)
Definition shelfRow : Row :=
  {| row_id := "r-7"; row_item_id := "ITEM-7"; row_item_name := "Shelf";
     row_item_barcode := None; row_item_category := Some "Fixtures";
     row_item_price := Some 40%float; row_quantity := Some 1%float; row_completed := 0;
     row_added_by := "bob"; row_created_at := "2023-11-14T21:00:00.000Z";
     row_updated_at := "2023-11-14T21:30:00.000Z" |}.

(** The service answers; the local table holds [rows] and the remote list
    holds [items]. *)
Definition answeringWith (rows : list Row) (items : list ReorderItem) : Env :=
  {| clock := λ _, reading 1700000000000; random := λ _, "k3x9q2m1z";
     authProbe := Resolved (); createReply := λ _, Resolved true;
     updateReply := Resolved true; deleteReply := λ _, Resolved true;
     monitorReply := Resolved (); listReply := Resolved (Some items);
     dbRows := Resolved rows; teamFetch := λ _, quietFetch;
     storageSet := λ _, Resolved (); storageGet := λ _, Resolved ();
     listenerReply := λ _ _, Resolved () |}.

(** The service answers the first delete request and no other. *)
Definition deletingOnce : Env :=
  {| clock := λ _, reading 1700000000000; random := λ _, "k3x9q2m1z";
     authProbe := Resolved (); createReply := λ _, Resolved true;
     updateReply := Resolved true;
     deleteReply := λ k, if decide (k = 0) then Resolved true else Thrown;
     monitorReply := Resolved (); listReply := Resolved (Some []);
     dbRows := Resolved []; teamFetch := λ _, quietFetch;
     storageSet := λ _, Resolved (); storageGet := λ _, Resolved ();
     listenerReply := λ _ _, Resolved () |}.

(** Team data as an [onUpdateItemData] event carries it. *)
Definition acmeData : ItemData :=
  {| d_id := "ITEM-1"; d_vendor := Some "Acme"; d_caseUpc := None;
     d_caseCost := Some 12%float; d_caseQuantity := Some 6%float;
     d_discontinued := Some false; d_notes := ["fragile"] |}.

(** The environment [e] with a listener [l] that throws at every call. *)
Definition throwing (l : nat) (e : Env) : Env :=
  {| clock := clock e; random := random e;
     authProbe := authProbe e; createReply := createReply e;
     updateReply := updateReply e; deleteReply := deleteReply e;
     monitorReply := monitorReply e; listReply := listReply e;
     dbRows := dbRows e; teamFetch := teamFetch e;
     storageSet := storageSet e; storageGet := storageGet e;
     listenerReply := λ l' k, if decide (l' = l) then Thrown else listenerReply e l' k |}.

(** The device cannot reach the service.  The clock advances by one
    millisecond at each reading, from [t], and the random draws differ. *)
Definition tickingAt (t : Z) : Env :=
  {| clock := λ k, reading (t + Z.of_nat k); random := λ k, "r" +:+ pretty k;
     authProbe := Thrown; createReply := λ _, Thrown; updateReply := Thrown;
     deleteReply := λ _, Thrown; monitorReply := Thrown; listReply := Thrown;
     dbRows := Resolved []; teamFetch := λ _, quietFetch;
     storageSet := λ _, Resolved (); storageGet := λ _, Resolved ();
     listenerReply := λ _ _, Resolved () |}.

(** Every channel can be subscribed to, and left again. *)
Definition subscribing : SubscribeEnv :=
  {| emergencyMode := false; subscribeReply := λ _, Resolved (Some true) |}.

(** ** Tactics *)

(** Closes the description of the calls made after a cache miss, once the
    list of calls is given. *)
Ltac close_calls :=
  split; [reflexivity |];
  split; [let Hin := fresh in
          intros Hin;
          repeat (apply elem_of_cons in Hin as [Hin|Hin]; [discriminate Hin |]);
          by apply elem_of_nil in Hin |];
  split; [repeat (apply Forall_cons; split;
                  [first [by intros [=] | by intros _] |]);
          apply Forall_nil_2 |];
  split; [vm_compute; lia |];
  split; [first [done | by vm_compute; intros [=]] |];
  split; [first [by intros [=] | by intros _ [? [=]] | by intros _ _] |];
  let row := fresh in intros row; first [by intros [= <-] | by intros [=]].


(** * Properties *)

(** ** The object store *)

Lemma deref_app_old (h xs : Heap) r : r < length h → deref (h ++ xs) r = deref h r.
Proof. intros Hr. unfold deref. by rewrite lookup_total_app_l. Qed.

Lemma deref_alloc_new (h : Heap) x : deref (h ++ [x]) (length h) = x.
Proof. unfold deref. rewrite lookup_total_app_r by lia. by rewrite Nat.sub_diag. Qed.

Lemma deref_assign_same f r (h : Heap) :
  r < length h → deref (assign f r h) r = f (deref h r).
Proof. intros Hr. unfold deref, assign. by rewrite list_lookup_total_alter_eq. Qed.

Lemma deref_assign_other f r r' (h : Heap) :
  r ≠ r' → deref (assign f r h) r' = deref h r'.
Proof. intros Hr. unfold deref, assign. by rewrite list_lookup_total_alter_ne. Qed.

Lemma length_assign f r (h : Heap) : length (assign f r h) = length h.
Proof. apply length_alter. Qed.

(** A projection that the assigned function leaves alone is left alone in
    the whole store. *)
Lemma deref_assign_proj {B} (p : ReorderItem → B) f r r' (h : Heap) :
  (∀ x, p (f x) = p x) → p (deref (assign f r h) r') = p (deref h r').
Proof.
  intros Hp. destruct (decide (r = r')) as [<-|Hne].
  - destruct (decide (r < length h)) as [Hlt|Hge].
    + by rewrite deref_assign_same, Hp.
    + unfold assign, deref. rewrite !list_lookup_total_alt.
      rewrite list_lookup_alter_eq. rewrite lookup_ge_None_2 by lia. done.
  - by rewrite deref_assign_other.
Qed.

Lemma extends_refl h : extends h h.
Proof. split; [lia | done]. Qed.

Lemma extends_trans h1 h2 h3 : extends h1 h2 → extends h2 h3 → extends h1 h3.
Proof.
  intros [L1 E1] [L2 E2]. split; [lia |].
  intros r Hr. destruct (E1 r Hr) as [<- <-]. apply E2. lia.
Qed.

Lemma extends_app h xs : extends h (h ++ xs).
Proof.
  split; [rewrite length_app; lia |].
  intros r Hr. by rewrite deref_app_old.
Qed.

Lemma extends_assign f r h :
  (∀ x, id (f x) = id x) → (∀ x, itemId (f x) = itemId x) → extends h (assign f r h).
Proof.
  intros Hid Hit. split; [by rewrite length_assign |].
  intros r' _. split; by apply deref_assign_proj.
Qed.

Lemma ids_extends h h' l :
  extends h h' → Forall (λ r, r < length h) l → ids h' l = ids h l.
Proof.
  intros [_ E] Hl. unfold ids, records. rewrite <- !list_fmap_compose.
  apply Forall_fmap_ext_1. eapply Forall_impl; [exact Hl |].
  intros r Hr. simpl. by destruct (E r Hr).
Qed.

Lemma ids_app h l1 l2 : ids h (l1 ++ l2) = ids h l1 ++ ids h l2.
Proof. unfold ids, records. by rewrite !fmap_app. Qed.

Lemma ids_seq (h xs : Heap) : ids (h ++ xs) (seq (length h) (length xs)) = id <$> xs.
Proof.
  unfold ids, records. f_equal.
  apply list_eq. intros i. rewrite list_lookup_fmap.
  destruct (decide (i < length xs)) as [Hi|Hi].
  - rewrite lookup_seq_lt by done. simpl. unfold deref.
    rewrite lookup_total_app_r by lia.
    replace (length h + i - length h) with i by lia.
    by rewrite list_lookup_lookup_total_lt.
  - rewrite lookup_seq_ge by lia. simpl. by rewrite lookup_ge_None_2 by lia.
Qed.

Lemma elem_of_ids h l x : x ∈ ids h l ↔ ∃ r, r ∈ l ∧ id (deref h r) = x.
Proof.
  unfold ids, records. rewrite <- list_fmap_compose, list_elem_of_fmap.
  split; intros (r & H1 & H2); exists r; simpl in *; done.
Qed.

(** ** What the helpers leave alone *)

Lemma set_reorderItems_same s : set_reorderItems (reorderItems s) s = s.
Proof. by destruct s. Qed.

(** A broadcast calls the listeners up to the first one that throws, each
    with the array of the collection, and changes nothing else. *)
Lemma forEachListener_eq ls e s :
  forEachListener ls e s =
  (if allReturn e (length (broadcasts s)) ls then Resolved () else Thrown,
   set_broadcasts
     (broadcasts s ++
      ((λ l, (l, reorderItems s)) <$> calledFrom e (length (broadcasts s)) ls)) s).
Proof.
  revert s. induction ls as [|l ls IH]; intros s; simpl.
  - rewrite app_nil_r. by destruct s.
  - unfold andThen, callListener. simpl.
    destruct (listenerReply e l (length (broadcasts s))) as [u|] eqn:Hr; [| done].
    rewrite IH. simpl. rewrite length_app. simpl. rewrite Nat.add_1_r.
    f_equal. unfold set_broadcasts. simpl. by rewrite <- app_assoc.
Qed.

Lemma notifyListeners_eq e s :
  notifyListeners e s =
  (if broadcastThrows e s then Thrown else Resolved (),
   set_broadcasts (broadcasts s ++ ((λ l, (l, reorderItems s)) <$> called e s)) s).
Proof.
  unfold notifyListeners, broadcastThrows, called. rewrite forEachListener_eq.
  by destruct (allReturn _ _ _).
Qed.


Lemma allReturn_calledFrom e k ls : allReturn e k ls = true → calledFrom e k ls = ls.
Proof.
  revert k. induction ls as [|l ls IH]; intros k; simpl; [done |].
  destruct (listenerReply e l k); [| done]. intros H. f_equal. by apply IH.
Qed.

Lemma quiet_allReturn e k ls : quiet e → allReturn e k ls = true.
Proof.
  intros Hq. revert k. induction ls as [|l ls IH]; intros k; simpl; [done |].
  rewrite Hq. apply IH.
Qed.

(** When no listener throws, a broadcast returns after it called every
    listener. *)
Lemma quiet_broadcast e s :
  quiet e → broadcastThrows e s = false ∧ called e s = listeners s.
Proof.
  intros Hq. unfold broadcastThrows, called.
  pose proof (quiet_allReturn e (length (broadcasts s)) (listeners s) Hq) as H.
  rewrite H. split; [done |]. by apply allReturn_calledFrom.
Qed.

Lemma returned_broadcast e s : broadcastThrows e s = false → called e s = listeners s.
Proof.
  unfold broadcastThrows, called. intros H. apply allReturn_calledFrom.
  by apply negb_false_iff.
Qed.

Lemma quiet_later c r w g e : quiet e → quiet (later c r w g e).
Proof. intros Hq l k. apply Hq. Qed.

Lemma called_later c r w g e s : called (later c r w g e) s = called e s.
Proof.
  unfold called. generalize (length (broadcasts s)).
  induction (listeners s) as [|l ls IH]; intros k; simpl; [done |].
  by rewrite IH.
Qed.

Lemma broadcastThrows_later c r w g e s :
  broadcastThrows (later c r w g e) s = broadcastThrows e s.
Proof.
  unfold broadcastThrows. f_equal. generalize (length (broadcasts s)).
  induction (listeners s) as [|l ls IH]; intros k; simpl; [done |].
  by rewrite IH.
Qed.

Lemma saveOfflineItems_eq e s :
  saveOfflineItems e s =
  match storageSet e 0 with
  | Resolved _ => set_storage (Some (jsonItem <$> records (heap s) (reorderItems s))) s
  | Thrown => s
  end.
Proof. done. Qed.

Lemma sameButLog_refl s : sameButLog s s.
Proof. by repeat split. Qed.

Lemma sameButLog_emit s s' x : sameButLog s s' → sameButLog s (emit x s').
Proof. intros H. exact H. Qed.

(** ** [clear] *)

Lemma clearLoop_sameButLog e l k s : sameButLog s (clearLoop e k l s).
Proof.
  revert k s. induction l as [|r l IH]; intros k s; simpl.
  - apply sameButLog_refl.
  - destruct (deleteReply e k).
    + destruct (IH (S k) (emit (GqlDeleteReorderItem (id (deref (heap s) r))) s))
        as (?&?&?&?&?&?&?&?&?&?).
      repeat split; simpl in *; congruence.
    + apply sameButLog_emit, sameButLog_refl.
Qed.

(** The log of [clearLoop] gains delete requests only. *)
Lemma clearLoop_log e l k s :
  ∃ calls, log (clearLoop e k l s) = calls ++ log s ∧
           Forall (λ c, ∃ target, c = GqlDeleteReorderItem target) calls.
Proof.
  revert k s. induction l as [|r l IH]; intros k s; simpl.
  - by exists [].
  - destruct (deleteReply e k).
    + destruct (IH (S k) (emit (GqlDeleteReorderItem (id (deref (heap s) r))) s))
        as (calls & Hlog & Hall).
      exists (calls ++ [GqlDeleteReorderItem (id (deref (heap s) r))]). split.
      * rewrite Hlog. simpl. by rewrite <- app_assoc.
      * apply Forall_app. split; [done |]. apply Forall_singleton. eauto.
    + exists [GqlDeleteReorderItem (id (deref (heap s) r))]. split; [done |].
      apply Forall_singleton. eauto.
Qed.

(** C10.  [clear] only sends delete requests: whatever the remote service
    answers, the object store, the collection, the pending queue, the
    offline snapshot, the listener log and every other field of the
    service are as before, so [getItems] shows the same records with the
    same fields. *)
Theorem clear_leaves_local_state e s :
  sameButLog s (clear e s) ∧
  records (heap (clear e s)) (getItems (clear e s)) = records (heap s) (getItems s) ∧
  ∃ calls, log (clear e s) = calls ++ log s ∧
           Forall (λ c, ∃ target, c = GqlDeleteReorderItem target) calls.
Proof.
  pose proof (clearLoop_sameButLog e (reorderItems s) 0 s) as Hsame.
  split; [exact Hsame |]. split.
  - destruct Hsame as (Hh & Hr & _). unfold getItems, clear. by rewrite Hh, Hr.
  - apply clearLoop_log.
Qed.

(** ** A deleted event for an absent id *)

(** C9.  A remote deleted event for an id that no record of the collection
    carries changes nothing: the state after the handler is the state
    before it, display indices and listener log included. *)
Theorem deleted_event_for_absent_id_is_noop (deletedItem : ReorderItem) (e : Env)
    (s : State) :
  id deletedItem ∉ ids (heap s) (reorderItems s) →
  handleReorderItemDeleted deletedItem e s = (Resolved (), s).
Proof.
  intros Habsent. unfold handleReorderItemDeleted.
  assert (filter (λ r, id (deref (heap s) r) ≠ id deletedItem) (reorderItems s)
          = reorderItems s) as Hfilter.
  { induction (reorderItems s) as [|r l IH]; [done |].
    rewrite filter_cons_True.
    - f_equal. apply IH. intros Hin. apply Habsent.
      unfold ids, records in *. rewrite !fmap_cons. by apply list_elem_of_further.
    - intros Heq. apply Habsent. unfold ids, records. rewrite !fmap_cons.
      rewrite Heq. apply list_elem_of_here. }
  rewrite Hfilter. simpl. rewrite decide_False by lia.
  by rewrite set_reorderItems_same.
Qed.

(** A deleted event for an id that the collection does not hold. *)
Lemma deleted_event_for_absent_id_is_noop_witness :
  let e := confirmingAt 1700000000000 "k3x9q2m1z" in
  let s := runAll (initial None)
             [AddListener 7 e; RemoteCreated (announced "r-1" "ITEM-1" 2) e] in
  let gone := announced "r-404" "ITEM-9" 1 in
  (id gone ∉ ids (heap s) (reorderItems s)) ∧
  handleReorderItemDeleted gone e s = (Resolved (), s).
Proof.
  intros e s gone.
  assert (id gone ∉ ids (heap s) (reorderItems s)) as Habsent.
  { apply (bool_decide_unpack _). vm_compute. exact I. }
  split; [exact Habsent |]. exact (deleted_event_for_absent_id_is_noop gone e s Habsent).
Defined.

(** ** The team-data cache *)

(** C6.  A read of the team data of [target]:
    - when the cache holds an entry stamped less than five minutes before
      the reading of the clock, the cached data is returned and the state
      (the log of outgoing calls included) is untouched: no local read and
      no remote call;
    - otherwise the local store is read exactly once, first; when it has
      a row, the row is returned and no remote call is made; a remote call
      is made at most once, it is the [getItemData] query, and it is made
      only when the local store answered that it has no row; in that case
      it is made exactly once as soon as the request monitor lets the
      request pass. *)
Theorem fetchTeamData_cache_policy (fe : FetchEnv) (target : string) (s : State) :
  let result := (fetchTeamData fe target s).1 in
  let s' := (fetchTeamData fe target s).2 in
  (∀ data stamped,
      teamDataCache s !! target = Some (data, stamped) →
      (f_now fe - stamped < 5 * 60 * 1000)%Z →
      result = Some data ∧ s' = s) ∧
  ((teamDataCache s !! target = None ∨
    ∃ data stamped, teamDataCache s !! target = Some (data, stamped) ∧
                    (5 * 60 * 1000 ≤ f_now fe - stamped)%Z) →
   ∃ calls,
     log s' = calls ++ DbGetTeamData target :: log s ∧
     (DbGetTeamData target ∉ calls) ∧
     Forall (λ c, is_remote c = true → c = GqlGetItemData target) calls ∧
     remote_calls calls ≤ 1 ∧
     (remote_calls calls = 1 → f_local fe = Resolved None) ∧
     (f_local fe = Resolved None → (∃ u, f_monitor fe = Resolved u) →
      remote_calls calls = 1) ∧
     (∀ row, f_local fe = Resolved (Some row) →
             result = Some (teamDataOfRow row) ∧ calls = [])).
Proof.
  intros result s'. subst result s'. split.
  - intros data stamped Hhit Hfresh. unfold fetchTeamData. rewrite Hhit.
    unfold CACHE_DURATION. by rewrite decide_True.
  - intros Hmiss.
    assert (fetchTeamData fe target s = fetchTeamDataLocal fe target s) as ->.
    { unfold fetchTeamData.
      destruct Hmiss as [-> | (data & stamped & -> & Hstale)]; [done |].
      unfold CACHE_DURATION. rewrite decide_False; [done | lia]. }
    unfold fetchTeamDataLocal, recoverTeamDataFromDynamoDB.
    destruct (f_local fe) as [[row|]|]; simpl.
    + exists []. close_calls.
    + destruct (f_monitor fe) as [u|]; simpl;
        [destruct (f_remote fe) as [[d|]|]; simpl;
           [destruct (f_upsert fe); simpl | |] |].
      * exists [DbUpsertTeamData target; GqlGetItemData target;
                MonitorBeforeRequest "getItemData"]. close_calls.
      * exists [DbUpsertTeamData target; GqlGetItemData target;
                MonitorBeforeRequest "getItemData"]. close_calls.
      * exists [GqlGetItemData target; MonitorBeforeRequest "getItemData"].
        close_calls.
      * exists [GqlGetItemData target; MonitorBeforeRequest "getItemData"].
        close_calls.
      * exists [MonitorBeforeRequest "getItemData"]. close_calls.
    + exists []. close_calls.
Qed.

(** A cache entry stamped at [t]: a read at [t + 299999] is served from the
    cache; a read at [t + 300000], with nothing in the local store, makes
    one remote call. *)
Lemma fetchTeamData_cache_policy_witness :
  let s := (fetchTeamData (fetchLocalAt 1700000000000) "ITEM-1" (initial None)).2 in
  let within := fetchMissingAt (1700000000000 + 299999) in
  let past := fetchMissingAt (1700000000000 + 300000) in
  teamDataCache s !! "ITEM-1" = Some (teamDataOfRow acmeRow, 1700000000000%Z) ∧
  ((fetchTeamData within "ITEM-1" s).1 = Some (teamDataOfRow acmeRow) ∧
   (fetchTeamData within "ITEM-1" s).2 = s) ∧
  ∃ calls, log (fetchTeamData past "ITEM-1" s).2 = calls ++ DbGetTeamData "ITEM-1" :: log s ∧
           remote_calls calls = 1.
Proof.
  intros s within past.
  assert (teamDataCache s !! "ITEM-1" = Some (teamDataOfRow acmeRow, 1700000000000%Z))
    as Hcached by (vm_compute; reflexivity).
  split; [exact Hcached |]. split.
  - destruct (fetchTeamData_cache_policy within "ITEM-1" s) as [Hhit _].
    apply (Hhit _ _ Hcached). vm_compute. reflexivity.
  - destruct (fetchTeamData_cache_policy past "ITEM-1" s) as [_ Hmiss].
    destruct Hmiss as (calls & Hlog & _ & _ & _ & _ & Hone & _).
    { right. exists (teamDataOfRow acmeRow), 1700000000000%Z.
      split; [exact Hcached |]. vm_compute. discriminate. }
    exists calls. split; [exact Hlog |]. apply Hone; [reflexivity | by exists ()].
Defined.


(** ** In-place helpers *)

Lemma keeps_refl s : keeps s s.
Proof. split; [apply extends_refl | done]. Qed.

Lemma keeps_trans s1 s2 s3 : keeps s1 s2 → keeps s2 s3 → keeps s1 s3.
Proof.
  intros (E1 & L1 & R1 & P1 & S1) (E2 & L2 & R2 & P2 & S2).
  split; [by eapply extends_trans |]. repeat split; congruence.
Qed.

Lemma keeps_emit s x : keeps s (emit x s).
Proof. exact (keeps_refl s). Qed.

Lemma keeps_notifyListeners e s : keeps s (notifyListeners e s).2.
Proof. rewrite notifyListeners_eq. exact (keeps_refl s). Qed.

Lemma keeps_assign f r s :
  (∀ x, id (f x) = id x) → (∀ x, itemId (f x) = itemId x) →
  keeps s (set_heap (assign f r (heap s)) s).
Proof.
  intros Hid Hit. split; [by apply extends_assign |].
  simpl. by rewrite length_assign.
Qed.

Lemma keeps_fetchTeamData fe target s : keeps s (fetchTeamData fe target s).2.
Proof.
  unfold fetchTeamData, fetchTeamDataLocal, recoverTeamDataFromDynamoDB.
  repeat (case_match; simpl; try exact (keeps_refl s)).
Qed.

Lemma keeps_loadTeamDataFrom e l k s : keeps s (loadTeamDataFrom e k l s).
Proof.
  revert k s. induction l as [|r l IH]; intros k s; simpl; [apply keeps_refl |].
  destruct (fetchTeamData (teamFetch e k) (itemId (deref (heap s) r)) s) as [t s1] eqn:Hf.
  pose proof (keeps_fetchTeamData (teamFetch e k) (itemId (deref (heap s) r)) s) as K1.
  rewrite Hf in K1. simpl in K1.
  eapply keeps_trans; [exact K1 |]. eapply keeps_trans; [| apply IH].
  destruct t; [by apply keeps_assign | apply keeps_refl].
Qed.

Lemma reindexFrom_extends l k h :
  extends h (reindexFrom k l h) ∧ length (reindexFrom k l h) = length h.
Proof.
  revert k h. induction l as [|r l IH]; intros k h; simpl; [split; [apply extends_refl | done] |].
  destruct (IH (S k) (assign (with_index (Some (k + 1))) r h)) as [E L].
  split.
  - eapply extends_trans; [| exact E]. by apply extends_assign.
  - by rewrite L, length_assign.
Qed.

Lemma attachTeamData_extends target t l h :
  extends h (attachTeamData target t l h).2 ∧
  length (attachTeamData target t l h).2 = length h.
Proof.
  revert h. induction l as [|r l IH]; intros h; simpl; [split; [apply extends_refl | done] |].
  case_decide; simpl; [| apply IH].
  destruct (IH (assign (with_teamData (Some t)) r h)) as [E L]. split.
  - eapply extends_trans; [| exact E]. by apply extends_assign.
  - by rewrite L, length_assign.
Qed.

Lemma syncLoop_sameButLog e l k synced s : sameButLog s (syncLoop e k l synced s).2.
Proof.
  revert k synced s. induction l as [|r l IH]; intros k synced s; simpl.
  - apply sameButLog_refl.
  - destruct (createReply e k) as [[|]|];
      match goal with |- sameButLog _ (syncLoop _ _ _ ?sy ?s1).2 =>
        destruct (IH (S k) sy s1) as (?&?&?&?&?&?&?&?&?&?) end;
      repeat split; simpl in *; congruence.
Qed.

(** ** Validity of references *)

Lemma wf_keeps s s' : keeps s s' → wf s → wf s'.
Proof.
  intros (_ & L & R & P & _) (W1 & W2 & W3). unfold wf. rewrite L, R, P. done.
Qed.

Lemma wf_alloc_all xs s :
  wf s →
  wf (set_reorderItems (seq (length (heap s)) (length xs)) (set_heap (heap s ++ xs) s)).
Proof.
  intros (W1 & W2 & W3). unfold wf. simpl. rewrite length_app. repeat split.
  - apply Forall_forall. intros r Hr. apply elem_of_seq in Hr. lia.
  - eapply Forall_impl; [exact W2 |]. simpl. intros. lia.
  - apply NoDup_seq.
Qed.

(** ** Identifiers under in-place helpers *)

Lemma itemIds_keeps s s' : keeps s s' → wf s → itemIds s' = itemIds s.
Proof.
  intros (E & _ & R & _) (W1 & _). unfold itemIds. rewrite R. by apply ids_extends.
Qed.

Lemma pendingIds_keeps s s' : keeps s s' → wf s → pendingIds s' = pendingIds s.
Proof.
  intros (E & _ & _ & P & _) (_ & W2 & _). unfold pendingIds. rewrite P.
  by apply ids_extends.
Qed.

Lemma summary_keeps s o s' : keeps s s' → wf s → summary s o s'.
Proof.
  intros K W. split; [by eapply wf_keeps |]. split; [| split].
  - left. by rewrite (itemIds_keeps s s').
  - left. by rewrite (pendingIds_keeps s s').
  - left. by destruct K as (_ & _ & _ & _ & ?).
Qed.

Lemma ids_sublist h l l' : l' `sublist_of` l → ids h l' `sublist_of` ids h l.
Proof. intros H. unfold ids, records. by do 2 apply fmap_sublist. Qed.

Lemma Forall_sublist_valid (n : nat) (l l' : list ref) :
  l' `sublist_of` l → Forall (λ r, r < n) l → Forall (λ r, r < n) l'.
Proof.
  intros Hs Hl. apply Forall_forall. intros r Hr.
  rewrite Forall_forall in Hl. apply Hl. by eapply elem_of_sublist.
Qed.

Lemma sameButLog_keeps s s' : sameButLog s s' → keeps s s'.
Proof.
  intros (H & R & _ & _ & _ & _ & _ & P & S & _).
  unfold keeps. rewrite H, R, P, S. split; [apply extends_refl | done].
Qed.

Lemma ids_imap_stamp (items : list ReorderItem) : id <$> imap stamp items = id <$> items.
Proof.
  apply list_eq. intros i. rewrite !list_lookup_fmap, list_lookup_imap.
  by destruct (items !! i).
Qed.

Lemma NoDup_insert_fresh (l : list ref) i x : NoDup l → x ∉ l → NoDup (<[i:=x]> l).
Proof.
  intros Hl Hx. destruct (decide (i < length l)) as [Hi|Hi].
  - rewrite insert_take_drop by done.
    assert (drop (S i) l `sublist_of` drop i l) as Hsub.
    { replace (S i) with (i + 1) by lia. rewrite <- drop_drop. apply sublist_drop. }
    rewrite <- (take_drop i l) in Hl, Hx.
    apply NoDup_app in Hl as (H1 & H2 & H3).
    rewrite elem_of_app in Hx.
    apply NoDup_app. split; [done |]. split.
    + intros y Hy Hin. apply elem_of_cons in Hin as [->|Hin]; [tauto |].
      apply (H2 y Hy). by eapply elem_of_sublist.
    + apply NoDup_cons. split.
      * intros Hin. apply Hx. right. by eapply elem_of_sublist.
      * by eapply sublist_NoDup.
  - by rewrite list_insert_ge by lia.
Qed.


(** ** Summaries of the local blocks *)

Lemma ids_snoc h l r : ids h (l ++ [r]) = ids h l ++ [id (deref h r)].
Proof. by rewrite ids_app. Qed.

Lemma ids_insert h l i r : ids h (<[i:=r]> l) = <[i:=id (deref h r)]> (ids h l).
Proof. unfold ids, records. by rewrite !list_fmap_insert. Qed.

Lemma ids_lookup h l i r : l !! i = Some r → ids h l !! i = Some (id (deref h r)).
Proof. intros H. unfold ids, records. by rewrite !list_lookup_fmap, H. Qed.

Lemma ids_jsonItem (l : list ReorderItem) : id <$> (jsonItem <$> l) = id <$> l.
Proof. rewrite <- list_fmap_compose. by apply list_fmap_ext. Qed.

Lemma Forall_valid_grow (n m : nat) (l : list ref) :
  n ≤ m → Forall (λ r, r < n) l → Forall (λ r, r < m) l.
Proof. intros Hnm Hl. eapply Forall_impl; [exact Hl |]. simpl. intros. lia. Qed.

(** The predicate of a search may be replaced by one that agrees with it
    on the elements of the list. *)
Lemma list_find_agree {A} (P Q : A → Prop) `{∀ x, Decision (P x)} `{∀ x, Decision (Q x)}
    (l : list A) :
  (∀ x, x ∈ l → P x ↔ Q x) → list_find P l = list_find Q l.
Proof.
  induction l as [|x l IH]; intros Hagree; [done |]. simpl.
  destruct (decide (P x)) as [HP|HP]; destruct (decide (Q x)) as [HQ|HQ]; try done.
  - exfalso. apply HQ. apply Hagree; [apply list_elem_of_here | done].
  - exfalso. apply HP. apply Hagree; [apply list_elem_of_here | done].
  - rewrite IH; [done |]. intros y Hy. apply Hagree. by apply list_elem_of_further.
Qed.

Lemma filter_agree {A} (P Q : A → Prop) `{∀ x, Decision (P x)} `{∀ x, Decision (Q x)}
    (l : list A) :
  (∀ x, x ∈ l → P x ↔ Q x) → filter P l = filter Q l.
Proof.
  induction l as [|x l IH]; intros Hagree; [done |].
  assert (filter P l = filter Q l) as Hrest.
  { apply IH. intros y Hy. apply Hagree. by apply list_elem_of_further. }
  destruct (decide (P x)) as [HP|HP].
  - rewrite !filter_cons_True; [by rewrite Hrest | | done].
    apply Hagree; [apply list_elem_of_here | done].
  - rewrite !filter_cons_False; [done | | done].
    intros HQ. apply HP. apply Hagree; [apply list_elem_of_here | done].
Qed.

(** A search by [id] or by [itemId] gives the same result in a store
    that extends the one it ran on. *)
Lemma list_find_id_extends h h' (l : list ref) x :
  extends h h' → Forall (λ r, r < length h) l →
  list_find (λ r, id (deref h' r) = x) l = list_find (λ r, id (deref h r) = x) l.
Proof.
  intros [_ E] Hl. apply list_find_agree. intros r Hr.
  rewrite Forall_forall in Hl. destruct (E r (Hl r Hr)) as [-> _]. done.
Qed.

Lemma list_find_itemId_extends h h' (l : list ref) x :
  extends h h' → Forall (λ r, r < length h) l →
  list_find (λ r, itemId (deref h' r) = x) l = list_find (λ r, itemId (deref h r) = x) l.
Proof.
  intros [_ E] Hl. apply list_find_agree. intros r Hr.
  rewrite Forall_forall in Hl. destruct (E r (Hl r Hr)) as [_ ->]. done.
Qed.

Lemma list_find_valid (P : ref → Prop) `{∀ r, Decision (P r)} (l : list ref) n i r :
  Forall (λ r, r < n) l → list_find P l = Some (i, r) → r < n ∧ r ∈ l ∧ l !! i = Some r ∧ P r.
Proof.
  intros Hl Hfind. apply list_find_Some in Hfind as (Hr & HP & _).
  assert (r ∈ l) as Hin by by eapply list_elem_of_lookup_2.
  rewrite Forall_forall in Hl. auto.
Qed.

Lemma elem_of_ids_find h (l : list ref) x :
  x ∈ ids h l ↔ ∃ i r, list_find (λ r, id (deref h r) = x) l = Some (i, r).
Proof.
  rewrite elem_of_ids. split.
  - intros (r & Hr & Hid).
    destruct (list_find_elem_of (λ r, id (deref h r) = x) l r Hr Hid) as [[i r'] Hfind].
    eauto.
  - intros (i & r & Hfind). apply list_find_Some in Hfind as (Hr & Hid & _).
    exists r. split; [by eapply list_elem_of_lookup_2 | done].
Qed.

(** The queueing fragment: the keys of the queue are kept, and the key of
    the record is appended when it was not there. *)
Lemma queuePending_spec item s :
  wf s → item < length (heap s) →
  let s' := queuePending item s in
  let key := id (deref (heap s) item) in
  wf s' ∧ heap s' = heap s ++ [deref (heap s) item] ∧
  reorderItems s' = reorderItems s ∧ storage s' = storage s ∧
  pendingIds s' =
    pendingIds s ++ (if bool_decide (key ∈ pendingIds s) then [] else [key]) ∧
  key ∈ pendingIds s'.
Proof.
  intros (W1 & W2 & W3) Hitem s' key.
  assert (pendingIds s' =
          pendingIds s ++ (if bool_decide (key ∈ pendingIds s) then [] else [key]) ∧
          wf s') as [Hp W'].
  { subst s' key. unfold queuePending, clone, alloc.
    destruct (list_find _ _) as [[i p]|] eqn:Hfind; simpl.
    - assert (id (deref (heap s) item) ∈ pendingIds s) as Hin.
      { apply elem_of_ids_find. eauto. }
      rewrite (bool_decide_eq_true_2 _ Hin), app_nil_r.
      apply list_find_Some in Hfind as (Hp & Hkey & _). split.
      + unfold pendingIds. simpl. rewrite ids_insert.
        rewrite (ids_extends (heap s)); [| apply extends_app | done].
        apply list_insert_id. rewrite deref_alloc_new.
        rewrite (ids_lookup _ _ _ _ Hp). by rewrite Hkey.
      + unfold wf. simpl. rewrite length_app. simpl. repeat split.
        * eapply Forall_valid_grow; [| exact W1]. lia.
        * apply Forall_insert; [eapply Forall_valid_grow; [| exact W2] |]; lia.
        * done.
    - assert (id (deref (heap s) item) ∉ pendingIds s) as Hout.
      { intros Hin. apply elem_of_ids_find in Hin as (i & r & Hin). congruence. }
      rewrite (bool_decide_eq_false_2 _ Hout). split.
      + unfold pendingIds. simpl. rewrite ids_snoc, deref_alloc_new.
        rewrite (ids_extends (heap s)); [done | apply extends_app | done].
      + unfold wf. simpl. rewrite length_app. simpl. repeat split.
        * eapply Forall_valid_grow; [| exact W1]. lia.
        * apply Forall_app. split; [eapply Forall_valid_grow; [| exact W2]; lia |].
          apply Forall_singleton. lia.
        * done. }
  split; [exact W' |].
  split; [subst s'; unfold queuePending, clone, alloc; by destruct (list_find _ _) as [[? ?]|] |].
  split; [subst s'; unfold queuePending, clone, alloc; by destruct (list_find _ _) as [[? ?]|] |].
  split; [subst s'; unfold queuePending, clone, alloc; by destruct (list_find _ _) as [[? ?]|] |].
  split; [exact Hp |].
  rewrite Hp. case_bool_decide; [by rewrite app_nil_r |].
  apply elem_of_app. right. apply list_elem_of_here.
Qed.

(** A local mutation of an existing record, up to the queueing. *)
Lemma queuePending_after_assign f g item s :
  (∀ x, id (f x) = id x) → (∀ x, itemId (f x) = itemId x) →
  (∀ x, id (g x) = id x) → (∀ x, itemId (g x) = itemId x) →
  wf s → item < length (heap s) →
  let s' := queuePending item (set_heap (assign g item (assign f item (heap s))) s) in
  let key := id (deref (heap s) item) in
  wf s' ∧ extends (heap s) (heap s') ∧ reorderItems s' = reorderItems s ∧
  storage s' = storage s ∧ itemIds s' = itemIds s ∧
  pendingIds s' =
    pendingIds s ++ (if bool_decide (key ∈ pendingIds s) then [] else [key]) ∧
  key ∈ pendingIds s'.
Proof.
  intros Hf1 Hf2 Hg1 Hg2 W Hitem s' key.
  set (s1 := set_heap (assign g item (assign f item (heap s))) s) in *.
  assert (keeps s s1) as K.
  { eapply keeps_trans; [apply (keeps_assign f item s Hf1 Hf2) |].
    apply (keeps_assign g item (set_heap (assign f item (heap s)) s) Hg1 Hg2). }
  assert (wf s1) as W1 by by eapply wf_keeps.
  assert (item < length (heap s1)) as Hitem1.
  { destruct K as (_ & -> & _). done. }
  destruct (queuePending_spec item s1 W1 Hitem1) as (W' & Hh & Hr & Hs & Hp & Hin).
  fold s' in W', Hh, Hr, Hs, Hp, Hin.
  assert (extends (heap s) (heap s')) as E.
  { rewrite Hh. eapply extends_trans; [apply K | apply extends_app]. }
  assert (id (deref (heap s1) item) = key) as Hkey.
  { by destruct K as ((_ & Hk) & _); destruct (Hk item Hitem). }
  rewrite Hkey in Hp, Hin. rewrite (pendingIds_keeps s s1 K W) in Hp.
  split; [done |]. split; [done |]. split; [by rewrite Hr |].
  split; [by rewrite Hs |]. split; [| by split].
  unfold itemIds. rewrite Hr. simpl. apply ids_extends; [done | apply W].
Qed.

(** The end of a local block: the snapshot is written and the listeners
    are called.  Nothing of the service changes but the snapshot and the
    log of listener calls. *)
Lemma finish_arrays e s :
  let s' := (notifyListeners e (saveOfflineItems e s)).2 in
  heap s' = heap s ∧ reorderItems s' = reorderItems s ∧
  pendingSyncItems s' = pendingSyncItems s.
Proof. rewrite notifyListeners_eq, saveOfflineItems_eq. by destruct (storageSet e 0). Qed.

Lemma finish_session e s :
  let s' := (notifyListeners e (saveOfflineItems e s)).2 in
  listeners s' = listeners s ∧ isInitialized s' = isInitialized s ∧
  currentUserId s' = currentUserId s ∧ isOfflineMode s' = isOfflineMode s ∧
  log s' = log s ∧ teamDataCache s' = teamDataCache s.
Proof. rewrite notifyListeners_eq, saveOfflineItems_eq. by destruct (storageSet e 0). Qed.

Lemma finish_outcome e s s0 :
  wf s0 → storage s0 = storage s →
  localOutcome s (notifyListeners e (saveOfflineItems e s0)).2 (itemIds s0) (pendingIds s0).
Proof.
  intros W Hst.
  destruct (finish_arrays e s0) as (Fh & Fr & Fp).
  split; [| split; [| split]].
  - destruct W as (W1 & W2 & W3). unfold wf. by rewrite Fh, Fr, Fp.
  - unfold itemIds. by rewrite Fh, Fr.
  - unfold pendingIds. by rewrite Fh, Fp.
  - rewrite notifyListeners_eq, saveOfflineItems_eq.
    destruct (storageSet e 0); simpl; [| by left].
    right. eexists. split; [done |]. by rewrite ids_jsonItem.
Qed.

Lemma localOutcome_offline s s' items pend :
  localOutcome (set_isOfflineMode true s) s' items pend → localOutcome s s' items pend.
Proof. done. Qed.

(** Two local blocks in a row, when the records that the first one may
    have written to the snapshot are among those of the second one, or
    among those of the start. *)
Lemma localOutcome_storage s s1 s2 items1 pend1 items2 pend2 :
  localOutcome s s1 items1 pend1 → localOutcome s1 s2 items2 pend2 →
  items1 `sublist_of` items2 ∨ items1 `sublist_of` itemIds s →
  storageStep s s2.
Proof.
  intros (_ & _ & _ & S1) (_ & I2 & _ & S2) Hsub.
  destruct S2 as [S2 | (stored & S2 & Hids)].
  - destruct S1 as [S1 | (stored & S1 & Hids)]; [left; congruence |].
    right. exists stored. split; [congruence |]. rewrite Hids, I2.
    destruct Hsub; [by left | by right].
  - right. exists stored. split; [done |]. left. by rewrite Hids, I2.
Qed.

Lemma localOutcome_storage1 s s1 items1 pend1 :
  localOutcome s s1 items1 pend1 → storageStep s s1.
Proof.
  intros (_ & I1 & _ & S1). destruct S1 as [S1 | (stored & S1 & Hids)]; [by left |].
  right. exists stored. split; [done |]. left. by rewrite Hids, I1.
Qed.

(** The local addition. *)
Lemma addLocally_steps item qty team user overwriteMode e s :
  wf s →
  let s' := addLocally item qty team user overwriteMode e s in
  wf s' ∧ storage s' = storage s ∧ extends (heap s) (heap s') ∧
  (∃ i r, list_find (λ r, itemId (deref (heap s') r) = c_id item) (reorderItems s')
            = Some (i, r) ∧ id (deref (heap s') r) ∈ pendingIds s') ∧
  match list_find (λ r, itemId (deref (heap s) r) = c_id item) (reorderItems s) with
  | Some (i, existingItem) =>
      let key := id (deref (heap s) existingItem) in
      reorderItems s' = reorderItems s ∧
      list_find (λ r, itemId (deref (heap s') r) = c_id item) (reorderItems s')
        = Some (i, existingItem) ∧
      itemIds s' = itemIds s ∧
      pendingIds s' =
        pendingIds s ++ (if bool_decide (key ∈ pendingIds s) then [] else [key])
  | None =>
      itemIds s' = itemIds s ++ [mintId "offline" e] ∧
      pendingIds s' = pendingIds s ++ [mintId "offline" e]
  end.
Proof.
  intros W s'. subst s'. unfold addLocally.
  destruct (list_find _ _) as [[i existingItem]|] eqn:Hfind.
  - destruct (list_find_valid _ _ _ _ _ (proj1 W) Hfind) as (Hvalid & _).
    match goal with |- context [queuePending _ (set_heap (assign ?g _ (assign ?f _ _)) _)] =>
      destruct (queuePending_after_assign f g existingItem s)
        as (W' & E & Hr & Hs & Hi & Hp & Hin);
        [done | done | done | done | done | done |] end.
    assert (list_find (λ r, itemId (deref (heap (queuePending existingItem
              (set_heap (assign (with_updatedAt (iso (clock e 0))) existingItem
                 (assign (with_quantity (Some (mergedQuantity overwriteMode
                    (quantity (deref (heap s) existingItem)) qty))) existingItem (heap s))) s))) r)
              = c_id item) (reorderItems s) = Some (i, existingItem)) as Hfind'.
    { rewrite <- Hfind. apply list_find_itemId_extends; [exact E | apply W]. }
    split; [exact W' |]. split; [exact Hs |]. split; [exact E |]. split.
    + exists i, existingItem. rewrite Hr. split; [exact Hfind' |].
      destruct E as [_ E]. destruct (E existingItem Hvalid) as [-> _]. exact Hin.
    + rewrite Hr. done.
  - set (new := newReorderItem item qty team user e s).
    destruct W as (W1 & W2 & W3).
    unfold clone, alloc. simpl.
    set (h2 := (heap s ++ [new]) ++ [deref (heap s ++ [new]) (length (heap s))]).
    assert (extends (heap s) h2) as E.
    { unfold h2. rewrite <- app_assoc. apply extends_app. }
    assert (∀ l, Forall (λ r, r < length (heap s)) l → ids h2 l = ids (heap s) l) as Hids.
    { intros l Hl. by apply ids_extends. }
    assert (deref h2 (length (heap s)) = new) as Hnew1.
    { unfold h2. rewrite deref_app_old by (rewrite length_app; simpl; lia).
      by rewrite deref_alloc_new. }
    assert (deref h2 (length (heap s ++ [new])) = new) as Hnew2.
    { unfold h2. rewrite deref_alloc_new. by rewrite deref_alloc_new. }
    assert (pendingIds (set_pendingSyncItems (pendingSyncItems s ++ [length (heap s ++ [new])])
              (set_heap h2 (set_reorderItems (reorderItems s ++ [length (heap s)])
                 (set_heap (heap s ++ [new]) s))))
            = pendingIds s ++ [mintId "offline" e]) as Hp.
    { unfold pendingIds. simpl. rewrite ids_snoc, Hids by done. by rewrite Hnew2. }
    split; [| split; [done | split; [exact E | split; [| split]]]].
    + unfold wf. simpl. unfold h2. rewrite !length_app. simpl. repeat split.
      * apply Forall_app. split; [eapply Forall_valid_grow; [| exact W1]; lia |].
        apply Forall_singleton. lia.
      * apply Forall_app. split; [eapply Forall_valid_grow; [| exact W2]; lia |].
        apply Forall_singleton. lia.
      * apply NoDup_app. split; [done |]. split; [| apply NoDup_singleton].
        intros r Hr Hin. apply list_elem_of_singleton in Hin. subst r.
        rewrite Forall_forall in W1. specialize (W1 _ Hr). lia.
    + exists (length (reorderItems s)), (length (heap s)). simpl. split.
      * apply list_find_Some. split; [| split].
        -- rewrite lookup_app_r by lia. by rewrite Nat.sub_diag.
        -- by rewrite Hnew1.
        -- intros j y Hj Hlt. rewrite lookup_app_l in Hj by done.
           apply list_find_None in Hfind. rewrite Forall_forall in Hfind.
           assert (y ∈ reorderItems s) as Hy by by eapply list_elem_of_lookup_2.
           rewrite Forall_forall in W1.
           destruct E as [_ E]. destruct (E y (W1 y Hy)) as [_ ->]. by apply Hfind.
      * rewrite Hnew1. rewrite Hp. apply elem_of_app. right. apply list_elem_of_here.
    + unfold itemIds. simpl. rewrite ids_snoc, Hids by done. by rewrite Hnew1.
    + exact Hp.
Qed.

(** A second local addition for the same source item, once the item is
    referenced by a record whose id is queued, keeps the identifiers. *)
Lemma addLocally_again item qty team user overwriteMode e s :
  wf s →
  (∃ i r, list_find (λ r, itemId (deref (heap s) r) = c_id item) (reorderItems s)
            = Some (i, r) ∧ id (deref (heap s) r) ∈ pendingIds s) →
  let s' := addLocally item qty team user overwriteMode e s in
  wf s' ∧ storage s' = storage s ∧ itemIds s' = itemIds s ∧ pendingIds s' = pendingIds s.
Proof.
  intros W (i & r & Hfind & Hin) s'.
  destruct (addLocally_steps item qty team user overwriteMode e s W) as (W' & S & _ & _ & H).
  fold s' in W', S, H. rewrite Hfind in H. destruct H as (_ & _ & I & P).
  rewrite (bool_decide_eq_true_2 _ Hin), app_nil_r in P. done.
Qed.

Lemma commitCustomItem_steps x e s :
  wf s →
  localOutcome s (commitCustomItem x e s).2 (id x :: itemIds s) (pendingIds s ++ [id x]).
Proof.
  intros (W1 & W2 & W3). unfold commitCustomItem, alloc.
  set (s0 := set_pendingSyncItems (pendingSyncItems s ++ [length (heap s)])
               (set_reorderItems (length (heap s) :: reorderItems s)
                  (set_heap (heap s ++ [x]) s))).
  assert (wf s0) as W0.
  { unfold wf. simpl. rewrite !length_app. simpl. repeat split.
    - apply Forall_cons. split; [lia |]. eapply Forall_valid_grow; [| exact W1]. lia.
    - apply Forall_app. split; [eapply Forall_valid_grow; [| exact W2]; lia |].
      apply Forall_singleton. lia.
    - apply NoDup_cons. split; [| done]. intros Hin.
      rewrite Forall_forall in W1. specialize (W1 _ Hin). lia. }
  assert (∀ l, Forall (λ r, r < length (heap s)) l → ids (heap s ++ [x]) l = ids (heap s) l)
    as Hids.
  { intros l Hl. apply ids_extends; [apply extends_app | done]. }
  assert (itemIds s0 = id x :: itemIds s) as I0.
  { unfold itemIds, s0. simpl. unfold ids at 1, records. simpl.
    rewrite deref_alloc_new. f_equal. by apply Hids. }
  assert (pendingIds s0 = pendingIds s ++ [id x]) as P0.
  { unfold pendingIds, s0. simpl. rewrite ids_snoc, deref_alloc_new. by rewrite Hids. }
  rewrite <- I0, <- P0. by apply finish_outcome.
Qed.

Lemma removeLocally_steps target e s :
  wf s →
  ∃ items pend,
    localOutcome s (removeLocally target e s).2 items pend ∧
    items `sublist_of` itemIds s ∧ pend `sublist_of` pendingIds s.
Proof.
  intros (W1 & W2 & W3). unfold removeLocally.
  destruct (list_find _ _) as [[i r]|] eqn:Hfind.
  2: { exists (itemIds s), (pendingIds s). split; [| done].
       split; [done |]. split; [done |]. split; [done | by left]. }
  set (items := delete i (reorderItems s)).
  set (pending := filter (λ p, id (deref (heap s) p) ≠ target) (pendingSyncItems s)).
  destruct (reindexFrom_extends items 0 (heap s)) as [E L]. fold (reindex items (heap s)) in E, L.
  assert (items `sublist_of` reorderItems s) as Si by apply sublist_delete.
  assert (pending `sublist_of` pendingSyncItems s) as Sp by apply sublist_filter.
  assert (Forall (λ r, r < length (heap s)) items) as Vi by by eapply Forall_sublist_valid.
  assert (Forall (λ r, r < length (heap s)) pending) as Vp by by eapply Forall_sublist_valid.
  set (s0 := set_heap (reindex items (heap s))
               (set_pendingSyncItems pending (set_reorderItems items s))).
  assert (wf s0) as W0.
  { unfold wf, s0. simpl. rewrite L. repeat split; try done. by eapply sublist_NoDup. }
  exists (itemIds s0), (pendingIds s0). split; [exact (finish_outcome e s s0 W0 eq_refl) |].
  unfold itemIds, pendingIds, s0. simpl.
  rewrite (ids_extends (heap s) _ items E Vi), (ids_extends (heap s) _ pending E Vp).
  split; by apply ids_sublist.
Qed.

Lemma toggleLocally_steps item e s :
  wf s → item < length (heap s) →
  let key := id (deref (heap s) item) in
  let s' := (toggleLocally item e s).2 in
  localOutcome s s' (itemIds s)
    (pendingIds s ++ (if bool_decide (key ∈ pendingIds s) then [] else [key])) ∧
  key ∈ pendingIds s' ∧ extends (heap s) (heap s') ∧ reorderItems s' = reorderItems s.
Proof.
  intros W Hitem key s'. subst s'. unfold toggleLocally.
  match goal with |- context [queuePending _ (set_heap (assign ?g _ (assign ?f _ _)) _)] =>
    destruct (queuePending_after_assign f g item s) as (W' & E & Hr & Hs & Hi & Hp & Hin);
      [done | done | done | done | done | done |];
    set (s0 := queuePending item (set_heap (assign g item (assign f item (heap s))) s)) in *
  end.
  fold key in Hp, Hin.
  pose proof (finish_outcome e s s0 W' Hs) as Hout. rewrite Hi, Hp in Hout.
  destruct (finish_arrays e s0) as (Fh & Fr & Fp).
  split; [exact Hout |]. split; [| split].
  - unfold pendingIds. rewrite Fh, Fp. exact Hin.
  - by rewrite Fh.
  - by rewrite Fr.
Qed.

Lemma handleReorderItemCreated_steps newItem e s :
  wf s →
  let out := handleReorderItemCreated newItem e s in
  wf out.2 ∧ storage out.2 = storage s ∧ pendingIds out.2 = pendingIds s ∧
  (out = (Resolved (), s) ∨
   ((id newItem ∉ itemIds s) ∧ itemIds out.2 = itemIds s ++ [id newItem])).
Proof.
  intros (W1 & W2 & W3) out. subst out. unfold handleReorderItemCreated, alloc.
  destruct (list_find _ _) as [[i r]|] eqn:Hfind; [by repeat split; try left |].
  apply list_find_None in Hfind. rewrite notifyListeners_eq. simpl.
  set (x := with_index _ _).
  assert (∀ l, Forall (λ r, r < length (heap s)) l → ids (heap s ++ [x]) l = ids (heap s) l)
    as Hids.
  { intros l Hl. apply ids_extends; [apply extends_app | done]. }
  split; [| repeat split].
  - unfold wf. simpl. rewrite !length_app. simpl. repeat split.
    + apply Forall_app. split; [eapply Forall_valid_grow; [| exact W1]; lia |].
      apply Forall_singleton. lia.
    + eapply Forall_valid_grow; [| exact W2]. lia.
    + apply NoDup_app. split; [done |]. split; [| apply NoDup_singleton].
      intros r Hr Hin. apply list_elem_of_singleton in Hin. subst r.
      rewrite Forall_forall in W1. specialize (W1 _ Hr). lia.
  - unfold pendingIds. simpl. by apply Hids.
  - right. split.
    + intros Hin. apply elem_of_ids in Hin as (r & Hr & Hid).
      rewrite Forall_forall in Hfind. by apply (Hfind r Hr).
    + unfold itemIds. simpl. rewrite ids_snoc, deref_alloc_new. by rewrite Hids.
Qed.

Lemma handleReorderItemUpdated_steps updatedItem e s :
  wf s →
  let s' := (handleReorderItemUpdated updatedItem e s).2 in
  wf s' ∧ storage s' = storage s ∧ pendingIds s' = pendingIds s ∧ itemIds s' = itemIds s.
Proof.
  intros (W1 & W2 & W3) s'. subst s'. unfold handleReorderItemUpdated, alloc.
  destruct (list_find _ _) as [[i old]|] eqn:Hfind; [| done].
  destruct (list_find_valid _ _ _ _ _ W1 Hfind) as (Hvalid & Hin & Hlook & Hid).
  rewrite notifyListeners_eq. simpl.
  set (x := with_index _ _).
  assert (∀ l, Forall (λ r, r < length (heap s)) l → ids (heap s ++ [x]) l = ids (heap s) l)
    as Hids.
  { intros l Hl. apply ids_extends; [apply extends_app | done]. }
  split; [| repeat split].
  - unfold wf. simpl. rewrite !length_app. simpl. repeat split.
    + apply Forall_insert; [eapply Forall_valid_grow; [| exact W1] |]; lia.
    + eapply Forall_valid_grow; [| exact W2]. lia.
    + apply NoDup_insert_fresh; [done |]. intros Hn.
      rewrite Forall_forall in W1. specialize (W1 _ Hn). lia.
  - unfold pendingIds. simpl. by apply Hids.
  - unfold itemIds. simpl. rewrite ids_insert, deref_alloc_new, Hids by done.
    apply list_insert_id. rewrite (ids_lookup _ _ _ _ Hlook). by rewrite Hid.
Qed.

Lemma handleReorderItemDeleted_steps deletedItem e s :
  wf s →
  let s' := (handleReorderItemDeleted deletedItem e s).2 in
  wf s' ∧ storage s' = storage s ∧ pendingIds s' = pendingIds s ∧
  itemIds s' `sublist_of` itemIds s.
Proof.
  intros (W1 & W2 & W3) s'. subst s'. unfold handleReorderItemDeleted. simpl.
  set (items := filter _ (reorderItems s)).
  assert (items `sublist_of` reorderItems s) as Si by apply sublist_filter.
  assert (Forall (λ r, r < length (heap s)) items) as Vi by by eapply Forall_sublist_valid.
  case_decide.
  - rewrite notifyListeners_eq. simpl.
    destruct (reindexFrom_extends items 0 (heap s)) as [E L].
    fold (reindex items (heap s)) in E, L.
    split; [| repeat split].
    + unfold wf. simpl. rewrite L. repeat split; try done. by eapply sublist_NoDup.
    + unfold pendingIds. simpl. by apply ids_extends.
    + unfold itemIds. simpl. rewrite (ids_extends (heap s)) by done. by apply ids_sublist.
  - split; [| repeat split].
    + unfold wf. simpl. repeat split; try done. by eapply sublist_NoDup.
    + unfold itemIds. simpl. by apply ids_sublist.
Qed.

(** ** Bulk loads *)

Lemma loaded_keeps e s s' : keeps s s' → wf s → loaded e s s'.
Proof.
  intros K W. split; [by eapply wf_keeps |]. split; [apply K |].
  split; [by apply pendingIds_keeps |]. left. by apply itemIds_keeps.
Qed.

Lemma loaded_install xs e s s' :
  wf s →
  keeps (set_reorderItems (seq (length (heap s)) (length xs)) (set_heap (heap s ++ xs) s)) s' →
  id <$> xs ∈ bulkIds e s →
  loaded e s s'.
Proof.
  intros W K Hin. pose proof (wf_alloc_all xs s W) as W1.
  split; [by eapply wf_keeps |]. split; [| split].
  - destruct K as (_ & _ & _ & _ & ->). done.
  - rewrite (pendingIds_keeps _ _ K W1). unfold pendingIds. simpl.
    apply ids_extends; [apply extends_app | apply W].
  - right. rewrite (itemIds_keeps _ _ K W1). unfold itemIds. simpl.
    by rewrite ids_seq.
Qed.

(** Two loads in a row from the same bulk answers are one. *)
Lemma loaded_trans e e' s s1 s2 :
  bulkIds e' s1 = bulkIds e s → loaded e s s1 → loaded e' s1 s2 → loaded e s s2.
Proof.
  intros Hb (W1 & S1 & P1 & I1) (W2 & S2 & P2 & I2).
  split; [done |]. split; [congruence |]. split; [congruence |].
  destruct I2 as [I2 | I2]; [rewrite I2; exact I1 |]. right. by rewrite <- Hb.
Qed.

Lemma bulkIds_rows e s rows : dbRows e = Resolved rows → row_id <$> rows ∈ bulkIds e s.
Proof. intros H. unfold bulkIds. rewrite H. apply elem_of_app. left. apply list_elem_of_here. Qed.

Lemma bulkIds_list e s items :
  listReply e = Resolved (Some items) → id <$> items ∈ bulkIds e s.
Proof.
  intros H. unfold bulkIds. rewrite H. apply elem_of_app. right.
  apply elem_of_app. left. apply list_elem_of_here.
Qed.

Lemma bulkIds_storage e s stored : storage s = Some stored → id <$> stored ∈ bulkIds e s.
Proof.
  intros H. unfold bulkIds. rewrite H. apply elem_of_app. right.
  apply elem_of_app. right. apply list_elem_of_here.
Qed.

Lemma loadOfflineItems_loaded e s : wf s → loaded e s (loadOfflineItems e s).
Proof.
  intros W. unfold loadOfflineItems.
  destruct (storageGet e 0); [| apply loaded_keeps; [apply keeps_refl | done]].
  destruct (storage s) as [items|] eqn:Hst; [| apply loaded_keeps; [apply keeps_refl | done]].
  unfold alloc_all. apply (loaded_install (imap stamp items)); [done | | ].
  - rewrite length_imap. apply keeps_refl.
  - rewrite ids_imap_stamp. by apply bulkIds_storage.
Qed.

Lemma adoptServerItems_loaded items e s :
  wf s → listReply e = Resolved (Some items) → loaded e s (adoptServerItems items e s).2.
Proof.
  intros W Hl. unfold adoptServerItems, alloc_all, saveReorderItemsLocally.
  refine (loaded_install (imap stamp items) e
            (emit (DbSaveReorderItems (imap stamp items)) s) _ W _ _).
  - eapply keeps_trans; [| apply keeps_notifyListeners].
    apply keeps_loadTeamDataFrom.
  - rewrite ids_imap_stamp. by apply bulkIds_list.
Qed.

Lemma recoverFromDynamoDB_loaded e s : wf s → loaded e s (recoverFromDynamoDB e s).
Proof.
  intros W. unfold recoverFromDynamoDB.
  destruct (monitorReply e); [| by apply loaded_keeps; [exact (keeps_refl s) |]].
  destruct (listReply e) as [[items|]|] eqn:Hl;
    [| by apply loaded_keeps; [exact (keeps_refl s) |] ..].
  apply (adoptServerItems_loaded items e
           (emit (GqlListReorderItems 1000) (emit (MonitorBeforeRequest "listReorderItems") s)));
    done.
Qed.

Lemma manualSync_loaded e s : wf s → loaded e s (manualSync e s).2.
Proof.
  intros W. unfold manualSync.
  destruct (monitorReply e); [| by apply loaded_keeps; [exact (keeps_refl s) |]].
  destruct (listReply e) as [[items|]|] eqn:Hl;
    [| by apply loaded_keeps; [exact (keeps_refl s) |] ..].
  apply (adoptServerItems_loaded items e
           (emit (GqlListReorderItems 1000) (emit (MonitorBeforeRequest "listReorderItems") s)));
    done.
Qed.

Lemma loadReorderItems_loaded e s : wf s → loaded e s (loadReorderItems e s).
Proof.
  intros W. unfold loadReorderItems, loadLocalReorderItems.
  destruct (dbRows e) as [rows|] eqn:Hrows.
  - destruct rows as [|row rows]; simpl.
    + apply (recoverFromDynamoDB_loaded e (emit DbLoadReorderItems s)). done.
    + unfold alloc_all.
      refine (loaded_install (itemOfRow <$> (row :: rows)) e
                (emit DbLoadReorderItems s) _ W _ _).
      * apply keeps_loadTeamDataFrom.
      * rewrite <- list_fmap_compose. by apply bulkIds_rows.
  - simpl. apply (recoverFromDynamoDB_loaded e (emit DbLoadReorderItems s)). done.
Qed.

Lemma loaded_notifyListeners e e' s s' :
  loaded e s s' → loaded e s (notifyListeners e' s').2.
Proof. rewrite notifyListeners_eq. done. Qed.

Lemma initializeLoad_loaded userId e s : wf s → loaded e s (initializeLoad userId e s).
Proof.
  intros W. unfold initializeLoad, checkAuthStatus.
  destruct (authProbe e).
  - match goal with |- context [loadReorderItems e ?s1] =>
      exact (loadReorderItems_loaded e s1 W) end.
  - match goal with |- context [loadOfflineItems e ?s1] =>
      exact (loadOfflineItems_loaded e s1 W) end.
Qed.

Lemma initializeFallback_loaded e e' s s1 :
  bulkIds e' s1 = bulkIds e s → loaded e s s1 → loaded e s (initializeFallback e' s1).2.
Proof.
  intros Hb L1. unfold initializeFallback. apply loaded_notifyListeners.
  eapply (loaded_trans e e' s (set_isOfflineMode true s1)); [exact Hb | exact L1 |].
  apply (loadOfflineItems_loaded e' (set_isOfflineMode true s1)). apply L1.
Qed.

Lemma initialize_loaded userId e s : wf s → loaded e s (initialize userId e s).2.
Proof.
  intros W. unfold initialize.
  destruct (isInitialized s && sameUser (currentUserId s) userId);
    [apply loaded_keeps; [apply keeps_refl | done] |].
  pose proof (initializeLoad_loaded userId e s W) as L1.
  set (s1 := initializeLoad userId e s) in *.
  assert (loaded e s (notifyListeners e s1).2) as L2
    by (apply loaded_notifyListeners; exact L1).
  unfold tryCatch. destruct (notifyListeners e s1).1; [exact L2 |].
  apply initializeFallback_loaded; [| exact L2].
  unfold bulkIds. simpl. by destruct L2 as (_ & -> & _).
Qed.

Lemma addListener_loaded l e s : wf s → loaded e s (addListener l e s).2.
Proof.
  intros W. unfold addListener. simpl.
  destruct (bool_decide _ && negb (isInitialized s)).
  - unfold andThen.
    match goal with |- context [initialize ?u e ?s1] =>
      pose proof (initialize_loaded u e s1 W) as L1;
      destruct (initialize u e s1) as [[u'|] s2] end; simpl in *; exact L1.
  - apply loaded_keeps; [exact (keeps_refl s) | done].
Qed.

Lemma syncPendingItems_steps e s :
  wf s →
  let s' := syncPendingItems e s in
  wf s' ∧ heap s' = heap s ∧ reorderItems s' = reorderItems s ∧ storage s' = storage s ∧
  pendingSyncItems s' `sublist_of` pendingSyncItems s.
Proof.
  intros W s'. subst s'. unfold syncPendingItems.
  destruct (pendingSyncItems s) as [|p ps] eqn:Hp.
  { rewrite Hp. split; [exact W | by repeat split]. }
  rewrite <- Hp. clear Hp.
  destruct (syncLoop e 0 (pendingSyncItems s) [] s) as [synced s1] eqn:Hloop.
  pose proof (syncLoop_sameButLog e (pendingSyncItems s) 0 [] s) as Hs.
  rewrite Hloop in Hs. simpl in Hs.
  destruct Hs as (Hh & Hr & _ & _ & _ & _ & _ & Hpend & Hst & _).
  destruct W as (W1 & W2 & W3).
  simpl. rewrite Hh, Hr, Hst, Hpend.
  assert (filter (λ p0, id (deref (heap s) p0) ∉ synced) (pendingSyncItems s)
          `sublist_of` pendingSyncItems s) as Hsub by apply sublist_filter.
  split; [| split; [done | split; [done | split; [done | exact Hsub]]]].
  unfold wf. simpl. rewrite Hh, Hr.
  split; [done |]. split; [| done]. by eapply Forall_sublist_valid.
Qed.

(** ** Every operation, summarised *)

Lemma andThen_state {A} (first : Reply unit * State) (a : A) :
  (andThen first (λ s, (Resolved a, s))).2 = first.2.
Proof. unfold andThen. by destruct first.1. Qed.

Lemma andThen_outcome {A} (first : Reply unit * State) (a : A) :
  (andThen first (λ s, (Resolved a, s))).1 =
  match first.1 with Resolved _ => Resolved a | Thrown => Thrown end.
Proof. unfold andThen. by destruct first.1. Qed.

Lemma localOutcome_again s s1 s2 items pend :
  localOutcome s s1 items pend → localOutcome s1 s2 items pend → localOutcome s s2 items pend.
Proof.
  intros (_ & _ & _ & S1) (W2 & I2 & P2 & S2). split; [done |]. split; [done |].
  split; [done |]. destruct S2 as [S2 | S2]; [| by right].
  destruct S1 as [S1 | (stored & S1 & Hids)]; [left; congruence |].
  right. exists stored. split; [congruence | done].
Qed.

Lemma summary_loaded e s o s' :
  loadedIds s o = bulkIds e s → loaded e s s' → summary s o s'.
Proof.
  intros Ho (W & S & P & I). split; [done |]. split; [| split].
  - destruct I as [I|I]; [left; by rewrite I |].
    right. right. right. by rewrite Ho.
  - left. by rewrite P.
  - by left.
Qed.

Lemma queued_cases (pend pend' : list string) key :
  pend' = pend ++ (if bool_decide (key ∈ pend) then [] else [key]) →
  pend' `sublist_of` pend ∨ ∃ x, (x ∉ pend) ∧ pend' = pend ++ [x].
Proof.
  intros H. case_bool_decide.
  - left. by rewrite H, app_nil_r.
  - right. eauto.
Qed.

Lemma pendingStep_queued s o s' key :
  pendingIds s' =
    pendingIds s ++ (if bool_decide (key ∈ pendingIds s) then [] else [key]) →
  pendingStep s o s'.
Proof.
  intros H. case_bool_decide.
  - left. by rewrite H, app_nil_r.
  - right. left. eauto.
Qed.

Lemma summary_refresh e s : wf s → summary s (Refresh e) (refresh e s).
Proof.
  intros W. unfold refresh, checkAuthStatus.
  destruct (authProbe e).
  - set (s1 := set_isOfflineMode false (emit (GqlListReorderItems 1) s)).
    assert (wf s1) as W1 by exact W.
    destruct (syncPendingItems_steps e s1 W1) as (W2 & Hh & Hr & Hs & Hsub).
    set (s2 := syncPendingItems e s1) in *.
    destruct (loadReorderItems_loaded e s2 W2) as (W3 & S3 & P3 & I3).
    rewrite notifyListeners_eq.
    split; [exact W3 |]. split; [| split].
    + destruct I3 as [I3|I3].
      * left. change (itemIds (loadReorderItems e s2) `sublist_of` itemIds s).
        rewrite I3. unfold itemIds. by rewrite Hh, Hr.
      * right. right. right.
        change (itemIds (loadReorderItems e s2) ∈ bulkIds e s).
        unfold bulkIds in *. by rewrite Hs in I3.
    + left. change (pendingIds (loadReorderItems e s2) `sublist_of` pendingIds s).
      rewrite P3. unfold pendingIds. rewrite Hh. by apply ids_sublist.
    + left. change (storage (loadReorderItems e s2) = storage s). by rewrite S3, Hs.
  - set (s1 := set_isOfflineMode true (emit (GqlListReorderItems 1) s)).
    apply (summary_loaded e); [done |]. apply loaded_notifyListeners.
    exact (loadOfflineItems_loaded e s1 W).
Qed.

(** *** [addItem] *)

Lemma addItemOffline_state item qty team user overwriteMode e s :
  (addItemOffline item qty team user overwriteMode e s).2 =
  (notifyListeners e (saveOfflineItems e (addLocally item qty team user overwriteMode e s))).2.
Proof. unfold addItemOffline. apply andThen_state. Qed.

Lemma addItemFallback_state item qty team user overwriteMode e s :
  (addItemFallback item qty team user overwriteMode e s).2 =
  (addItemOffline item qty team (str_or (Some user) "Unknown User") overwriteMode e
     (set_isOfflineMode true s)).2.
Proof. done. Qed.

Lemma addItemFallback_outcome item qty team user overwriteMode e s :
  (addItemFallback item qty team user overwriteMode e s).1 =
  (addItemOffline item qty team (str_or (Some user) "Unknown User") overwriteMode e
     (set_isOfflineMode true s)).1.
Proof. done. Qed.

(** The local addition with its snapshot and broadcast. *)
Lemma addItemOffline_steps item qty team user overwriteMode e s :
  wf s →
  let s' := (addItemOffline item qty team user overwriteMode e s).2 in
  (∃ i r, list_find (λ r, itemId (deref (heap s') r) = c_id item) (reorderItems s')
            = Some (i, r) ∧ id (deref (heap s') r) ∈ pendingIds s') ∧
  match list_find (λ r, itemId (deref (heap s) r) = c_id item) (reorderItems s) with
  | Some (_, existingItem) =>
      let key := id (deref (heap s) existingItem) in
      localOutcome s s' (itemIds s)
        (pendingIds s ++ (if bool_decide (key ∈ pendingIds s) then [] else [key]))
  | None =>
      localOutcome s s' (itemIds s ++ [mintId "offline" e])
        (pendingIds s ++ [mintId "offline" e])
  end.
Proof.
  intros W s'. subst s'. rewrite addItemOffline_state.
  destruct (addLocally_steps item qty team user overwriteMode e s W)
    as (W' & S & E & Href & H).
  set (a := addLocally item qty team user overwriteMode e s) in *.
  pose proof (finish_outcome e s a W' S) as Hout.
  destruct (finish_arrays e a) as (Fh & Fr & Fp).
  split.
  - unfold pendingIds. rewrite Fh, Fr, Fp. exact Href.
  - destruct (list_find _ (reorderItems s)) as [[i r]|]; cbv zeta in H |- *.
    + destruct H as (_ & _ & I & P). by rewrite I, P in Hout.
    + destruct H as (I & P). by rewrite I, P in Hout.
Qed.

(** The same addition a second time keeps the identifiers. *)
Lemma addItemOffline_again item qty team user overwriteMode e s :
  wf s →
  (∃ i r, list_find (λ r, itemId (deref (heap s) r) = c_id item) (reorderItems s)
            = Some (i, r) ∧ id (deref (heap s) r) ∈ pendingIds s) →
  localOutcome s (addItemOffline item qty team user overwriteMode e s).2
    (itemIds s) (pendingIds s).
Proof.
  intros W Href. rewrite addItemOffline_state.
  destruct (addLocally_again item qty team user overwriteMode e s W Href) as (W' & S & I & P).
  rewrite <- I, <- P. by apply finish_outcome.
Qed.

Lemma summary_local s o s' items pend :
  localOutcome s s' items pend →
  (itemIds s' = items → itemsStep s o s') →
  (pendingIds s' = pend → pendingStep s o s') →
  summary s o s'.
Proof.
  intros Hout Hi Hp. pose proof (localOutcome_storage1 _ _ _ _ Hout) as Hs.
  destruct Hout as (W & I & P & _). split; [done |]. split; [auto |]. split; [auto | done].
Qed.

Lemma summary_addItem item qty team user overwriteMode e s :
  wf s →
  summary s (AddItem item qty team user overwriteMode e)
    (addItem item qty team user overwriteMode e s).2.
Proof.
  intros W. unfold addItem.
  destruct (isOfflineMode s) eqn:Hoff.
  - destruct (addItemOffline_steps item qty team user overwriteMode e s W) as (Href & H).
    set (s1 := (addItemOffline item qty team user overwriteMode e s).2) in *.
    assert (∃ items pend, localOutcome s s1 items pend ∧
              (∀ s2, itemIds s2 = items →
                     itemsStep s (AddItem item qty team user overwriteMode e) s2) ∧
              (∀ s2, pendingIds s2 = pend →
                     pendingStep s (AddItem item qty team user overwriteMode e) s2))
      as (items & pend & Hout & Hi & Hp).
    { unfold itemsStep, pendingStep, mintedIds. rewrite Hoff. clear Href.
      destruct (list_find _ (reorderItems s)) as [[i r]|]; cbv zeta in H.
      - do 2 eexists. split; [exact H |]. split.
        + intros s2 ->. by left.
        + intros s2 Hs2. destruct (queued_cases _ _ _ Hs2); [by left | right; by left].
      - do 2 eexists. split; [exact H |]. split.
        + intros s2 ->. right. right. left. by left.
        + intros s2 ->. right. right. done. }
    unfold tryCatch. fold s1.
    destruct ((addItemOffline item qty team user overwriteMode e s).1).
    + simpl. eapply summary_local; [exact Hout | apply Hi | apply Hp].
    + rewrite addItemFallback_state.
      match goal with |- summary _ _ (addItemOffline _ _ _ ?u _ ?e' _).2 =>
        pose proof (addItemOffline_again item qty team u overwriteMode e'
                      (set_isOfflineMode true s1) (proj1 Hout) Href) as Hout2 end.
      destruct Hout as (W1 & I1 & P1 & S1).
      change (itemIds (set_isOfflineMode true s1)) with (itemIds s1) in Hout2.
      change (pendingIds (set_isOfflineMode true s1)) with (pendingIds s1) in Hout2.
      rewrite I1, P1 in Hout2. apply localOutcome_offline in Hout2.
      eapply summary_local; [| apply Hi | apply Hp].
      eapply localOutcome_again; [| exact Hout2]. exact (conj W1 (conj I1 (conj P1 S1))).
  - destruct (list_find _ _) as [[i r]|] eqn:Hfind.
    + destruct (updateReply e) as [[|]|];
        try (apply summary_keeps; [apply keeps_emit | done]).
      rewrite addItemFallback_state.
      match goal with |- summary _ _ (addItemOffline _ _ _ ?u _ _ ?s1).2 =>
        destruct (addItemOffline_steps item qty team u overwriteMode e s1 W) as (_ & H);
        change (list_find (λ r, itemId (deref (heap s1) r) = c_id item) (reorderItems s1))
          with (list_find (λ r, itemId (deref (heap s) r) = c_id item) (reorderItems s)) in H
      end.
      rewrite Hfind in H.
      eapply summary_local; [exact H | |].
      * intros Hx. left. by rewrite Hx.
      * intros Hp. by eapply pendingStep_queued.
    + destruct (createReply e 0) as [[|]|] eqn:Hreply;
        try (apply summary_keeps; [apply keeps_emit | done]).
      rewrite addItemFallback_state.
      match goal with |- summary _ _ (addItemOffline _ _ _ ?u _ _ ?s1).2 =>
        destruct (addItemOffline_steps item qty team u overwriteMode e s1 W) as (_ & H);
        change (list_find (λ r, itemId (deref (heap s1) r) = c_id item) (reorderItems s1))
          with (list_find (λ r, itemId (deref (heap s) r) = c_id item) (reorderItems s)) in H
      end.
      rewrite Hfind in H.
      assert (mintedIds s (AddItem item qty team user overwriteMode e) = [mintId "offline" e])
        as Hm by (unfold mintedIds; by rewrite Hfind, Hoff, Hreply).
      eapply summary_local; [exact H | |]; unfold itemsStep, pendingStep; rewrite Hm.
      * intros Hx. right. right. left. by left.
      * intros Hx. right. right. done.
Qed.

(** *** [addCustomItem] *)

Lemma addCustomItemFallback_state c e s :
  (addCustomItemFallback c e s).2 =
  (commitCustomItem (newCustomItem c e (set_isOfflineMode true s)) e
     (set_isOfflineMode true s)).2.
Proof. unfold addCustomItemFallback. apply andThen_state. Qed.

Lemma id_newCustomItem c e s : id (newCustomItem c e s) = mintId "custom" e.
Proof. done. Qed.

Lemma summary_addCustomItem c e s :
  wf s → summary s (AddCustomItem c e) (addCustomItem c e s).2.
Proof.
  intros W. unfold addCustomItem.
  destruct (isOfflineMode s) eqn:Hoff.
  - pose proof (commitCustomItem_steps (newCustomItem c e s) e s W) as Hout.
    rewrite id_newCustomItem in Hout.
    unfold tryCatch. rewrite andThen_outcome, andThen_state.
    assert (mintedIds s (AddCustomItem c e) =
            mintId "custom" e ::
            (if is_thrown (commitCustomItem (newCustomItem c e s) e s).1
             then [mintId "custom" (later 4 1 1 0 e)] else [])) as Hm.
    { unfold mintedIds. by rewrite Hoff. }
    set (s1 := (commitCustomItem (newCustomItem c e s) e s).2) in *.
    destruct ((commitCustomItem (newCustomItem c e s) e s).1); cbn [is_thrown] in Hm.
    + eapply summary_local; [exact Hout | |]; unfold itemsStep, pendingStep; rewrite Hm.
      * intros Hx. right. right. left. by right.
      * intros Hx. right. right. done.
    + rewrite addCustomItemFallback_state.
      match goal with |- context [commitCustomItem ?x ?e' ?s2] =>
        pose proof (commitCustomItem_steps x e' s2 (proj1 Hout)) as Hout2;
        set (s3 := (commitCustomItem x e' s2).2) in * end.
      rewrite id_newCustomItem in Hout2.
      apply localOutcome_offline in Hout2.
      pose proof (localOutcome_storage _ _ _ _ _ _ _ Hout Hout2) as Hst.
      destruct Hout as (W1 & I1 & P1 & _).
      change (itemIds (set_isOfflineMode true s1)) with (itemIds s1) in Hout2.
      change (pendingIds (set_isOfflineMode true s1)) with (pendingIds s1) in Hout2.
      rewrite I1, P1 in Hout2. destruct Hout2 as (W2 & I2 & P2 & _).
      split; [done |]. unfold itemsStep, pendingStep. rewrite Hm. split; [| split].
      * right. right. left. right. by rewrite I2.
      * right. right. rewrite P2. by rewrite <- app_assoc.
      * apply Hst. left. change (itemIds (set_isOfflineMode true s1)) with (itemIds s1).
        rewrite I1. by apply sublist_cons.
  - assert (mintedIds s (AddCustomItem c e) =
            match createReply e 0 with
            | Thrown => [mintId "custom" (later 4 1 0 0 e)]
            | Resolved _ => []
            end) as Hm.
    { unfold mintedIds. by rewrite Hoff. }
    destruct (createReply e 0) as [[|]|] eqn:Hreply;
      try (apply summary_keeps; [apply keeps_emit | done]).
    rewrite addCustomItemFallback_state.
    match goal with |- context [commitCustomItem ?x ?e' ?s2] =>
      pose proof (commitCustomItem_steps x e' s2 W) as Hout end.
    rewrite id_newCustomItem in Hout.
    eapply summary_local; [exact Hout | |]; unfold itemsStep, pendingStep; rewrite Hm.
    + intros Hx. right. right. left. by right.
    + intros Hx. right. right. done.
Qed.

(** *** [removeItem] *)

Lemma summary_removeItem target e s :
  wf s → summary s (RemoveItem target e) (removeItem target e s).2.
Proof.
  intros W. unfold removeItem.
  destruct (isOfflineMode s).
  - destruct (removeLocally_steps target e s W) as (items & pend & Hout & Hi & Hp).
    unfold tryCatch. set (s1 := (removeLocally target e s).2) in *.
    destruct ((removeLocally target e s).1).
    + eapply summary_local; [exact Hout | |].
      * intros Hx. left. by rewrite Hx.
      * intros Hx. left. by rewrite Hx.
    + destruct (removeLocally_steps target (later 0 0 1 0 e) (set_isOfflineMode true s1)
                  (proj1 Hout)) as (items2 & pend2 & Hout2 & Hi2 & Hp2).
      apply localOutcome_offline in Hout2.
      pose proof (localOutcome_storage _ _ _ _ _ _ _ Hout Hout2 (or_intror Hi)) as Hst.
      destruct Hout as (W1 & I1 & P1 & _).
      change (itemIds (set_isOfflineMode true s1)) with (itemIds s1) in Hi2.
      change (pendingIds (set_isOfflineMode true s1)) with (pendingIds s1) in Hp2.
      destruct Hout2 as (W2 & I2 & P2 & _).
      split; [done |]. split; [| split; [| done]].
      * left. rewrite I2. etrans; [exact Hi2 |]. by rewrite I1.
      * left. rewrite P2. etrans; [exact Hp2 |]. by rewrite P1.
  - destruct (deleteReply e 0); [apply summary_keeps; [apply keeps_emit | done] |].
    match goal with |- summary _ _ (removeLocally _ _ ?s1).2 =>
      destruct (removeLocally_steps target e s1 W) as (items & pend & Hout & Hi & Hp) end.
    apply localOutcome_offline in Hout.
    eapply (summary_local s); [exact Hout | |].
    + intros Hx. left. by rewrite Hx.
    + intros Hx. left. by rewrite Hx.
Qed.

(** *** [toggleCompletion] *)

Lemma logReorderHistory_arrays x userName s :
  let s' := logReorderHistory x userName s in
  heap s' = heap s ∧ reorderItems s' = reorderItems s ∧
  pendingSyncItems s' = pendingSyncItems s ∧ storage s' = storage s ∧
  isOfflineMode s' = isOfflineMode s.
Proof. unfold logReorderHistory. by destruct (_ && _). Qed.

Lemma keeps_logReorderHistory x userName s : keeps s (logReorderHistory x userName s).
Proof.
  unfold logReorderHistory. destruct (_ && _); [apply keeps_emit | apply keeps_refl].
Qed.

(** The [catch] block of [toggleCompletion], run where the id of the
    record is queued already, keeps the identifiers. *)
Lemma toggleFallback_again target userName e s :
  wf s → target ∈ pendingIds s →
  localOutcome s (toggleFallback target userName e s).2 (itemIds s) (pendingIds s).
Proof.
  intros W Hin. unfold toggleFallback. cbn [heap reorderItems set_isOfflineMode].
  destruct (list_find _ _) as [[i item]|] eqn:Hfind.
  2: { split; [done |]. split; [done |]. split; [done | by left]. }
  destruct (list_find_valid _ _ _ _ _ (proj1 W) Hfind) as (Hvalid & _ & _ & Hid).
  set (s1 := logReorderHistory (deref (heap s) item) userName (set_isOfflineMode true s)).
  pose proof (keeps_logReorderHistory (deref (heap s) item) userName (set_isOfflineMode true s))
    as K. fold s1 in K.
  assert (wf (set_isOfflineMode true s)) as Woff by exact W.
  assert (wf s1) as W1 by by eapply wf_keeps.
  assert (item < length (heap s1)) as Hvalid1 by (destruct K as (_ & -> & _); exact Hvalid).
  destruct (toggleLocally_steps item e s1 W1 Hvalid1) as (Hout & _).
  assert (id (deref (heap s1) item) = target) as Hkey.
  { destruct K as ((_ & Hk) & _). destruct (Hk item Hvalid) as [-> _]. exact Hid. }
  rewrite Hkey in Hout.
  rewrite (itemIds_keeps _ _ K Woff), (pendingIds_keeps _ _ K Woff) in Hout.
  change (itemIds (set_isOfflineMode true s)) with (itemIds s) in Hout.
  change (pendingIds (set_isOfflineMode true s)) with (pendingIds s) in Hout.
  rewrite (bool_decide_eq_true_2 _ Hin), app_nil_r in Hout.
  destruct Hout as (W' & I & P & S). split; [done |]. split; [done |]. split; [done |].
  destruct S as [S | S]; [| by right]. left. rewrite S. by destruct K as (_ & _ & _ & _ & ->).
Qed.

(** The [catch] block of [toggleCompletion] in general. *)
Lemma toggleFallback_steps target userName e s :
  wf s →
  localOutcome s (toggleFallback target userName e s).2 (itemIds s)
    (pendingIds s ++
       (if bool_decide (target ∈ itemIds s) && negb (bool_decide (target ∈ pendingIds s))
        then [target] else [])).
Proof.
  intros W. unfold toggleFallback. cbn [heap reorderItems set_isOfflineMode].
  destruct (list_find _ _) as [[i item]|] eqn:Hfind.
  2: { assert (target ∉ itemIds s) as Hout.
       { intros Hin. apply elem_of_ids_find in Hin as (i & r & Hin). congruence. }
       rewrite (bool_decide_eq_false_2 _ Hout). simpl. rewrite app_nil_r.
       split; [done |]. split; [done |]. split; [done | by left]. }
  assert (target ∈ itemIds s) as Hin by (apply elem_of_ids_find; eauto).
  rewrite (bool_decide_eq_true_2 _ Hin). cbn [andb].
  destruct (list_find_valid _ _ _ _ _ (proj1 W) Hfind) as (Hvalid & _ & _ & Hid).
  set (s1 := logReorderHistory (deref (heap s) item) userName (set_isOfflineMode true s)).
  pose proof (keeps_logReorderHistory (deref (heap s) item) userName (set_isOfflineMode true s))
    as K. fold s1 in K.
  assert (wf (set_isOfflineMode true s)) as Woff by exact W.
  assert (wf s1) as W1 by by eapply wf_keeps.
  assert (item < length (heap s1)) as Hvalid1 by (destruct K as (_ & -> & _); exact Hvalid).
  destruct (toggleLocally_steps item e s1 W1 Hvalid1) as (Hout & _).
  assert (id (deref (heap s1) item) = target) as Hkey.
  { destruct K as ((_ & Hk) & _). destruct (Hk item Hvalid) as [-> _]. exact Hid. }
  rewrite Hkey in Hout.
  rewrite (itemIds_keeps _ _ K Woff), (pendingIds_keeps _ _ K Woff) in Hout.
  change (itemIds (set_isOfflineMode true s)) with (itemIds s) in Hout.
  change (pendingIds (set_isOfflineMode true s)) with (pendingIds s) in Hout.
  assert ((if negb (bool_decide (target ∈ pendingIds s)) then [target] else [])
          = (if bool_decide (target ∈ pendingIds s) then [] else [target])) as ->
    by by destruct (bool_decide (target ∈ pendingIds s)).
  destruct Hout as (W' & I & P & S). split; [done |]. split; [done |]. split; [done |].
  destruct S as [S | S]; [| by right]. left. rewrite S. by destruct K as (_ & _ & _ & _ & ->).
Qed.

Lemma summary_toggleCompletion target userName e s :
  wf s →
  summary s (ToggleCompletion target userName e) (toggleCompletion target userName e s).2.
Proof.
  intros W. unfold toggleCompletion.
  destruct (list_find _ _) as [[i item]|] eqn:Hfind;
    [| apply summary_keeps; [apply keeps_refl | done]].
  destruct (list_find_valid _ _ _ _ _ (proj1 W) Hfind) as (Hvalid & _ & _ & Hid).
  set (s0 := logReorderHistory (deref (heap s) item) userName s).
  pose proof (keeps_logReorderHistory (deref (heap s) item) userName s) as K. fold s0 in K.
  assert (wf s0) as W0 by by eapply wf_keeps.
  assert (item < length (heap s0)) as Hvalid0 by (destruct K as (_ & -> & _); exact Hvalid).
  assert (id (deref (heap s0) item) = target) as Hkey.
  { destruct K as ((_ & Hk) & _). destruct (Hk item Hvalid) as [-> _]. exact Hid. }
  assert (storage s0 = storage s) as Hst0 by by destruct K as (_ & _ & _ & _ & ->).
  assert (∀ s' items pend, localOutcome s0 s' items pend → localOutcome s s' items pend)
    as Hback.
  { intros s' items pend (W' & I & P & S). split; [done |]. split; [done |]. split; [done |].
    destruct S as [S | S]; [left; congruence | by right]. }
  cbv zeta.
  destruct (isOfflineMode s0) eqn:Hoff.
  - destruct (toggleLocally_steps item e s0 W0 Hvalid0) as (Hout & Hin & _).
    rewrite Hkey in Hout, Hin.
    rewrite (itemIds_keeps _ _ K W), (pendingIds_keeps _ _ K W) in Hout.
    apply Hback in Hout.
    unfold tryCatch. set (s1 := (toggleLocally item e s0).2) in *.
    destruct ((toggleLocally item e s0).1).
    + eapply summary_local; [exact Hout | |].
      * intros Hx. left. by rewrite Hx.
      * intros Hp. by eapply pendingStep_queued.
    + pose proof (toggleFallback_again target userName (later 1 0 1 0 e) s1 (proj1 Hout) Hin)
        as Hout2.
      destruct Hout as (W1 & I1 & P1 & S1). rewrite I1, P1 in Hout2.
      eapply summary_local;
        [eapply localOutcome_again; [| exact Hout2]; exact (conj W1 (conj I1 (conj P1 S1))) | |].
      * intros Hx. left. by rewrite Hx.
      * intros Hp. by eapply pendingStep_queued.
  - destruct (updateReply e).
    + apply summary_keeps; [| done]. eapply keeps_trans; [exact K | apply keeps_emit].
    + match goal with |- summary _ _ (toggleFallback _ _ _ ?s1).2 =>
        pose proof (toggleFallback_steps target userName e s1 W0) as Hout end.
      change (itemIds (emit (GqlUpdateCompleted target (negb (completed (deref (heap s) item))))
                s0)) with (itemIds s0) in Hout.
      change (pendingIds (emit (GqlUpdateCompleted target
                (negb (completed (deref (heap s) item)))) s0)) with (pendingIds s0) in Hout.
      rewrite (itemIds_keeps _ _ K W), (pendingIds_keeps _ _ K W) in Hout.
      assert (target ∈ itemIds s) as Hin by (apply elem_of_ids_find; eauto).
      rewrite (bool_decide_eq_true_2 _ Hin) in Hout. cbn [andb] in Hout.
      eapply (summary_local s); [apply Hback; exact Hout | |].
      * intros Hx. left. by rewrite Hx.
      * intros Hp. apply (pendingStep_queued _ _ _ target). rewrite Hp.
        by destruct (bool_decide (target ∈ pendingIds s)).
Qed.

Lemma keeps_handleTeamDataUpdate d e s : keeps s (handleTeamDataUpdate d e s).2.
Proof.
  unfold handleTeamDataUpdate. simpl.
  destruct (attachTeamData _ _ _ _) as [updated h] eqn:Ha.
  pose proof (attachTeamData_extends (d_id d) (teamDataOfItemData d) (reorderItems s) (heap s))
    as [E L].
  rewrite Ha in E, L. simpl in E, L.
  assert (keeps s (set_heap h
            (set_teamDataCache (<[d_id d:=(teamDataOfItemData d, ms (clock e 0))]>
                                  (teamDataCache s)) s))) as K.
  { split; [exact E |]. by repeat split. }
  destruct updated; [| exact K].
  eapply keeps_trans; [exact K | apply keeps_notifyListeners].
Qed.

Lemma run_summary s o : wf s → summary s o (run s o).
Proof.
  intros W. destruct o; simpl.
  - apply (summary_loaded e); [done |]. by apply initialize_loaded.
  - by apply summary_refresh.
  - apply (summary_loaded e); [done |]. by apply manualSync_loaded.
  - by apply summary_addItem.
  - by apply summary_addCustomItem.
  - by apply summary_removeItem.
  - by apply summary_toggleCompletion.
  - apply summary_keeps; [| done]. apply sameButLog_keeps, clearLoop_sameButLog.
  - apply summary_keeps; [| done]. apply keeps_fetchTeamData.
  - apply (summary_loaded e); [done |]. by apply addListener_loaded.
  - apply summary_keeps; [| done]. exact (keeps_refl s).
  - destruct (handleReorderItemCreated_steps newItem e s W) as (W' & S & P & I).
    split; [done |]. split; [| split; [left; by rewrite P | by left]].
    destruct I as [-> | [I1 I2]]; [by left |]. right. left. eauto.
  - destruct (handleReorderItemUpdated_steps updatedItem e s W) as (W' & S & P & I).
    split; [done |]. split; [left; by rewrite I |]. split; [left; by rewrite P | by left].
  - destruct (handleReorderItemDeleted_steps deletedItem e s W) as (W' & S & P & I).
    split; [done |]. split; [by left |]. split; [left; by rewrite P | by left].
  - apply summary_keeps; [| done]. apply keeps_handleTeamDataUpdate.
Qed.

Lemma wf_initial stored : wf (initial stored).
Proof. unfold wf. simpl. repeat split; try apply Forall_nil_2. apply NoDup_nil_2. Qed.

(** In every state of the service, the slots of the arrays hold live
    objects and the slots of the collection hold distinct objects. *)
Lemma reachable_wf s : reachable s → wf s.
Proof.
  induction 1 as [stored | s o _ IH]; [apply wf_initial |].
  by destruct (run_summary s o IH).
Qed.

Lemma reachable_runAll s ops : reachable s → reachable (runAll s ops).
Proof.
  revert s. induction ops as [|o ops IH]; intros s H; [done |].
  simpl. apply IH. by apply reachable_run.
Qed.

(** ** Unique identifiers in the collection *)














(** One [addCustomItem] call is enough when a listener throws: the
    [catch] block builds and commits a second record, under the same id
    when the clock and the random draw read the same. *)
Example catch_block_repeats_id :
  let e := throwing 7 (unreachableAt 1700000000000 "k3x9q2m1z") in
  let s := runAll (initial None) [AddListener 7 e; AddCustomItem tape e] in
  itemIds s = ["custom-1700000000000-k3x9q2m1z"; "custom-1700000000000-k3x9q2m1z"].
Proof. vm_compute. done. Qed.

(** Likewise a bulk answer that repeats an identifier is installed as it
    comes: here the local table returns the same id in two rows. *)
Example repeated_row_repeats_id :
  let row := {| row_id := "r-1"; row_item_id := "ITEM-1"; row_item_name := "Widget";
                row_item_barcode := None; row_item_category := None;
                row_item_price := None; row_quantity := Some 1%float; row_completed := 0;
                row_added_by := "ann"; row_created_at := "2023-11-14T22:00:00.000Z";
                row_updated_at := "2023-11-14T22:00:00.000Z" |} in
  let e := answeringWith [row; row] [] in
  itemIds (run (initial None) (Initialize (Some "ann") e)) = ["r-1"; "r-1"].
Proof. vm_compute. done. Qed.


(** ** What a local block leaves alone *)

Lemma localChange_refl s : localChange s s.
Proof. by repeat split. Qed.

Lemma localChange_trans s1 s2 s3 :
  localChange s1 s2 → localChange s2 s3 → localChange s1 s3.
Proof. intros (?&?&?&?&?&?&?) (?&?&?&?&?&?&?). repeat split; congruence. Qed.

Lemma localChange_saveOfflineItems e s : localChange s (saveOfflineItems e s).
Proof. rewrite saveOfflineItems_eq. destruct (storageSet e 0); by repeat split. Qed.

Lemma localChange_loadOfflineItems e s : localChange s (loadOfflineItems e s).
Proof.
  unfold loadOfflineItems.
  destruct (storageGet e 0); [destruct (storage s) |]; by repeat split.
Qed.

Lemma localChange_queuePending r s : localChange s (queuePending r s).
Proof. unfold queuePending. destruct (list_find _ _) as [[? ?]|]; by repeat split. Qed.

Lemma localChange_addLocally item qty team user overwriteMode e s :
  localChange s (addLocally item qty team user overwriteMode e s).
Proof.
  unfold addLocally. destruct (list_find _ _) as [[i r]|]; [| by repeat split].
  eapply localChange_trans; [| apply localChange_queuePending]. by repeat split.
Qed.

(** A broadcast depends on the listeners and on the number of listener
    calls made so far. *)
Lemma broadcast_local e s s' :
  localChange s s' →
  broadcastThrows e s' = broadcastThrows e s ∧ called e s' = called e s.
Proof.
  intros (L & _ & _ & _ & _ & _ & B). unfold broadcastThrows, called. by rewrite L, B.
Qed.

Lemma broadcast_emit e x s :
  broadcastThrows e (emit x s) = broadcastThrows e s ∧ called e (emit x s) = called e s.
Proof. done. Qed.

Lemma broadcast_offline e b s :
  broadcastThrows e (set_isOfflineMode b s) = broadcastThrows e s ∧
  called e (set_isOfflineMode b s) = called e s.
Proof. done. Qed.

(** The end of a local block: its outcome and its listener calls. *)
Lemma finish_eq e s :
  notifyListeners e (saveOfflineItems e s) =
  (if broadcastThrows e s then Thrown else Resolved (),
   set_broadcasts (broadcasts s ++ ((λ l, (l, reorderItems s)) <$> called e s))
     (saveOfflineItems e s)).
Proof.
  rewrite notifyListeners_eq.
  destruct (broadcast_local e s _ (localChange_saveOfflineItems e s)) as [-> ->].
  rewrite saveOfflineItems_eq. by destruct (storageSet e 0).
Qed.

Lemma finish_reply e s :
  (notifyListeners e (saveOfflineItems e s)).1 =
  if broadcastThrows e s then Thrown else Resolved ().
Proof. by rewrite finish_eq. Qed.

Lemma finish_fields e s :
  let s' := (notifyListeners e (saveOfflineItems e s)).2 in
  listeners s' = listeners s ∧ teamDataCache s' = teamDataCache s ∧
  isInitialized s' = isInitialized s ∧ currentUserId s' = currentUserId s ∧
  isOfflineMode s' = isOfflineMode s ∧ log s' = log s ∧
  broadcasts s' = broadcasts s ++ ((λ l, (l, reorderItems s)) <$> called e s) ∧
  storage s' = snapshotAfter e (records (heap s) (reorderItems s)) (storage s).
Proof.
  rewrite finish_eq, saveOfflineItems_eq. unfold snapshotAfter.
  by destruct (storageSet e 0).
Qed.

(** *** The outcomes of the local blocks *)

Lemma addItemOffline_reply item qty team user overwriteMode e s :
  (addItemOffline item qty team user overwriteMode e s).1 =
  if broadcastThrows e s then Thrown else Resolved true.
Proof.
  unfold addItemOffline. rewrite andThen_outcome, finish_reply.
  destruct (broadcast_local e s _ (localChange_addLocally item qty team user overwriteMode e s))
    as [-> _].
  by destruct (broadcastThrows e s).
Qed.

Lemma toggleLocally_reply item e s :
  (toggleLocally item e s).1 = if broadcastThrows e s then Thrown else Resolved ().
Proof.
  unfold toggleLocally. rewrite finish_reply.
  match goal with |- context [queuePending item ?s1] =>
    destruct (broadcast_local e s1 _ (localChange_queuePending item s1)) as [-> _] end.
  done.
Qed.

Lemma removeLocally_reply target e s :
  (removeLocally target e s).1 =
  if bool_decide (target ∈ itemIds s) && broadcastThrows e s then Thrown else Resolved ().
Proof.
  unfold removeLocally. destruct (list_find _ _) as [[i r]|] eqn:Hfind.
  - assert (target ∈ itemIds s) as Hin by (apply elem_of_ids_find; eauto).
    rewrite (bool_decide_eq_true_2 _ Hin). cbv zeta. by rewrite finish_reply.
  - assert (target ∉ itemIds s) as Hout.
    { intros Hin. apply elem_of_ids_find in Hin as (i & r & Hin). congruence. }
    by rewrite (bool_decide_eq_false_2 _ Hout).
Qed.

Lemma commitCustomItem_reply x e s :
  (commitCustomItem x e s).1 = if broadcastThrows e s then Thrown else Resolved ().
Proof. unfold commitCustomItem, alloc. cbv zeta. by rewrite finish_reply. Qed.

(** *** The fields that the local blocks keep *)

Lemma addItemOffline_fields item qty team user overwriteMode e s :
  let s' := (addItemOffline item qty team user overwriteMode e s).2 in
  listeners s' = listeners s ∧ teamDataCache s' = teamDataCache s ∧
  isInitialized s' = isInitialized s ∧ currentUserId s' = currentUserId s ∧
  isOfflineMode s' = isOfflineMode s ∧ log s' = log s.
Proof.
  intros s'. subst s'. rewrite addItemOffline_state.
  destruct (finish_fields e (addLocally item qty team user overwriteMode e s))
    as (-> & -> & -> & -> & -> & -> & _).
  destruct (localChange_addLocally item qty team user overwriteMode e s)
    as (-> & -> & -> & -> & -> & -> & _).
  done.
Qed.

Lemma toggleLocally_fields item e s :
  let s' := (toggleLocally item e s).2 in
  listeners s' = listeners s ∧ teamDataCache s' = teamDataCache s ∧
  isInitialized s' = isInitialized s ∧ currentUserId s' = currentUserId s ∧
  isOfflineMode s' = isOfflineMode s ∧ log s' = log s.
Proof.
  intros s'. subst s'. unfold toggleLocally. cbv zeta.
  match goal with |- context [saveOfflineItems e ?s1] =>
    destruct (finish_fields e s1) as (-> & -> & -> & -> & -> & -> & _) end.
  match goal with |- context [queuePending item ?s1] =>
    destruct (localChange_queuePending item s1) as (-> & -> & -> & -> & -> & -> & _) end.
  done.
Qed.

Lemma removeLocally_fields target e s :
  let s' := (removeLocally target e s).2 in
  listeners s' = listeners s ∧ teamDataCache s' = teamDataCache s ∧
  isInitialized s' = isInitialized s ∧ currentUserId s' = currentUserId s ∧
  isOfflineMode s' = isOfflineMode s ∧ log s' = log s.
Proof.
  intros s'. subst s'. unfold removeLocally.
  destruct (list_find _ _) as [[i r]|]; [| done]. cbv zeta.
  match goal with |- context [saveOfflineItems e ?s1] =>
    destruct (finish_fields e s1) as (-> & -> & -> & -> & -> & -> & _) end.
  done.
Qed.

Lemma commitCustomItem_fields x e s :
  let s' := (commitCustomItem x e s).2 in
  listeners s' = listeners s ∧ teamDataCache s' = teamDataCache s ∧
  isInitialized s' = isInitialized s ∧ currentUserId s' = currentUserId s ∧
  isOfflineMode s' = isOfflineMode s ∧ log s' = log s.
Proof.
  intros s'. subst s'. unfold commitCustomItem, alloc. cbv zeta.
  match goal with |- context [saveOfflineItems e ?s1] =>
    destruct (finish_fields e s1) as (-> & -> & -> & -> & -> & -> & _) end.
  done.
Qed.

Lemma logReorderHistory_fields x userName s :
  let s' := logReorderHistory x userName s in
  heap s' = heap s ∧ reorderItems s' = reorderItems s ∧
  pendingSyncItems s' = pendingSyncItems s ∧ storage s' = storage s ∧
  listeners s' = listeners s ∧ teamDataCache s' = teamDataCache s ∧
  isInitialized s' = isInitialized s ∧ currentUserId s' = currentUserId s ∧
  isOfflineMode s' = isOfflineMode s ∧ broadcasts s' = broadcasts s.
Proof. unfold logReorderHistory. by destruct (_ && _). Qed.

Lemma broadcast_logReorderHistory e x userName s :
  broadcastThrows e (logReorderHistory x userName s) = broadcastThrows e s ∧
  called e (logReorderHistory x userName s) = called e s.
Proof. unfold logReorderHistory. by destruct (_ && _). Qed.

(** *** The record of a local mutation *)

(** After the queueing fragment, the entries keyed like the record are
    copies of the record. *)
Lemma queuePending_entry item s :
  wf s → item < length (heap s) → NoDup (pendingIds s) →
  let s' := queuePending item s in
  ∀ p, p ∈ pendingSyncItems s' →
       id (deref (heap s') p) = id (deref (heap s) item) →
       deref (heap s') p = deref (heap s) item.
Proof.
  intros (W1 & W2 & W3) Hitem N s' p. subst s'. unfold queuePending, clone, alloc.
  destruct (list_find _ _) as [[i p0]|] eqn:Hfind; simpl.
  - apply list_find_Some in Hfind as (Hp0 & Hkey & _).
    intros Hin Hid. apply list_elem_of_lookup in Hin as [j Hj].
    destruct (decide (i = j)) as [<-|Hne].
    + rewrite list_lookup_insert_eq in Hj by by eapply lookup_lt_Some.
      injection Hj as <-. apply deref_alloc_new.
    + rewrite list_lookup_insert_ne in Hj by done.
      assert (p < length (heap s)) as Hp.
      { rewrite Forall_forall in W2. apply W2. by eapply list_elem_of_lookup_2. }
      rewrite deref_app_old in Hid by done. exfalso. apply Hne.
      eapply NoDup_lookup; [exact N | |].
      * unfold pendingIds. rewrite (ids_lookup _ _ _ _ Hp0). by rewrite Hkey.
      * unfold pendingIds. rewrite (ids_lookup _ _ _ _ Hj). by rewrite Hid.
  - apply list_find_None in Hfind. intros Hin Hid.
    apply elem_of_app in Hin as [Hin | Hin].
    + assert (p < length (heap s)) as Hp.
      { rewrite Forall_forall in W2. by apply W2. }
      rewrite deref_app_old in Hid by done.
      rewrite Forall_forall in Hfind. by destruct (Hfind p Hin).
    + apply list_elem_of_singleton in Hin. subst p. apply deref_alloc_new.
Qed.

(** The objects that the queueing fragment found are the ones it leaves. *)
Lemma queuePending_heap item s r :
  r < length (heap s) → deref (heap (queuePending item s)) r = deref (heap s) r.
Proof.
  intros Hr. unfold queuePending, clone, alloc.
  destruct (list_find _ _) as [[i p0]|]; simpl; by rewrite deref_app_old.
Qed.

Lemma mutate_and_queue f g item s :
  (∀ x, id (f x) = id x) → (∀ x, itemId (f x) = itemId x) →
  (∀ x, id (g x) = id x) → (∀ x, itemId (g x) = itemId x) →
  wf s → item < length (heap s) →
  let s' := queuePending item (set_heap (assign g item (assign f item (heap s))) s) in
  deref (heap s') item = g (f (deref (heap s) item)) ∧
  (∀ r, r ≠ item → r < length (heap s) → deref (heap s') r = deref (heap s) r) ∧
  (NoDup (pendingIds s) →
   ∀ p, p ∈ pendingSyncItems s' → id (deref (heap s') p) = id (deref (heap s) item) →
        deref (heap s') p = deref (heap s') item).
Proof.
  intros Hf1 Hf2 Hg1 Hg2 W Hitem s'.
  set (s1 := set_heap (assign g item (assign f item (heap s))) s) in *.
  assert (keeps s s1) as K.
  { eapply keeps_trans; [apply (keeps_assign f item s Hf1 Hf2) |].
    apply (keeps_assign g item (set_heap (assign f item (heap s)) s) Hg1 Hg2). }
  assert (wf s1) as W1 by by eapply wf_keeps.
  assert (length (heap s1) = length (heap s)) as L1 by by destruct K as (_ & -> & _).
  assert (item < length (heap s1)) as Hitem1 by by rewrite L1.
  assert (deref (heap s1) item = g (f (deref (heap s) item))) as Hd1.
  { simpl. rewrite deref_assign_same by by rewrite length_assign.
    by rewrite deref_assign_same. }
  assert (deref (heap s') item = g (f (deref (heap s) item))) as Hd.
  { unfold s'. rewrite queuePending_heap by done. exact Hd1. }
  split; [exact Hd |]. split.
  - intros r Hne Hr. unfold s'. rewrite queuePending_heap by by rewrite L1.
    simpl. by rewrite !deref_assign_other.
  - intros N p Hin Hid. rewrite Hd, <- Hd1.
    apply (queuePending_entry item s1 W1 Hitem1); [| done |].
    + by rewrite (pendingIds_keeps s s1 K W).
    + etrans; [exact Hid |]. rewrite Hd1. by rewrite Hg1, Hf1.
Qed.

(** The local toggle of a record. *)
Lemma toggleLocally_record item e s :
  wf s → item < length (heap s) →
  let s' := (toggleLocally item e s).2 in
  deref (heap s') item =
    with_updatedAt (iso (clock e 0))
      (with_completed (negb (completed (deref (heap s) item))) (deref (heap s) item)) ∧
  (∀ r, r ≠ item → r < length (heap s) → deref (heap s') r = deref (heap s) r) ∧
  (NoDup (pendingIds s) →
   ∀ p, p ∈ pendingSyncItems s' → id (deref (heap s') p) = id (deref (heap s) item) →
        deref (heap s') p = deref (heap s') item).
Proof.
  intros W Hitem s'. subst s'. unfold toggleLocally. cbv zeta.
  match goal with |- context [queuePending _ (set_heap (assign ?g _ (assign ?f _ _)) _)] =>
    destruct (mutate_and_queue f g item s) as (Hd & Ho & He);
      [done | done | done | done | done | done |];
    set (s0 := queuePending item (set_heap (assign g item (assign f item (heap s))) s)) in *
  end.
  destruct (finish_arrays e s0) as (Fh & Fr & Fp). rewrite Fh, Fp. done.
Qed.

(** The local addition for a source item that a record references. *)
Lemma addLocally_record item qty team user overwriteMode e s i r :
  wf s →
  list_find (λ r, itemId (deref (heap s) r) = c_id item) (reorderItems s) = Some (i, r) →
  let s' := addLocally item qty team user overwriteMode e s in
  deref (heap s') r =
    with_updatedAt (iso (clock e 0))
      (with_quantity
         (Some (mergedQuantity overwriteMode (quantity (deref (heap s) r)) qty))
         (deref (heap s) r)) ∧
  (∀ r', r' ≠ r → r' < length (heap s) → deref (heap s') r' = deref (heap s) r') ∧
  (NoDup (pendingIds s) →
   ∀ p, p ∈ pendingSyncItems s' → id (deref (heap s') p) = id (deref (heap s) r) →
        deref (heap s') p = deref (heap s') r).
Proof.
  intros W Hfind s'. subst s'. unfold addLocally. rewrite Hfind. cbv zeta.
  destruct (list_find_valid _ _ _ _ _ (proj1 W) Hfind) as (Hvalid & _).
  match goal with |- context [queuePending _ (set_heap (assign ?g _ (assign ?f _ _)) _)] =>
    destruct (mutate_and_queue f g r s) as (Hd & Ho & He);
      [done | done | done | done | done | done |] end.
  done.
Qed.

Lemma addItemOffline_record item qty team user overwriteMode e s i r :
  wf s →
  list_find (λ r, itemId (deref (heap s) r) = c_id item) (reorderItems s) = Some (i, r) →
  let s' := (addItemOffline item qty team user overwriteMode e s).2 in
  deref (heap s') r =
    with_updatedAt (iso (clock e 0))
      (with_quantity
         (Some (mergedQuantity overwriteMode (quantity (deref (heap s) r)) qty))
         (deref (heap s) r)) ∧
  (∀ r', r' ≠ r → r' < length (heap s) → deref (heap s') r' = deref (heap s) r') ∧
  (NoDup (pendingIds s) →
   ∀ p, p ∈ pendingSyncItems s' → id (deref (heap s') p) = id (deref (heap s) r) →
        deref (heap s') p = deref (heap s') r) ∧
  list_find (λ r, itemId (deref (heap s') r) = c_id item) (reorderItems s') = Some (i, r) ∧
  reorderItems s' = reorderItems s ∧
  wf s' ∧ itemIds s' = itemIds s ∧
  pendingIds s' =
    pendingIds s ++ (if bool_decide (id (deref (heap s) r) ∈ pendingIds s)
                     then [] else [id (deref (heap s) r)]) ∧
  id (deref (heap s) r) ∈ pendingIds s'.
Proof.
  intros W Hfind s'. subst s'. rewrite addItemOffline_state.
  destruct (addLocally_record item qty team user overwriteMode e s i r W Hfind)
    as (Hd & Ho & He).
  destruct (addLocally_steps item qty team user overwriteMode e s W)
    as (W' & S & E & Href & H).
  rewrite Hfind in H. cbv zeta in H. destruct H as (Hr & Hfind' & I & P).
  set (a := addLocally item qty team user overwriteMode e s) in *.
  destruct (finish_arrays e a) as (Fh & Fr & Fp).
  unfold wf, itemIds, pendingIds in *. rewrite Fh, Fr, Fp.
  split; [done |]. split; [done |]. split; [done |]. split; [done |]. split; [done |].
  split; [done |]. split; [done |]. split; [done |].
  rewrite P. case_bool_decide; [by rewrite app_nil_r |].
  apply elem_of_app. right. apply list_elem_of_here.
Qed.

(** ** One pending entry per identifier *)



(** *** The two attempts of an offline mutation *)

(** Offline, [toggleCompletion] of a listed id toggles the record; when a
    listener throws in the broadcast, the [catch] block runs on the state
    that the first attempt left. *)
Lemma toggleCompletion_offline_eq target userName e s i r :
  isOfflineMode s = true →
  list_find (λ r, id (deref (heap s) r) = target) (reorderItems s) = Some (i, r) →
  toggleCompletion target userName e s =
  let s1 := (toggleLocally r e (logReorderHistory (deref (heap s) r) userName s)).2 in
  if broadcastThrows e s
  then toggleFallback target userName (later 1 0 1 0 e) s1
  else (Resolved (), s1).
Proof.
  intros Hoff Hfind. unfold toggleCompletion. rewrite Hfind. cbv zeta.
  destruct (logReorderHistory_fields (deref (heap s) r) userName s)
    as (_ & _ & _ & _ & _ & _ & _ & _ & -> & _).
  rewrite Hoff. unfold tryCatch. rewrite toggleLocally_reply.
  destruct (broadcast_logReorderHistory e (deref (heap s) r) userName s) as [-> _].
  by destruct (broadcastThrows e s).
Qed.

Lemma toggleFallback_eq target userName e s i r :
  list_find (λ r, id (deref (heap s) r) = target) (reorderItems s) = Some (i, r) →
  toggleFallback target userName e s =
  toggleLocally r e (logReorderHistory (deref (heap s) r) userName (set_isOfflineMode true s)).
Proof. intros Hfind. unfold toggleFallback. cbn [heap reorderItems set_isOfflineMode]. by rewrite Hfind. Qed.

(** A record found by its id is found again after a local toggle. *)
Lemma toggleLocally_find target item e s i r :
  wf s → item < length (heap s) →
  list_find (λ r, id (deref (heap s) r) = target) (reorderItems s) = Some (i, r) →
  let s' := (toggleLocally item e s).2 in
  list_find (λ r, id (deref (heap s') r) = target) (reorderItems s') = Some (i, r).
Proof.
  intros W Hitem Hfind s'.
  destruct (toggleLocally_steps item e s W Hitem) as (_ & _ & E & Hr).
  fold s' in E, Hr. rewrite Hr, <- Hfind.
  apply list_find_id_extends; [exact E | apply W].
Qed.

(** A local toggle in a state reached through [logReorderHistory]. *)
Lemma toggleLocally_after_history x userName item e s :
  wf s → item < length (heap s) →
  let s' := (toggleLocally item e (logReorderHistory x userName s)).2 in
  wf s' ∧ reorderItems s' = reorderItems s ∧ extends (heap s) (heap s') ∧
  itemIds s' = itemIds s ∧
  pendingIds s' =
    pendingIds s ++ (if bool_decide (id (deref (heap s) item) ∈ pendingIds s)
                     then [] else [id (deref (heap s) item)]) ∧
  id (deref (heap s) item) ∈ pendingIds s' ∧
  deref (heap s') item =
    with_updatedAt (iso (clock e 0))
      (with_completed (negb (completed (deref (heap s) item))) (deref (heap s) item)) ∧
  (∀ r, r ≠ item → r < length (heap s) → deref (heap s') r = deref (heap s) r) ∧
  (NoDup (pendingIds s) →
   ∀ p, p ∈ pendingSyncItems s' → id (deref (heap s') p) = id (deref (heap s) item) →
        deref (heap s') p = deref (heap s') item).
Proof.
  intros W Hitem s'. subst s'.
  set (s0 := logReorderHistory x userName s).
  destruct (logReorderHistory_fields x userName s) as (H0 & R0 & P0 & _). fold s0 in H0, R0, P0.
  assert (wf s0) as W0 by (unfold wf; by rewrite H0, R0, P0).
  assert (item < length (heap s0)) as Hitem0 by by rewrite H0.
  assert (itemIds s0 = itemIds s) as I0 by (unfold itemIds; by rewrite H0, R0).
  assert (pendingIds s0 = pendingIds s) as Q0 by (unfold pendingIds; by rewrite H0, P0).
  destruct (toggleLocally_steps item e s0 W0 Hitem0) as ((W' & I & P & _) & Hin & E & Hr).
  destruct (toggleLocally_record item e s0 W0 Hitem0) as (Hd & Ho & He).
  rewrite H0 in *. rewrite I0 in I. rewrite Q0 in P, He. rewrite R0 in Hr.
  done.
Qed.



(** One [addCustomItem] call is enough when a listener throws: the
    [catch] block queues a second record, under the same id when the
    clock and the random draw read the same. *)
Example catch_block_repeats_pending_key :
  let e := throwing 7 (unreachableAt 1700000000000 "k3x9q2m1z") in
  let s := runAll (initial None) [AddListener 7 e; AddCustomItem tape e] in
  pendingIds s = ["custom-1700000000000-k3x9q2m1z"; "custom-1700000000000-k3x9q2m1z"].
Proof. vm_compute. done. Qed.


(** ** [addItem] on a source item that a record references *)

Lemma addItemFallback_reply item qty team user overwriteMode e s :
  (addItemFallback item qty team user overwriteMode e s).1 =
  if broadcastThrows e s then Thrown else Resolved true.
Proof. rewrite addItemFallback_outcome, addItemOffline_reply. done. Qed.

(** C3, as the code has it.  In every state of the service, when a record
    references the source item, [addItem] addresses the first such
    record.  Quantities are JavaScript numbers, and the sum is the sum of
    numbers.
    - On the offline branch, and online when the update call throws, when
      no listener throws in the broadcast: the record's quantity becomes
      the old quantity plus [qty], or [qty] when the overwrite flag is
      set; its update timestamp becomes the current reading of the clock;
      no other field of the record and no slot of the collection changes;
      the caller gets [true].
    - Online when the update call throws and a listener throws in the
      broadcast: the record is changed in the same way, and the call is
      rejected.
    - On the offline branch when a listener throws in the broadcast: the
      [catch] block makes the addition a second time, on the record as
      the first attempt left it, with the next reading of the clock; the
      call is rejected when a listener throws in the second broadcast
      too, and the caller gets [true] otherwise.
    - Online, when the update call is answered, the collection and its
      records are as before; the only effect is the update request for the
      record's id with that new quantity, and the caller gets [true] or
      [false] with the answer having data or not. *)
Theorem addItem_on_referenced_item (s : State) (item : ConvertedItem) (qty : number)
    (team : option TeamData) (user : string) (overwriteMode : bool) (e : Env) (i r : nat) :
  reachable s →
  list_find (λ r, itemId (deref (heap s) r) = c_id item) (reorderItems s) = Some (i, r) →
  let old := deref (heap s) r in
  let merged := if overwriteMode then qty else PrimFloat.add (num_or_zero (quantity old)) qty in
  let out := addItem item qty team user overwriteMode e s in
  (isOfflineMode s = true ∨ updateReply e = Thrown →
   broadcastThrows e s = false →
   out.1 = Resolved true ∧ reorderItems out.2 = reorderItems s ∧
   deref (heap out.2) r = with_updatedAt (iso (clock e 0)) (with_quantity (Some merged) old) ∧
   quantity (deref (heap out.2) r) = Some merged ∧
   updatedAt (deref (heap out.2) r) = iso (clock e 0)) ∧
  (isOfflineMode s = false → updateReply e = Thrown →
   broadcastThrows e s = true →
   out.1 = Thrown ∧ reorderItems out.2 = reorderItems s ∧
   deref (heap out.2) r = with_updatedAt (iso (clock e 0)) (with_quantity (Some merged) old)) ∧
  (isOfflineMode s = true →
   broadcastThrows e s = true →
   let first := addItemOffline item qty team user overwriteMode e s in
   let again := if overwriteMode then qty else PrimFloat.add merged qty in
   first.1 = Thrown ∧
   deref (heap first.2) r = with_updatedAt (iso (clock e 0)) (with_quantity (Some merged) old) ∧
   out.1 = (if broadcastThrows e first.2 then Thrown else Resolved true) ∧
   reorderItems out.2 = reorderItems s ∧
   deref (heap out.2) r = with_updatedAt (iso (clock e 1)) (with_quantity (Some again) old)) ∧
  (isOfflineMode s = false →
   ∀ answered, updateReply e = Resolved answered →
     out = (Resolved answered, emit (GqlUpdateQuantity (id old) merged) s)).
Proof.
  intros Hreach Hfind old merged out.
  pose proof (reachable_wf s Hreach) as W.
  assert (merged = mergedQuantity overwriteMode (quantity old) qty) as Hmerged by done.
  split; [| split; [| split]].
  - intros Hlocal Hquiet. subst out. unfold addItem. rewrite Hfind.
    destruct (isOfflineMode s) eqn:Hoff.
    + unfold tryCatch. rewrite addItemOffline_reply, Hquiet. cbn [fst snd].
      destruct (addItemOffline_record item qty team user overwriteMode e s i r W Hfind)
        as (Hd & _ & _ & _ & Hr & _).
      rewrite Hd, Hr, Hmerged. done.
    + destruct Hlocal as [? | ->]; [done |]. cbv zeta.
      rewrite addItemFallback_reply, addItemFallback_state.
      match goal with |- context [broadcastThrows e ?s1] =>
        change (broadcastThrows e s1) with (broadcastThrows e s) end.
      rewrite Hquiet.
      match goal with |- context [addItemOffline _ _ _ ?u _ _ ?s1] =>
        destruct (addItemOffline_record item qty team u overwriteMode e s1 i r W Hfind)
          as (Hd & _ & _ & _ & Hr & _) end.
      rewrite Hd, Hr, Hmerged. done.
  - intros Hoff Hreply Hthrows. subst out. unfold addItem.
    rewrite Hfind, Hoff, Hreply. cbv zeta.
    rewrite addItemFallback_reply, addItemFallback_state.
    match goal with |- context [broadcastThrows e ?s1] =>
      change (broadcastThrows e s1) with (broadcastThrows e s) end.
    rewrite Hthrows.
    match goal with |- context [addItemOffline _ _ _ ?u _ _ ?s1] =>
      destruct (addItemOffline_record item qty team u overwriteMode e s1 i r W Hfind)
        as (Hd & _ & _ & _ & Hr & _) end.
    rewrite Hd, Hr, Hmerged. done.
  - intros Hoff Hthrows first again.
    destruct (addItemOffline_record item qty team user overwriteMode e s i r W Hfind)
      as (Hd1 & _ & _ & Hfind1 & Hr1 & W1 & _).
    fold first in Hd1, Hfind1, Hr1, W1.
    assert (first.1 = Thrown) as Hfirst.
    { unfold first. by rewrite addItemOffline_reply, Hthrows. }
    split; [exact Hfirst |]. split; [by rewrite Hd1, Hmerged |].
    assert (out = addItemFallback item qty team user overwriteMode (later 1 0 1 0 e) first.2)
      as ->.
    { unfold out, addItem. rewrite Hoff, Hfind. unfold tryCatch. fold first.
      by rewrite Hfirst. }
    rewrite addItemFallback_reply, addItemFallback_state.
    rewrite broadcastThrows_later.
    destruct (addItemOffline_record item qty team (str_or (Some user) "Unknown User")
                overwriteMode (later 1 0 1 0 e) (set_isOfflineMode true first.2) i r W1 Hfind1)
      as (Hd2 & _ & _ & _ & Hr2 & _).
    cbn [heap reorderItems set_isOfflineMode] in Hd2, Hr2.
    split; [done |]. split; [by rewrite Hr2, Hr1 |].
    rewrite Hd2, Hd1. unfold again. rewrite Hmerged. by destruct overwriteMode.
  - intros Honline answered Hreply. subst out. unfold addItem.
    rewrite Honline, Hfind, Hreply. by destruct answered.
Qed.

(** The claim that the record is updated on the online branch too fails:
    the session is online, the update is confirmed, and the record still
    shows quantity 2 (not 2 + 3) and its old timestamp. *)
Lemma online_addItem_leaves_record :
  let e := confirmingAt 1700000000123 "k3x9q2m1z" in
  let s := run (initial None) (RemoteCreated (announced "r-1" "ITEM-1" 2) e) in
  let out := addItem widget 3 None "ann" false e s in
  isOfflineMode s = false ∧ itemId (deref (heap s) 0) = c_id widget ∧
  quantity (deref (heap s) 0) = Some 2%float ∧
  out.1 = Resolved true ∧ reorderItems out.2 = reorderItems s ∧
  quantity (deref (heap out.2) 0) = Some 2%float ∧
  updatedAt (deref (heap out.2) 0) = updatedAt (deref (heap s) 0).
Proof. vm_compute. done. Qed.

(** Offline, with a listener that throws at every call: three widgets on
    the list, two more added, and the list shows seven; the call is
    rejected. *)
Example offline_addItem_merges_twice :
  let e := throwing 7 (unreachableAt 1700000000456 "p0o9i8u7y") in
  let s := runAll (initial None)
             [Initialize None (unreachableAt 1700000000000 "k3x9q2m1z");
              AddItem widget 3 None "ann" false (unreachableAt 1700000000123 "k3x9q2m1z");
              AddListener 7 (unreachableAt 1700000000200 "k3x9q2m1z")] in
  let out := addItem widget 2 None "ann" false e s in
  isOfflineMode s = true ∧ quantity (deref (heap s) 0) = Some 3%float ∧
  out.1 = Thrown ∧ quantity (deref (heap out.2) 0) = Some 7%float.
Proof. vm_compute. done. Qed.

(** Offline, three widgets on the list, two more added. *)
Lemma addItem_on_referenced_item_witness :
  let s := runAll (initial None)
             [Initialize None (unreachableAt 1700000000000 "k3x9q2m1z");
              AddItem widget 3 None "ann" false (unreachableAt 1700000000123 "k3x9q2m1z")] in
  let e := unreachableAt 1700000000456 "p0o9i8u7y" in
  let out := addItem widget 2 None "ann" false e s in
  reachable s ∧
  list_find (λ r, itemId (deref (heap s) r) = c_id widget) (reorderItems s) = Some (0, 0) ∧
  isOfflineMode s = true ∧
  quantity (deref (heap s) 0) = Some 3%float ∧
  quantity (deref (heap out.2) 0) = Some 5%float ∧
  updatedAt (deref (heap out.2) 0) = iso (clock e 0).
Proof.
  intros s e out.
  assert (reachable s) as Hreach by apply reachable_runAll, reachable_initial.
  assert (list_find (λ r, itemId (deref (heap s) r) = c_id widget) (reorderItems s)
          = Some (0, 0)) as Hfind by (vm_compute; reflexivity).
  assert (isOfflineMode s = true) as Hoff by (vm_compute; reflexivity).
  destruct (addItem_on_referenced_item s widget 2%float None "ann" false e 0 0 Hreach Hfind)
    as [Hlocal _].
  destruct (Hlocal (or_introl Hoff) ltac:(vm_compute; reflexivity)) as (_ & _ & _ & Hq & Hu).
  split; [exact Hreach |]. split; [exact Hfind |]. split; [exact Hoff |].
  split; [vm_compute; reflexivity |]. split; [| exact Hu].
  etrans; [exact Hq | vm_compute; reflexivity].
Defined.

(** ** Falling back to the offline path *)

Lemma addCustomItemFallback_reply c e s :
  (addCustomItemFallback c e s).1 = if broadcastThrows e s then Thrown else Resolved true.
Proof.
  unfold addCustomItemFallback. cbv zeta. rewrite andThen_outcome, commitCustomItem_reply.
  change (broadcastThrows e (set_isOfflineMode true s)) with (broadcastThrows e s).
  by destruct (broadcastThrows e s).
Qed.

(** C5, as the code has it.  In online mode, a failure of the remote call
    of [addItem] or of [addCustomItem] is an exception or an answer
    without data.
    - When the call throws, the operation ends as the same operation run
      on the offline path: the session is switched to offline mode and no
      further remote call is made; for [addItem] the result is what the
      offline branch computes on that session (with an empty user name
      replaced by the default), the source item is referenced by a record
      of the collection and the id of that record is queued; for
      [addCustomItem] a record with a newly minted id is put first in the
      collection and last in the queue.  The caller gets [true] when no
      listener throws in the broadcast, and the call is rejected when one
      does.
    - When the call is answered without data, the caller gets [false];
      the session stays online and nothing is committed locally. *)
Theorem online_failure_runs_offline_path (e : Env) (s : State) :
  reachable s →
  isOfflineMode s = false →
  (∀ item qty team user overwriteMode,
     addItemReply item e s = Thrown →
     let out := addItem item qty team user overwriteMode e s in
     let offline :=
       set_isOfflineMode true (emit (addItemCall item qty user overwriteMode s) s) in
     out = addItemOffline item qty team (str_or (Some user) "Unknown User")
             overwriteMode e offline ∧
     out.1 = (if broadcastThrows e s then Thrown else Resolved true) ∧
     isOfflineMode out.2 = true ∧
     log out.2 = addItemCall item qty user overwriteMode s :: log s ∧
     ∃ i r, list_find (λ r, itemId (deref (heap out.2) r) = c_id item) (reorderItems out.2)
              = Some (i, r) ∧ id (deref (heap out.2) r) ∈ pendingIds out.2) ∧
  (∀ c,
     createReply e 0 = Thrown →
     let out := addCustomItem c e s in
     let customId := mintId "custom" (later 4 1 0 0 e) in
     out.1 = (if broadcastThrows e s then Thrown else Resolved true) ∧
     isOfflineMode out.2 = true ∧
     log out.2 = GqlCreateReorderItem (createInputOfCustom (mintId "custom" e) c) :: log s ∧
     itemIds out.2 = customId :: itemIds s ∧
     pendingIds out.2 = pendingIds s ++ [customId]) ∧
  (∀ item qty team user overwriteMode,
     addItemReply item e s = Resolved false →
     addItem item qty team user overwriteMode e s =
       (Resolved false, emit (addItemCall item qty user overwriteMode s) s)) ∧
  (∀ c,
     createReply e 0 = Resolved false →
     addCustomItem c e s =
       (Resolved false,
        emit (GqlCreateReorderItem (createInputOfCustom (mintId "custom" e) c)) s)).
Proof.
  intros Hreach Honline. pose proof (reachable_wf s Hreach) as W.
  split; [| split; [| split]].
  - intros item qty team user overwriteMode Hthrown out offline.
    assert (out = addItemOffline item qty team (str_or (Some user) "Unknown User")
                    overwriteMode e offline) as Heq.
    { unfold out, addItem, addItemReply, addItemCall in *. subst offline.
      rewrite Honline.
      destruct (list_find _ _) as [[i existingItem]|]; rewrite Hthrown; reflexivity. }
    split; [exact Heq |]. rewrite Heq.
    destruct (addItemOffline_fields item qty team (str_or (Some user) "Unknown User")
                overwriteMode e offline) as (_ & _ & _ & _ & -> & ->).
    rewrite addItemOffline_reply.
    split; [done |]. split; [done |]. split; [done |].
    assert (wf offline) as Woff by exact W.
    by destruct (addItemOffline_steps item qty team (str_or (Some user) "Unknown User")
                   overwriteMode e offline Woff) as [Href _].
  - intros c Hthrown out customId.
    set (call := GqlCreateReorderItem (createInputOfCustom (mintId "custom" e) c)).
    assert (out = addCustomItemFallback c (later 4 1 0 0 e) (emit call s)) as Heq.
    { unfold out, addCustomItem. by rewrite Honline, Hthrown. }
    rewrite Heq, addCustomItemFallback_reply, addCustomItemFallback_state.
    rewrite broadcastThrows_later.
    match goal with |- context [commitCustomItem ?x ?e' ?s1] =>
      destruct (commitCustomItem_fields x e' s1) as (_ & _ & _ & _ & -> & ->);
      destruct (commitCustomItem_steps x e' s1 W) as (_ & -> & -> & _) end.
    done.
  - intros item qty team user overwriteMode Hreply.
    unfold addItem, addItemReply, addItemCall in *. rewrite Honline.
    destruct (list_find _ _) as [[i existingItem]|]; by rewrite Hreply.
  - intros c Hreply. unfold addCustomItem. by rewrite Honline, Hreply.
Qed.

(** A failure of the remote call can reach the caller.  Online, when the
    creation is answered without data, [addItem] and [addCustomItem]
    return [false]: the session stays online and nothing is kept for a
    later flush.  And when the call throws while a listener throws in the
    broadcast of the [catch] block, the call is rejected. *)
Lemma remote_failure_reaches_caller :
  let s := initial None in
  let declined := decliningAt 1700000000123 "k3x9q2m1z" in
  let thrown := throwing 7 (unreachableAt 1700000000123 "k3x9q2m1z") in
  let s7 := run s (AddListener 7 (confirmingAt 1700000000000 "k3x9q2m1z")) in
  isOfflineMode s = false ∧ isOfflineMode s7 = false ∧
  addItemReply widget declined s = Resolved false ∧
  (addItem widget 3 None "ann" false declined s).1 = Resolved false ∧
  isOfflineMode (addItem widget 3 None "ann" false declined s).2 = false ∧
  itemIds (addItem widget 3 None "ann" false declined s).2 = [] ∧
  pendingIds (addItem widget 3 None "ann" false declined s).2 = [] ∧
  (addCustomItem tape declined s).1 = Resolved false ∧
  isOfflineMode (addCustomItem tape declined s).2 = false ∧
  pendingIds (addCustomItem tape declined s).2 = [] ∧
  addItemReply widget thrown s7 = Thrown ∧
  (addItem widget 3 None "ann" false thrown s7).1 = Thrown ∧
  (addCustomItem tape thrown s7).1 = Thrown.
Proof. vm_compute. done. Qed.

(** Online with one record; every remote call throws. *)
Lemma online_failure_runs_offline_path_witness :
  let e := unreachableAt 1700000000123 "k3x9q2m1z" in
  let s := run (initial None) (RemoteCreated (announced "r-1" "ITEM-2" 2) e) in
  reachable s ∧
  isOfflineMode s = false ∧
  addItemReply widget e s = Thrown ∧
  (addItem widget 3 None "ann" false e s).1 = Resolved true ∧
  isOfflineMode (addItem widget 3 None "ann" false e s).2 = true ∧
  itemIds (addItem widget 3 None "ann" false e s).2
    = ["r-1"; "offline-1700000000123-k3x9q2m1z"] ∧
  createReply e 0 = Thrown ∧
  (addCustomItem tape e s).1 = Resolved true ∧
  isOfflineMode (addCustomItem tape e s).2 = true.
Proof.
  intros e s.
  assert (reachable s) as Hreach by apply reachable_run, reachable_initial.
  assert (isOfflineMode s = false) as Honline by reflexivity.
  assert (addItemReply widget e s = Thrown) as Hthrown by reflexivity.
  destruct (online_failure_runs_offline_path e s Hreach Honline)
    as (HaddItem & HaddCustom & _).
  destruct (HaddItem widget 3%float None "ann" false Hthrown) as (_ & H1 & H2 & _).
  destruct (HaddCustom tape eq_refl) as (H3 & H4 & _).
  split; [exact Hreach |]. split; [exact Honline |]. split; [exact Hthrown |].
  split; [exact H1 |]. split; [exact H2 |]. split; [vm_compute; reflexivity |].
  split; [reflexivity |]. split; [exact H3 | exact H4].
Defined.

(** ** Display indices after a deletion *)

Lemma reindexFrom_other l k h r : r ∉ l → deref (reindexFrom k l h) r = deref h r.
Proof.
  revert k h. induction l as [|r' l IH]; intros k h Hr; simpl; [done |].
  apply not_elem_of_cons in Hr as [Hne Hr].
  rewrite IH by done. by apply deref_assign_other.
Qed.

Lemma reindexFrom_indices l k h :
  NoDup l → Forall (λ r, r < length h) l →
  index <$> records (reindexFrom k l h) l = Some <$> seq (k + 1) (length l).
Proof.
  revert k h. induction l as [|r l IH]; intros k h Hl Hv; simpl; [done |].
  apply NoDup_cons in Hl as [Hr Hl]. apply Forall_cons in Hv as [Hrv Hv].
  f_equal.
  - rewrite reindexFrom_other by done. by rewrite deref_assign_same.
  - replace (S (k + 1)) with (S k + 1) by lia. apply IH; [done |].
    by rewrite length_assign.
Qed.


Lemma elem_of_itemIds_find s target :
  target ∈ itemIds s →
  ∃ i r, list_find (λ r, id (deref (heap s) r) = target) (reorderItems s) = Some (i, r).
Proof. apply elem_of_ids_find. Qed.

(** The local removal: the first record with the id given leaves the
    collection and the remaining ones are numbered again; nothing changes
    when no record has the id. *)
Lemma removeLocally_dense target e s :
  wf s →
  let s' := (removeLocally target e s).2 in
  wf s' ∧ reorderItems s' `sublist_of` reorderItems s ∧
  (target ∈ itemIds s →
   length (reorderItems s') < length (reorderItems s) ∧
   displayIndices s' = Some <$> seq 1 (length (reorderItems s'))) ∧
  (target ∉ itemIds s → s' = s).
Proof.
  intros W s'.
  destruct (removeLocally_steps target e s W) as (items & pend & (W' & _) & _).
  fold s' in W'. split; [exact W' |].
  destruct W as (W1 & W2 & W3). subst s'. unfold removeLocally.
  destruct (list_find _ _) as [[i r]|] eqn:Hfind.
  - assert (i < length (reorderItems s)) as Hi.
    { apply list_find_Some in Hfind as (Hr & _). by eapply lookup_lt_Some. }
    cbv zeta.
    match goal with |- context [saveOfflineItems e ?X] =>
      destruct (finish_arrays e X) as (Fh & Fr & _) end.
    unfold displayIndices. rewrite Fh, Fr. simpl.
    split; [apply sublist_delete |]. split.
    + intros _. split; [rewrite length_delete by (by apply lookup_lt_is_Some_2); lia |].
      apply (reindexFrom_indices _ 0).
      * apply (sublist_NoDup _ (reorderItems s)); [done | apply sublist_delete].
      * apply (Forall_sublist_valid _ (reorderItems s)); [apply sublist_delete | done].
    + intros Hout. exfalso. apply Hout. apply elem_of_ids_find. eauto.
  - simpl. split; [done |]. split; [| done].
    intros Hin. apply elem_of_ids_find in Hin as (i & r & Hin). congruence.
Qed.

(** C7.  In every state of the service: a [removeItem] that removes
    locally (the session is offline, or the remote call throws) for an id
    of the collection, and a remote deleted event for an id of the
    collection, leave a shorter collection whose records are the
    remaining ones in their former order, with display indices
    1, 2, ..., N from the first to the last.  This holds whatever the
    listeners do. *)
Theorem deletion_reindexes_densely (s : State) :
  reachable s →
  (∀ target e,
     target ∈ itemIds s →
     isOfflineMode s = true ∨ deleteReply e 0 = Thrown →
     let s' := (removeItem target e s).2 in
     length (reorderItems s') < length (reorderItems s) ∧
     reorderItems s' `sublist_of` reorderItems s ∧
     displayIndices s' = Some <$> seq 1 (length (reorderItems s'))) ∧
  (∀ deletedItem e,
     id deletedItem ∈ itemIds s →
     let s' := (handleReorderItemDeleted deletedItem e s).2 in
     length (reorderItems s') < length (reorderItems s) ∧
     reorderItems s' `sublist_of` reorderItems s ∧
     displayIndices s' = Some <$> seq 1 (length (reorderItems s'))).
Proof.
  intros Hreach. pose proof (reachable_wf s Hreach) as W. split.
  - intros target e Hin Hlocal s'.
    destruct (removeLocally_dense target e s W) as (W1 & S1 & D1 & _).
    destruct (D1 Hin) as [L1 I1].
    subst s'. unfold removeItem. destruct (isOfflineMode s) eqn:Hoff.
    + unfold tryCatch. set (s1 := (removeLocally target e s).2) in *.
      destruct ((removeLocally target e s).1); [done |].
      destruct (removeLocally_dense target (later 0 0 1 0 e) (set_isOfflineMode true s1) W1)
        as (_ & S2 & D2 & N2).
      cbn [reorderItems set_isOfflineMode] in S2, D2.
      change (itemIds (set_isOfflineMode true s1)) with (itemIds s1) in D2, N2.
      destruct (decide (target ∈ itemIds s1)) as [Hin1 | Hout1].
      * destruct (D2 Hin1) as [L2 I2].
        split; [lia |]. split; [by etrans | done].
      * rewrite (N2 Hout1). done.
    + destruct Hlocal as [? | ->]; [done |].
      destruct (removeLocally_dense target e
                  (set_isOfflineMode true (emit (GqlDeleteReorderItem target) s)) W)
        as (_ & S2 & D2 & _).
      destruct (D2 Hin) as [L2 I2]. done.
  - intros deletedItem e Hin s'. destruct W as (W1 & W2 & W3).
    subst s'. unfold handleReorderItemDeleted. simpl.
    set (items := filter _ (reorderItems s)).
    assert (length items < length (reorderItems s)) as Hlen.
    { apply elem_of_ids in Hin as (r & Hr & Hid).
      apply (length_filter_lt _ _ r); [done |]. simpl. by intros ?. }
    rewrite decide_True by done. rewrite notifyListeners_eq. simpl.
    split; [done |]. split; [apply sublist_filter |].
    unfold displayIndices. simpl. apply (reindexFrom_indices _ 0).
    + apply (sublist_NoDup _ (reorderItems s)); [done | apply sublist_filter].
    + apply (Forall_sublist_valid _ (reorderItems s)); [apply sublist_filter | done].
Qed.

(** Three records, the middle one removed locally or the last one deleted
    remotely: the two that remain are numbered 1 and 2. *)
Lemma deletion_reindexes_densely_witness :
  let e := unreachableAt 1700000000999 "zzzzzzzzz" in
  let s := runAll (initial None)
             [Initialize None (unreachableAt 1700000000000 "k3x9q2m1z");
              AddItem widget 3 None "ann" false (unreachableAt 1700000000123 "k3x9q2m1z");
              AddCustomItem tape (unreachableAt 1700000000456 "p0o9i8u7y");
              RemoteCreated (announced "r-1" "ITEM-2" 2) e] in
  let key := "offline-1700000000123-k3x9q2m1z" in
  reachable s ∧ key ∈ itemIds s ∧ isOfflineMode s = true ∧
  displayIndices s = [Some 2; Some 1; Some 3] ∧
  displayIndices (removeItem key e s).2 = [Some 1; Some 2] ∧
  displayIndices (handleReorderItemDeleted (announced "r-1" "ITEM-2" 2) e s).2
    = [Some 1; Some 2].
Proof.
  intros e s key.
  assert (reachable s) as Hreach by apply reachable_runAll, reachable_initial.
  assert (key ∈ itemIds s) as Hin by (apply (bool_decide_unpack _); vm_compute; exact I).
  assert (id (announced "r-1" "ITEM-2" 2) ∈ itemIds s) as Hin'
    by (apply (bool_decide_unpack _); vm_compute; exact I).
  assert (isOfflineMode s = true) as Hoff by (vm_compute; reflexivity).
  destruct (deletion_reindexes_densely s Hreach) as [Hremove Hdeleted].
  destruct (Hremove key e Hin (or_introl Hoff)) as (_ & _ & H1).
  destruct (Hdeleted (announced "r-1" "ITEM-2" 2) e Hin') as (_ & _ & H2).
  split; [exact Hreach |]. split; [exact Hin |]. split; [exact Hoff |].
  split; [vm_compute; reflexivity |]. split.
  - etrans; [exact H1 | vm_compute; reflexivity].
  - etrans; [exact H2 | vm_compute; reflexivity].
Defined.

(** ** Removal of pending entries *)

Lemma syncLoop_synced e l k synced s x :
  x ∈ (syncLoop e k l synced s).1 ↔
  x ∈ synced ∨ ∃ j p, l !! j = Some p ∧ id (deref (heap s) p) = x ∧
                      createReply e (k + j) = Resolved true.
Proof.
  revert k synced s. induction l as [|item l IH]; intros k synced s; simpl.
  - split; [by left |]. intros [H | (j & p & H & _)]; [done | by rewrite lookup_nil in H].
  - assert (∀ synced' : list string,
      (x ∈ synced' ∨ (∃ j p, l !! j = Some p ∧ id (deref (heap s) p) = x ∧
                             createReply e (S k + j) = Resolved true)) ↔
      (x ∈ synced' ∨ (∃ j p, (item :: l) !! S j = Some p ∧ id (deref (heap s) p) = x ∧
                             createReply e (k + S j) = Resolved true))) as Hshift.
    { intros synced'. split; (intros [H | (j & p & H1 & H2 & H3)]; [by left | right]);
        exists j, p; simpl in *; (split; [done |]); (split; [done |]);
        by replace (k + S j) with (S (k + j)) in * by lia. }
    destruct (createReply e k) as [[|]|] eqn:Hreply; rewrite IH; simpl; rewrite Hshift.
    + rewrite elem_of_app, list_elem_of_singleton. split.
      * intros [[H | ->] | (j & p & H)]; [by left | | right; eauto].
        right. exists 0, item. rewrite Nat.add_0_r. done.
      * intros [H | (j & p & H1 & H2 & H3)]; [by left; left |].
        destruct j as [|j]; [| right; eauto].
        simpl in H1. injection H1 as <-. left. by right.
    + split; [intros [H | (j & p & H)]; [by left | right; eauto] |].
      intros [H | (j & p & H1 & H2 & H3)]; [by left |].
      destruct j as [|j]; [| right; eauto].
      rewrite Nat.add_0_r in H3. congruence.
    + split; [intros [H | (j & p & H)]; [by left | right; eauto] |].
      intros [H | (j & p & H1 & H2 & H3)]; [by left |].
      destruct j as [|j]; [| right; eauto].
      rewrite Nat.add_0_r in H3. congruence.
Qed.

Lemma syncPendingItems_pending e s :
  ∃ synced : list string,
    (∀ x, x ∈ synced ↔ confirmed e s x) ∧
    heap (syncPendingItems e s) = heap s ∧
    pendingSyncItems (syncPendingItems e s) =
      filter (λ p, id (deref (heap s) p) ∉ synced) (pendingSyncItems s).
Proof.
  unfold syncPendingItems.
  destruct (pendingSyncItems s) as [|p ps] eqn:Hp.
  - exists []. split; [| by rewrite Hp].
    intros x. split; [intros H; by apply elem_of_nil in H |].
    intros (k & q & H & _). rewrite Hp in H. by rewrite lookup_nil in H.
  - rewrite <- Hp. clear Hp.
    destruct (syncLoop e 0 (pendingSyncItems s) [] s) as [synced s1] eqn:Hloop.
    pose proof (syncLoop_sameButLog e (pendingSyncItems s) 0 [] s) as Hs.
    rewrite Hloop in Hs. simpl in Hs.
    destruct Hs as (Hh & _ & _ & _ & _ & _ & _ & Hpend & _).
    exists synced. split; [| simpl; by rewrite Hh, Hpend].
    intros x. pose proof (syncLoop_synced e (pendingSyncItems s) 0 [] s x) as Hx.
    rewrite Hloop in Hx. simpl in Hx. rewrite Hx. unfold confirmed.
    split; [intros [H | H]; [by apply elem_of_nil in H | done] | by right].
Qed.









Lemma removeLocally_log target e s : log (removeLocally target e s).2 = log s.
Proof. by destruct (removeLocally_fields target e s) as (_ & _ & _ & _ & _ & ->). Qed.



(** An entry whose id is not listed is kept by [removeItem]: the record
    was deleted by a remote event while its entry was queued. *)
Example unlisted_entry_is_kept :
  let e := unreachableAt 1700000000999 "zzzzzzzzz" in
  let s := runAll (initial None)
             [Initialize None (unreachableAt 1700000000000 "k3x9q2m1z");
              AddItem widget 3 None "ann" false (unreachableAt 1700000000123 "k3x9q2m1z");
              RemoteDeleted (announced "offline-1700000000123-k3x9q2m1z" "ITEM-1" 3) e] in
  let key := "offline-1700000000123-k3x9q2m1z" in
  itemIds s = [] ∧ pendingIds s = [key] ∧ pendingIds (removeItem key e s).2 = [key].
Proof. vm_compute. done. Qed.


(** ** The listener's argument *)

(** A script leaves every array other than its own alone, and keeps the
    number of objects. *)
Lemma mutate_frame script items m a :
  a ≠ items →
  arrays (mutate script items m) !!! a = arrays m !!! a ∧
  length (objects (mutate script items m)) = length (objects m).
Proof.
  intros Hne. revert m. induction script as [|[f | i f] script IH]; intros m; simpl.
  - done.
  - destruct (IH {| objects := objects m; arrays := alter f items (arrays m) |}) as [-> ->].
    simpl. split; [| done]. by apply list_lookup_total_alter_ne.
  - destruct (_ !! i) as [r|]; [| done].
    destruct (IH {| objects := assign f r (objects m); arrays := arrays m |}) as [-> ->].
    simpl. by rewrite length_assign.
Qed.

Lemma mutate_arrayOnly script items m :
  forallb arrayOnly script = true → objects (mutate script items m) = objects m.
Proof.
  revert m. induction script as [|[f | i f] script IH]; intros m H; simpl in *.
  - done.
  - by rewrite IH.
  - done.
Qed.

Lemma callListenerWith_spec script l e s :
  let out := callListenerWith script l e s in
  out.1 = (callListener l e s).1 ∧
  reorderItems out.2 = reorderItems s ∧ pendingSyncItems out.2 = pendingSyncItems s ∧
  length (heap out.2) = length (heap s) ∧
  broadcasts out.2 = broadcasts s ++ [(l, reorderItems s)] ∧
  listeners out.2 = listeners s ∧
  (forallb arrayOnly script = true → out = callListener l e s).
Proof.
  intros out. subst out.
  unfold callListenerWith, callListener, spread, memoryOf, withMemory, collectionArray,
    pendingArray.
  simpl.
  set (m := {| objects := heap s;
               arrays := [reorderItems s; pendingSyncItems s; reorderItems s] |}).
  destruct (mutate_frame script 2 m 0) as [H0 HL]; [done |].
  destruct (mutate_frame script 2 m 1) as [H1 _]; [done |].
  rewrite H0, H1, HL. simpl. repeat split; try done.
  intros Hall. rewrite (mutate_arrayOnly _ _ _ Hall). done.
Qed.

Lemma forEachListenerWith_spec behaviour ls e s :
  let out := forEachListenerWith behaviour ls e s in
  out.1 = (if allReturn e (length (broadcasts s)) ls then Resolved () else Thrown) ∧
  reorderItems out.2 = reorderItems s ∧ pendingSyncItems out.2 = pendingSyncItems s ∧
  length (heap out.2) = length (heap s) ∧
  broadcasts out.2 =
    broadcasts s ++ ((λ l, (l, reorderItems s)) <$> calledFrom e (length (broadcasts s)) ls) ∧
  ((∀ l, l ∈ ls → forallb arrayOnly (behaviour l) = true) →
   out = forEachListener ls e s).
Proof.
  revert s. induction ls as [|l ls IH]; intros s; simpl.
  - rewrite app_nil_r. done.
  - destruct (callListenerWith_spec (behaviour l) l e s) as (C1 & Cr & Cp & Cl & Cb & _ & Ca).
    unfold andThen. rewrite C1.
    change ((callListener l e s).1) with (listenerReply e l (length (broadcasts s))).
    destruct (listenerReply e l (length (broadcasts s))) as [u|] eqn:Hreply; cbv beta iota.
    + destruct (IH (callListenerWith (behaviour l) l e s).2) as (H1 & Hr & Hp & Hl & Hb & Ha).
      rewrite H1, Hr, Hp, Hl, Hb, Cr, Cp, Cl, Cb. rewrite length_app. simpl.
      rewrite Nat.add_1_r, <- app_assoc. simpl.
      repeat split; try done.
      intros Hall. etrans; [apply Ha; intros l' Hl'; apply Hall; by right |].
      rewrite (Ca (Hall l (list_elem_of_here _ _))). done.
    + cbn [fst snd]. rewrite Cr, Cp, Cl, Cb. repeat split; try done.
      intros Hall. rewrite (Ca (Hall l (list_elem_of_here _ _))). done.
Qed.

(** C8, as the code has it.  A broadcast hands every listener a new array
    that holds the records of the collection themselves.  Whatever the
    listeners do with their arguments, and whether they return or throw,
    the array of the collection has the same slots holding the same
    objects afterwards, as has the pending queue, and no object is added
    or removed; the listeners called and the outcome are those of the
    broadcast to listeners that do nothing with their argument; when the
    listeners only operate on the arrays they get, the state is exactly
    the state after such a broadcast.  (Field assignments through the
    argument do reach the records of the collection.) *)
Theorem listener_gets_shallow_copy (behaviour : nat → list Mutation) (e : Env) (s : State) :
  let out := notifyListenersWith behaviour e s in
  reorderItems out.2 = reorderItems s ∧ pendingSyncItems out.2 = pendingSyncItems s ∧
  length (heap out.2) = length (heap s) ∧
  broadcasts out.2 = broadcasts (notifyListeners e s).2 ∧
  out.1 = (notifyListeners e s).1 ∧
  ((∀ l, l ∈ listeners s → forallb arrayOnly (behaviour l) = true) →
   out = notifyListeners e s).
Proof.
  intros out. subst out.
  destruct (forEachListenerWith_spec behaviour (listeners s) e s)
    as (H1 & Hr & Hp & Hl & Hb & Ha).
  unfold notifyListenersWith. rewrite H1, Hr, Hp, Hl, Hb.
  unfold notifyListeners. rewrite forEachListener_eq.
  repeat split; try done.
  intros Hall. rewrite (Ha Hall). by rewrite forEachListener_eq.
Qed.

(** The claim that no mutation through the argument reaches the
    collection fails: a listener that assigns the quantity of the first
    record of its argument changes the record that [getItems] shows. *)
Lemma listener_can_change_a_record :
  let e := confirmingAt 1700000000000 "k3x9q2m1z" in
  let s := runAll (initial None) [AddListener 7 e; RemoteCreated (announced "r-1" "ITEM-1" 2) e] in
  let s' := (notifyListenersWith (λ _, [OnRecord 0 (with_quantity (Some 99%float))]) e s).2 in
  listeners s = [7] ∧
  quantity <$> records (heap s) (getItems s) = [Some 2%float] ∧
  quantity <$> records (heap s') (getItems s') = [Some 99%float].
Proof. vm_compute. done. Qed.

(** A listener that doubles and then empties the array it got: the state
    is the one after a plain broadcast. *)
Lemma listener_gets_shallow_copy_witness :
  let e := confirmingAt 1700000000000 "k3x9q2m1z" in
  let s := runAll (initial None) [AddListener 7 e; RemoteCreated (announced "r-1" "ITEM-1" 2) e] in
  notifyListenersWith (λ _, [OnArray (λ items, items ++ items); OnArray (λ _, [])]) e s
  = notifyListeners e s.
Proof.
  intros e s. apply listener_gets_shallow_copy. intros l _. reflexivity.
Defined.

(** It is the copy that protects the collection: the same script run on
    the array of the collection itself empties the collection. *)
Example uncopied_array_is_exposed :
  let e := confirmingAt 1700000000000 "k3x9q2m1z" in
  let s := runAll (initial None) [AddListener 7 e; RemoteCreated (announced "r-1" "ITEM-1" 2) e] in
  itemIds s = ["r-1"] ∧
  itemIds (callListenerUncopied [OnArray (λ _, [])] s) = [] ∧
  itemIds (callListenerWith [OnArray (λ _, [])] 7 e s).2 = ["r-1"].
Proof. vm_compute. done. Qed.

(** * Further properties of the service *)

(** ** The session fields *)

Lemma sameSession_refl s : sameSession s s.
Proof. by repeat split. Qed.

Lemma sameSession_trans s1 s2 s3 :
  sameSession s1 s2 → sameSession s2 s3 → sameSession s1 s3.
Proof. intros (?&?&?&?) (?&?&?&?). repeat split; congruence. Qed.

Lemma sameSession_sameButLog s s' : sameButLog s s' → sameSession s s'.
Proof. intros (?&?&?&?&?&?&?&?&?&?). by repeat split. Qed.

Lemma sameSession_local s s' : localChange s s' → sameSession s s'.
Proof. intros (?&?&?&?&?&?&?). by repeat split. Qed.

Lemma sameSession_notifyListeners e s : sameSession s (notifyListeners e s).2.
Proof. rewrite notifyListeners_eq. (by repeat split). Qed.

Lemma sameSession_saveOfflineItems e s : sameSession s (saveOfflineItems e s).
Proof. apply sameSession_local, localChange_saveOfflineItems. Qed.

Lemma sameSession_loadOfflineItems e s : sameSession s (loadOfflineItems e s).
Proof. apply sameSession_local, localChange_loadOfflineItems. Qed.

Lemma sameSession_queuePending r s : sameSession s (queuePending r s).
Proof. apply sameSession_local, localChange_queuePending. Qed.

Lemma sameSession_fetchTeamData fe target s : sameSession s (fetchTeamData fe target s).2.
Proof.
  unfold fetchTeamData, fetchTeamDataLocal, recoverTeamDataFromDynamoDB.
  repeat (case_match; simpl; try (by repeat split)).
Qed.

Lemma sameSession_loadTeamDataFrom e l k s : sameSession s (loadTeamDataFrom e k l s).
Proof.
  revert k s. induction l as [|r l IH]; intros k s; simpl; [(by repeat split) |].
  destruct (fetchTeamData (teamFetch e k) (itemId (deref (heap s) r)) s) as [t s1] eqn:Hf.
  pose proof (sameSession_fetchTeamData (teamFetch e k) (itemId (deref (heap s) r)) s) as K1.
  rewrite Hf in K1. simpl in K1.
  eapply sameSession_trans; [exact K1 |]. eapply sameSession_trans; [| apply IH].
  destruct t; (by repeat split).
Qed.

Lemma sameSession_adoptServerItems items e s : sameSession s (adoptServerItems items e s).2.
Proof.
  unfold adoptServerItems, saveReorderItemsLocally, loadTeamDataForItems, alloc_all.
  eapply sameSession_trans; [| apply sameSession_notifyListeners].
  eapply sameSession_trans; [| apply sameSession_loadTeamDataFrom].
  (by repeat split).
Qed.

Lemma sameSession_recoverFromDynamoDB e s : sameSession s (recoverFromDynamoDB e s).
Proof.
  unfold recoverFromDynamoDB.
  destruct (monitorReply e); [| (by repeat split)].
  destruct (listReply e) as [[items|]|]; try (by repeat split).
  eapply sameSession_trans; [| apply sameSession_adoptServerItems]. (by repeat split).
Qed.


Lemma sameSession_loadReorderItems e s : sameSession s (loadReorderItems e s).
Proof.
  unfold loadReorderItems, loadLocalReorderItems.
  destruct (dbRows e) as [[|row rows]|]; simpl.
  - eapply sameSession_trans; [| apply sameSession_recoverFromDynamoDB]. (by repeat split).
  - unfold loadTeamDataForItems.
    eapply sameSession_trans; [| apply sameSession_loadTeamDataFrom]. (by repeat split).
  - eapply sameSession_trans; [| apply sameSession_recoverFromDynamoDB]. (by repeat split).
Qed.

Lemma sameSession_syncPendingItems e s : sameSession s (syncPendingItems e s).
Proof.
  unfold syncPendingItems. destruct (pendingSyncItems s) as [|p l] eqn:Hp; [(by repeat split) |].
  destruct (syncLoop e 0 (p :: l) [] s) as [synced s1] eqn:Hl.
  pose proof (syncLoop_sameButLog e (p :: l) 0 [] s) as H. rewrite Hl in H.
  apply sameSession_sameButLog in H. eapply sameSession_trans; [exact H |]. (by repeat split).
Qed.


Lemma sameSession_toggleLocally item e s : sameSession s (toggleLocally item e s).2.
Proof. destruct (toggleLocally_fields item e s) as (?&?&?&?&?&?). by repeat split. Qed.

Lemma sameSession_logReorderHistory x user s : sameSession s (logReorderHistory x user s).
Proof. unfold logReorderHistory. case_match; (by repeat split). Qed.



Lemma sameSession_toggleFallback target userName e s :
  sameSession (set_isOfflineMode true s) (toggleFallback target userName e s).2.
Proof.
  unfold toggleFallback. cbn [heap reorderItems set_isOfflineMode].
  destruct (list_find _ _) as [[i item]|]; [| apply sameSession_refl].
  eapply sameSession_trans; [| apply sameSession_toggleLocally].
  apply sameSession_logReorderHistory.
Qed.

(** ** The session mode *)

Lemma sameSession_checkAuthStatus e s :
  listeners (checkAuthStatus e s).2 = listeners s ∧
  isInitialized (checkAuthStatus e s).2 = isInitialized s ∧
  currentUserId (checkAuthStatus e s).2 = currentUserId s ∧
  isOfflineMode (checkAuthStatus e s).2 = is_thrown (authProbe e) ∧
  (checkAuthStatus e s).1 = negb (is_thrown (authProbe e)).
Proof. unfold checkAuthStatus. by destruct (authProbe e). Qed.

(** The session fields before the broadcast of [initialize]. *)
Lemma initializeLoad_session userId e s :
  let s' := initializeLoad userId e s in
  listeners s' = listeners s ∧ isInitialized s' = true ∧
  currentUserId s' = str_or_undefined userId ∧
  isOfflineMode s' = is_thrown (authProbe e).
Proof.
  intros s'. subst s'. unfold initializeLoad.
  destruct (checkAuthStatus e (set_currentUserId (str_or_undefined userId) s))
    as [isAuthenticated s1] eqn:Hc.
  pose proof (sameSession_checkAuthStatus e (set_currentUserId (str_or_undefined userId) s))
    as (L & I & U & M & _).
  rewrite Hc in L, I, U, M. simpl in L, I, U, M.
  assert (sameSession s1 (if isAuthenticated then loadReorderItems e s1
                          else loadOfflineItems e s1)) as (L2 & I2 & U2 & M2).
  { destruct isAuthenticated;
      [apply sameSession_loadReorderItems | apply sameSession_loadOfflineItems]. }
  simpl. repeat split; congruence.
Qed.

Lemma initializeFallback_session e s :
  let s' := (initializeFallback e s).2 in
  listeners s' = listeners s ∧ isInitialized s' = isInitialized s ∧
  currentUserId s' = currentUserId s ∧ isOfflineMode s' = true.
Proof.
  unfold initializeFallback. cbv zeta.
  destruct (sameSession_notifyListeners e (loadOfflineItems e (set_isOfflineMode true s)))
    as (-> & -> & -> & ->).
  destruct (sameSession_loadOfflineItems e (set_isOfflineMode true s)) as (-> & -> & -> & ->).
  done.
Qed.

(** What a run of [initialize] past its first line leaves in the session
    fields, and its outcome. *)
Lemma initialize_session userId e s :
  isInitialized s && sameUser (currentUserId s) userId = false →
  let out := initialize userId e s in
  listeners out.2 = listeners s ∧
  isInitialized out.2 = true ∧
  currentUserId out.2 = str_or_undefined userId ∧
  isOfflineMode out.2 =
    is_thrown (authProbe e) || broadcastThrows e (initializeLoad userId e s).
Proof.
  intros Hrun out. subst out. unfold initialize. rewrite Hrun.
  destruct (initializeLoad_session userId e s) as (L & I & U & M).
  set (s1 := initializeLoad userId e s) in *.
  unfold tryCatch. rewrite notifyListeners_eq. cbn [fst snd].
  destruct (broadcastThrows e s1).
  - match goal with |- context [initializeFallback ?e' ?s2] =>
      destruct (initializeFallback_session e' s2) as (-> & -> & -> & ->) end.
    rewrite orb_true_r. done.
  - rewrite orb_false_r. done.
Qed.

Lemma refresh_session e s :
  listeners (refresh e s) = listeners s ∧
  isInitialized (refresh e s) = isInitialized s ∧
  currentUserId (refresh e s) = currentUserId s ∧
  isOfflineMode (refresh e s) = is_thrown (authProbe e).
Proof.
  unfold refresh.
  destruct (checkAuthStatus e s) as [isAuthenticated s1] eqn:Hc.
  pose proof (sameSession_checkAuthStatus e s) as (L & I & U & M & _).
  rewrite Hc in L, I, U, M. simpl in L, I, U, M.
  assert (sameSession s1 (if isAuthenticated
                          then (notifyListeners e (loadReorderItems e (syncPendingItems e s1))).2
                          else (notifyListeners e (loadOfflineItems e s1)).2))
    as (L2 & I2 & U2 & M2).
  { destruct isAuthenticated.
    - eapply sameSession_trans; [| apply sameSession_notifyListeners].
      eapply sameSession_trans; [| apply sameSession_loadReorderItems].
      apply sameSession_syncPendingItems.
    - eapply sameSession_trans; [| apply sameSession_notifyListeners].
      apply sameSession_loadOfflineItems. }
  destruct isAuthenticated; repeat split; congruence.
Qed.



Lemma toggleCompletion_mode target userName e s :
  isOfflineMode (toggleCompletion target userName e s).2 =
  isOfflineMode s ||
  (bool_decide (target ∈ itemIds s) && is_thrown (updateReply e)).
Proof.
  unfold toggleCompletion. destruct (list_find _ _) as [[i item]|] eqn:Hfind.
  - assert (target ∈ itemIds s) as Hin by (apply elem_of_ids_find; eauto).
    rewrite (bool_decide_eq_true_2 _ Hin). cbv zeta.
    destruct (sameSession_logReorderHistory (deref (heap s) item) userName s) as (_ & _ & _ & M).
    rewrite M. destruct (isOfflineMode s) eqn:Hm; cbn [orb andb].
    + unfold tryCatch.
      destruct ((toggleLocally item e (logReorderHistory (deref (heap s) item) userName s)).1);
        cbn [snd].
      * destruct (sameSession_toggleLocally item e
                    (logReorderHistory (deref (heap s) item) userName s)) as (_ & _ & _ & ->).
        congruence.
      * match goal with |- isOfflineMode (toggleFallback _ _ ?e' ?s1).2 = _ =>
          by destruct (sameSession_toggleFallback target userName e' s1) as (_ & _ & _ & ->)
        end.
    + destruct (updateReply e); cbn [is_thrown snd isOfflineMode emit]; [by rewrite M |].
      match goal with |- isOfflineMode (toggleFallback _ _ ?e' ?s1).2 = _ =>
        by destruct (sameSession_toggleFallback target userName e' s1) as (_ & _ & _ & ->)
      end.
  - assert (target ∉ itemIds s) as Hout.
    { intros Hin. apply elem_of_ids_find in Hin as (i & r & Hin). congruence. }
    rewrite (bool_decide_eq_false_2 _ Hout). simpl. by rewrite orb_false_r.
Qed.








(** An [initialize] whose probe is answered ends offline when a listener
    throws in its broadcast: here the one that the first [addListener]
    starts. *)
Example listener_exception_switches_offline :
  let e := throwing 7 (confirmingAt 1700000000000 "k3x9q2m1z") in
  let o := AddListener 7 e in
  isOfflineMode (initial None) = false ∧ authProbe e = Resolved () ∧
  remoteCallThrows (initial None) o = false ∧
  (addListener 7 e (initial None)).1 = Thrown ∧
  isOfflineMode (run (initial None) o) = true ∧
  isInitialized (run (initial None) o) = true.
Proof. vm_compute. done. Qed.


(** ** Outgoing calls of the local path *)

Lemma log_toggleLocally item e s : log (toggleLocally item e s).2 = log s.
Proof. by destruct (toggleLocally_fields item e s) as (_ & _ & _ & _ & _ & ->). Qed.

Lemma log_commitCustomItem x e s : log (commitCustomItem x e s).2 = log s.
Proof. by destruct (commitCustomItem_fields x e s) as (_ & _ & _ & _ & _ & ->). Qed.

Lemma log_addItemOffline item qty team user overwriteMode e s :
  log (addItemOffline item qty team user overwriteMode e s).2 = log s.
Proof.
  by destruct (addItemOffline_fields item qty team user overwriteMode e s)
    as (_ & _ & _ & _ & _ & ->).
Qed.

Lemma log_logReorderHistory x userName s :
  log (logReorderHistory x userName s) =
  (if tracksReorder x
   then [HistoryLogReorder (itemId x) (str_or (Some (itemName x)) "Unknown Item")
           (quantity x) userName]
   else []) ++ log s.
Proof. unfold logReorderHistory, tracksReorder. by case_match. Qed.

Lemma heap_logReorderHistory x userName s :
  heap (logReorderHistory x userName s) = heap s.
Proof. unfold logReorderHistory. by case_match. Qed.

Lemma historyCalls_app l1 l2 : historyCalls (l1 ++ l2) = historyCalls l1 ++ historyCalls l2.
Proof. unfold historyCalls. apply filter_app. Qed.

Lemma historyCalls_entry (b : bool) (entry : Effect) :
  is_history entry = true →
  historyCalls (if b then [entry] else []) = if b then [entry] else [].
Proof. intros H. destruct b; [| done]. unfold historyCalls. by rewrite filter_cons_True. Qed.

(** ** The item history *)

(** X2.  [toggleCompletion] of a listed id reports to the item history
    when the record becomes completed and refers to a catalogue item
    other than itself.  When the update request is answered, and offline
    when no listener throws in the broadcast, the report is made once.
    When the session is online and the update request throws, the
    [catch] block reports again: twice in all.  Offline, when a listener
    throws in the broadcast, the [catch] block looks at the record as
    the first attempt left it, toggled, and toggles it back: one report
    is made when either of the two states of the record is to be
    reported. *)
Theorem toggleCompletion_history target userName e s i item :
  reachable s →
  list_find (λ r, id (deref (heap s) r) = target) (reorderItems s) = Some (i, item) →
  let x := deref (heap s) item in
  let entry :=
    HistoryLogReorder (itemId x) (str_or (Some (itemName x)) "Unknown Item")
      (quantity x) userName in
  historyCalls (log (toggleCompletion target userName e s).2) =
  (if isOfflineMode s
   then if broadcastThrows e s
        then if tracksReorder x || tracksReorder (with_completed (negb (completed x)) x)
             then [entry] else []
        else if tracksReorder x then [entry] else []
   else if is_thrown (updateReply e)
        then if tracksReorder x then [entry; entry] else []
        else if tracksReorder x then [entry] else [])
  ++ historyCalls (log s).
Proof.
  intros Hreach Hfind x entry. pose proof (reachable_wf s Hreach) as W.
  destruct (list_find_valid _ _ _ _ _ (proj1 W) Hfind) as (Hvalid & _ & _ & Hid).
  simpl in Hid.
  assert (is_history entry = true) as Hentry by done.
  destruct (isOfflineMode s) eqn:Hm.
  - rewrite (toggleCompletion_offline_eq target userName e s i item Hm Hfind). cbv zeta.
    fold x.
    destruct (toggleLocally_after_history x userName item e s W Hvalid)
      as (W1 & R1 & E1 & _ & _ & _ & Hd1 & _).
    set (s1 := (toggleLocally item e (logReorderHistory x userName s)).2) in *.
    assert (log s1 = (if tracksReorder x then [entry] else []) ++ log s) as Hlog1.
    { unfold s1. by rewrite log_toggleLocally, log_logReorderHistory. }
    destruct (broadcastThrows e s).
    + assert (list_find (λ r, id (deref (heap s1) r) = target) (reorderItems s1)
              = Some (i, item)) as Hfind1.
      { rewrite R1, <- Hfind. apply list_find_id_extends; [exact E1 | apply W]. }
      rewrite (toggleFallback_eq target userName _ s1 i item Hfind1).
      rewrite log_toggleLocally, log_logReorderHistory. cbn [log set_isOfflineMode].
      rewrite Hlog1, Hd1. fold x.
      assert (tracksReorder
                (with_updatedAt (iso (clock e 0)) (with_completed (negb (completed x)) x))
              = tracksReorder (with_completed (negb (completed x)) x)) as -> by done.
      cbn [itemId itemName quantity with_updatedAt with_completed]. fold entry.
      rewrite !historyCalls_app, !historyCalls_entry by done. rewrite app_assoc. f_equal.
      unfold tracksReorder. cbn [completed with_completed itemId id].
      by destruct (completed x), (bool_decide (itemId x = "")),
           (bool_decide (itemId x = id x)).
    + cbn [snd]. rewrite Hlog1. by rewrite historyCalls_app, historyCalls_entry.
  - unfold toggleCompletion. rewrite Hfind. cbv zeta. fold x.
    destruct (sameSession_logReorderHistory x userName s) as (_ & _ & _ & M). rewrite M, Hm.
    destruct (updateReply e) as [b|]; cbn [is_thrown snd].
    + cbn [log emit]. rewrite log_logReorderHistory. fold entry.
      change (historyCalls (?c :: ?l)) with (historyCalls ([c] ++ l)).
      rewrite !historyCalls_app, historyCalls_entry by done. done.
    + match goal with |- context [toggleFallback target userName e ?s0] =>
        assert (list_find (λ r, id (deref (heap s0) r) = target) (reorderItems s0)
                = Some (i, item)) as Hfind0 end.
      { cbn [heap reorderItems emit]. rewrite heap_logReorderHistory.
        destruct (logReorderHistory_fields x userName s) as (_ & -> & _). exact Hfind. }
      rewrite (toggleFallback_eq target userName e _ i item Hfind0).
      rewrite log_toggleLocally, log_logReorderHistory.
      cbn [heap log emit set_isOfflineMode]. rewrite heap_logReorderHistory. fold x entry.
      rewrite log_logReorderHistory. fold entry.
      change (historyCalls (?l1 ++ ?c :: ?l)) with (historyCalls (l1 ++ [c] ++ l)).
      rewrite !historyCalls_app, !historyCalls_entry by done.
      by destruct (tracksReorder x).
Qed.

(** Online with one announced record; the update request throws. *)
Lemma toggleCompletion_history_witness :
  let e := unreachableAt 1700000000456 "p0o9i8u7y" in
  let s := run (initial None) (RemoteCreated (announced "r-1" "ITEM-1" 2) e) in
  let entry := HistoryLogReorder "ITEM-1" "Widget" (Some 2%float) "ann" in
  reachable s ∧
  list_find (λ r, id (deref (heap s) r) = "r-1") (reorderItems s) = Some (0, 0) ∧
  historyCalls (log (toggleCompletion "r-1" "ann" e s).2)
    = [entry; entry] ++ historyCalls (log s).
Proof.
  intros e s entry.
  assert (reachable s) as Hreach by apply reachable_run, reachable_initial.
  assert (list_find (λ r, id (deref (heap s) r) = "r-1") (reorderItems s) = Some (0, 0))
    as Hfind by (vm_compute; reflexivity).
  split; [exact Hreach |]. split; [exact Hfind |].
  exact (toggleCompletion_history "r-1" "ann" e s 0 0 Hreach Hfind).
Defined.

(** ** Mutations that stay local, and mutations that stay remote *)

Lemma log_removeItem_offline target e s :
  isOfflineMode s = true → log (removeItem target e s).2 = log s.
Proof.
  intros Hoff. unfold removeItem. rewrite Hoff. unfold tryCatch.
  destruct ((removeLocally target e s).1); cbn [snd];
    repeat (rewrite removeLocally_log; cbn [log set_isOfflineMode]); done.
Qed.

(** X3.  In offline mode [addItem], [addCustomItem] and [removeItem]
    make no outgoing call at all, whatever the listeners do, and
    [toggleCompletion] makes no remote call.  The two additions report
    success when no listener throws in the broadcast; when one does, the
    [catch] block runs and the outcome is the one of its broadcast. *)
Theorem offline_mutations_stay_local (e : Env) (s : State) :
  isOfflineMode s = true →
  (∀ item qty team user overwriteMode,
     let out := addItem item qty team user overwriteMode e s in
     log out.2 = log s ∧
     (broadcastThrows e s = false → out.1 = Resolved true) ∧
     (broadcastThrows e s = true →
      out.1 = if broadcastThrows e (addItemOffline item qty team user overwriteMode e s).2
              then Thrown else Resolved true)) ∧
  (∀ c,
     let out := addCustomItem c e s in
     log out.2 = log s ∧
     (broadcastThrows e s = false → out.1 = Resolved true) ∧
     (broadcastThrows e s = true →
      out.1 = if broadcastThrows e (commitCustomItem (newCustomItem c e s) e s).2
              then Thrown else Resolved true)) ∧
  (∀ target, log (removeItem target e s).2 = log s) ∧
  (∀ target userName,
     remote_calls (log (toggleCompletion target userName e s).2) = remote_calls (log s)).
Proof.
  intros Hoff. split; [| split; [| split]].
  - intros item qty team user overwriteMode out. subst out.
    unfold addItem. rewrite Hoff. unfold tryCatch. rewrite addItemOffline_reply.
    destruct (broadcastThrows e s).
    + rewrite addItemFallback_reply, addItemFallback_state, log_addItemOffline.
      cbn [log set_isOfflineMode]. rewrite log_addItemOffline.
      split; [done |]. split; [done |]. intros _.
      by destruct (list_find _ _); rewrite broadcastThrows_later.
    + cbn [fst snd]. rewrite log_addItemOffline. done.
  - intros c out. subst out. unfold addCustomItem. rewrite Hoff. unfold tryCatch.
    rewrite andThen_outcome, andThen_state, commitCustomItem_reply.
    destruct (broadcastThrows e s).
    + rewrite addCustomItemFallback_reply, addCustomItemFallback_state, log_commitCustomItem.
      cbn [log set_isOfflineMode]. rewrite log_commitCustomItem, broadcastThrows_later.
      done.
    + cbn [fst snd]. rewrite log_commitCustomItem. done.
  - intros target. by apply log_removeItem_offline.
  - intros target userName. unfold toggleCompletion.
    destruct (list_find _ _) as [[i item]|]; [| done]. cbv zeta.
    destruct (sameSession_logReorderHistory (deref (heap s) item) userName s)
      as (_ & _ & _ & M).
    rewrite M, Hoff. unfold tryCatch.
    assert (∀ x s0, remote_calls (log (logReorderHistory x userName s0))
                    = remote_calls (log s0)) as Hhist.
    { intros x s0. rewrite log_logReorderHistory. unfold remote_calls.
      rewrite filter_app. by destruct (tracksReorder x). }
    destruct ((toggleLocally item e (logReorderHistory (deref (heap s) item) userName s)).1);
      cbn [snd].
    + by rewrite log_toggleLocally, Hhist.
    + unfold toggleFallback. cbn [heap reorderItems set_isOfflineMode].
      destruct (list_find _ _) as [[i' item']|]; cbn [snd log set_isOfflineMode].
      * rewrite log_toggleLocally, Hhist. cbn [log set_isOfflineMode].
        by rewrite log_toggleLocally, Hhist.
      * by rewrite log_toggleLocally, Hhist.
Qed.

(** Offline from the start. *)
Lemma offline_mutations_stay_local_witness :
  let s := run (initial None) (Initialize None (unreachableAt 1700000000000 "k3x9q2m1z")) in
  let e := unreachableAt 1700000000123 "k3x9q2m1z" in
  isOfflineMode s = true ∧
  (addItem widget 3 None "ann" false e s).1 = Resolved true ∧
  log (addItem widget 3 None "ann" false e s).2 = log s ∧
  log (removeItem "r-1" e s).2 = log s.
Proof.
  intros s e.
  assert (isOfflineMode s = true) as Hoff by (vm_compute; reflexivity).
  destruct (offline_mutations_stay_local e s Hoff) as (Hadd & _ & Hremove & _).
  destruct (Hadd widget 3%float None "ann" false) as (Hlog & Hok & _).
  split; [exact Hoff |]. split; [apply Hok; vm_compute; reflexivity |].
  split; [exact Hlog | apply Hremove].
Defined.

Lemma sameButLog_logReorderHistory x userName s :
  sameButLog s (logReorderHistory x userName s).
Proof. unfold logReorderHistory. case_match; by repeat split. Qed.

(** X4.  Online, a mutation whose request the remote service answers
    changes nothing but the log of outgoing calls: the collection, its
    records and the pending queue are as before.  The change reaches the
    collection only with the remote event. *)
Theorem answered_mutation_is_not_applied_locally (s : State) (o : Op) :
  isOfflineMode s = false → answered s o = true →
  sameButLog s (run s o) ∧
  records (heap (run s o)) (getItems (run s o)) = records (heap s) (getItems s) ∧
  records (heap (run s o)) (pendingSyncItems (run s o)) =
    records (heap s) (pendingSyncItems s).
Proof.
  intros Hon Hans.
  assert (sameButLog s (run s o)) as Hsame.
  { destruct o; simpl in *; try done.
    - unfold addItem, addItemReply in *. rewrite Hon.
      destruct (list_find _ _) as [[i r]|].
      + destruct (updateReply e) as [[|]|]; [| | done]; by repeat split.
      + destruct (createReply e 0) as [[|]|]; [| | done]; by repeat split.
    - unfold addCustomItem. rewrite Hon.
      destruct (createReply e 0) as [[|]|]; [| | done]; by repeat split.
    - unfold removeItem. rewrite Hon.
      destruct (deleteReply e 0); [| done]. by repeat split.
    - unfold toggleCompletion. destruct (list_find _ _) as [[i item]|]; [| by repeat split].
      pose proof (sameButLog_logReorderHistory (deref (heap s) item) userName s) as H.
      destruct H as (H1&H2&H3&H4&H5&H6&H7&H8&H9&H10). cbv zeta. rewrite H7, Hon.
      destruct (updateReply e); [| done]. by repeat split. }
  split; [exact Hsame |].
  destruct Hsame as (Hh & Hr & _ & _ & _ & _ & _ & Hp & _).
  unfold getItems. by rewrite Hh, Hr, Hp.
Qed.

(** Online; the creation of a custom item is confirmed. *)
Lemma answered_mutation_is_not_applied_locally_witness :
  let e := confirmingAt 1700000000123 "k3x9q2m1z" in
  let s := run (initial None) (RemoteCreated (announced "r-1" "ITEM-1" 2) e) in
  let o := AddCustomItem tape e in
  isOfflineMode s = false ∧ answered s o = true ∧
  records (heap (run s o)) (getItems (run s o)) = records (heap s) (getItems s).
Proof.
  intros e s o.
  assert (isOfflineMode s = false) as Hon by (vm_compute; reflexivity).
  assert (answered s o = true) as Hans by (vm_compute; reflexivity).
  split; [exact Hon |]. split; [exact Hans |].
  exact (proj1 (proj2 (answered_mutation_is_not_applied_locally s o Hon Hans))).
Defined.

(** X5.  For an id that no record of the collection carries:
    [toggleCompletion] and an updated event change nothing; offline,
    [removeItem] changes nothing; online, [removeItem] still sends the
    delete request and, when it throws, only switches the session
    offline.  None of them calls a listener, and each returns. *)
Theorem operations_on_absent_id (target : string) (s : State) :
  target ∉ itemIds s →
  (∀ userName e, toggleCompletion target userName e s = (Resolved (), s)) ∧
  (∀ updatedItem e,
     id updatedItem = target → handleReorderItemUpdated updatedItem e s = (Resolved (), s)) ∧
  (∀ e, isOfflineMode s = true → removeItem target e s = (Resolved (), s)) ∧
  (∀ e, isOfflineMode s = false →
        removeItem target e s =
        (Resolved (),
         match deleteReply e 0 with
         | Resolved _ => emit (GqlDeleteReorderItem target) s
         | Thrown => set_isOfflineMode true (emit (GqlDeleteReorderItem target) s)
         end)).
Proof.
  intros Habsent.
  assert (list_find (λ r, id (deref (heap s) r) = target) (reorderItems s) = None) as Hfind.
  { apply list_find_None. apply Forall_forall. intros r Hr Hid. apply Habsent.
    apply elem_of_ids. by exists r. }
  split; [| split; [| split]].
  - intros userName e. unfold toggleCompletion. by rewrite Hfind.
  - intros updatedItem e <-. unfold handleReorderItemUpdated. by rewrite Hfind.
  - intros e Hoff. unfold removeItem, removeLocally, tryCatch. by rewrite Hoff, Hfind.
  - intros e Hon. unfold removeItem, removeLocally. rewrite Hon.
    destruct (deleteReply e 0); [done |]. simpl. by rewrite Hfind.
Qed.

(** One announced record; another id is addressed. *)
Lemma operations_on_absent_id_witness :
  let e := unreachableAt 1700000000123 "k3x9q2m1z" in
  let s := run (initial None) (RemoteCreated (announced "r-1" "ITEM-1" 2) e) in
  ("r-404" ∉ itemIds s) ∧ toggleCompletion "r-404" "ann" e s = (Resolved (), s) ∧
  handleReorderItemUpdated (announced "r-404" "ITEM-9" 1) e s = (Resolved (), s).
Proof.
  intros e s.
  assert ("r-404" ∉ itemIds s) as Habsent.
  { apply (bool_decide_unpack _). vm_compute. exact I. }
  destruct (operations_on_absent_id "r-404" s Habsent) as (Htoggle & Hupdated & _).
  split; [exact Habsent |]. split; [apply Htoggle | by apply Hupdated].
Defined.

(** ** The records behind an array *)

Lemma records_app_old (h xs : Heap) l :
  Forall (λ r, r < length h) l → records (h ++ xs) l = records h l.
Proof.
  intros Hl. unfold records. apply Forall_fmap_ext_1.
  eapply Forall_impl; [exact Hl |]. intros r Hr. simpl. by apply deref_app_old.
Qed.

Lemma records_snoc h l r : records h (l ++ [r]) = records h l ++ [deref h r].
Proof. unfold records. by rewrite fmap_app. Qed.

Lemma records_insert h l i r : records h (<[i:=r]> l) = <[i:=deref h r]> (records h l).
Proof. unfold records. by rewrite list_fmap_insert. Qed.

Lemma records_seq (h xs : Heap) : records (h ++ xs) (seq (length h) (length xs)) = xs.
Proof.
  unfold records. apply list_eq. intros i. rewrite list_lookup_fmap.
  destruct (decide (i < length xs)) as [Hi|Hi].
  - rewrite lookup_seq_lt by done. simpl. unfold deref.
    rewrite lookup_total_app_r by lia.
    replace (length h + i - length h) with i by lia.
    by rewrite list_lookup_lookup_total_lt.
  - rewrite lookup_seq_ge by lia. simpl. by rewrite lookup_ge_None_2 by lia.
Qed.

(** Records that an assignment does not address are as before. *)
Lemma records_assign_other f r (h : Heap) l :
  r ∉ l → records (assign f r h) l = records h l.
Proof.
  intros Hr. unfold records. apply Forall_fmap_ext_1. apply Forall_forall.
  intros r' Hr'. apply deref_assign_other. intros ->. done.
Qed.

(** The records of an array when the objects of its slots are the same
    but for one slot. *)
Lemma records_one_changed (h h' : Heap) (l : list ref) i item x :
  NoDup l → l !! i = Some item → deref h' item = x →
  (∀ r, r ∈ l → r ≠ item → deref h' r = deref h r) →
  records h' l = <[i := x]> (records h l).
Proof.
  intros Hnd Hlook Hitem Hothers. apply list_eq. intros j. unfold records.
  destruct (decide (j = i)) as [->|Hne].
  - rewrite list_lookup_insert_eq by (rewrite length_fmap; by eapply lookup_lt_Some).
    rewrite list_lookup_fmap, Hlook. simpl. by rewrite Hitem.
  - rewrite list_lookup_insert_ne by done. rewrite !list_lookup_fmap.
    destruct (l !! j) as [r|] eqn:Hj; [| done]. simpl. f_equal.
    apply Hothers; [by eapply list_elem_of_lookup_2 |].
    intros ->. apply Hne. by eapply NoDup_lookup.
Qed.

(** ** Remote events *)

(** X6.  A created event for an id that is not listed appends the
    announced record, stamped with the date of its [createdAt] and the
    next display index.  An updated event replaces the first record with
    its id, in place, by the announced one, which inherits the display
    index.  In both cases the other records and the records of the
    pending queue are untouched, and the listeners are called with the
    new collection, in order of registration, up to the first one that
    throws: all of them, each once, when none throws.  The handler
    returns when none throws and throws otherwise. *)
Theorem remote_event_installs_record (s : State) (event : ReorderItem) (e : Env) :
  reachable s →
  let installed (shown : option nat) :=
    with_index shown (with_timestamp (Some (DateParse (createdAt event))) event) in
  (id event ∉ itemIds s →
   let out := handleReorderItemCreated event e s in
   let s' := out.2 in
   records (heap s') (reorderItems s') =
     records (heap s) (reorderItems s) ++ [installed (Some (getCount s + 1))] ∧
   records (heap s') (pendingSyncItems s') = records (heap s) (pendingSyncItems s) ∧
   broadcasts s' = broadcasts s ++ ((λ l, (l, reorderItems s')) <$> called e s) ∧
   out.1 = (if broadcastThrows e s then Thrown else Resolved ())) ∧
  (∀ i old,
     list_find (λ r, id (deref (heap s) r) = id event) (reorderItems s) = Some (i, old) →
     let out := handleReorderItemUpdated event e s in
     let s' := out.2 in
     records (heap s') (reorderItems s') =
       <[i := installed (index (deref (heap s) old))]> (records (heap s) (reorderItems s)) ∧
     records (heap s') (pendingSyncItems s') = records (heap s) (pendingSyncItems s) ∧
     broadcasts s' = broadcasts s ++ ((λ l, (l, reorderItems s')) <$> called e s) ∧
     out.1 = (if broadcastThrows e s then Thrown else Resolved ())) ∧
  (broadcastThrows e s = false → called e s = listeners s).
Proof.
  intros Hreach installed. destruct (reachable_wf s Hreach) as (W1 & W2 & W3).
  split; [| split; [| apply returned_broadcast]].
  - intros Habsent out s'. subst s' out. unfold handleReorderItemCreated, alloc.
    assert (list_find (λ r, id (deref (heap s) r) = id event) (reorderItems s) = None) as ->.
    { apply list_find_None. apply Forall_forall. intros r Hr Hid. apply Habsent.
      apply elem_of_ids. by exists r. }
    rewrite notifyListeners_eq. simpl.
    rewrite records_snoc, deref_alloc_new, !records_app_old by done. done.
  - intros i old Hfind out s'. subst s' out. unfold handleReorderItemUpdated, alloc.
    rewrite Hfind. rewrite notifyListeners_eq. simpl.
    rewrite records_insert, deref_alloc_new, !records_app_old by done. done.
Qed.

(** One announced record; a second one is announced. *)
Lemma remote_event_installs_record_witness :
  let e := confirmingAt 1700000000123 "k3x9q2m1z" in
  let s := run (initial None) (RemoteCreated (announced "r-1" "ITEM-1" 2) e) in
  let event := announced "r-2" "ITEM-2" 5 in
  let s' := (handleReorderItemCreated event e s).2 in
  reachable s ∧ (id event ∉ itemIds s) ∧
  records (heap s') (reorderItems s') =
    records (heap s) (reorderItems s) ++
    [with_index (Some (getCount s + 1))
       (with_timestamp (Some (DateParse (createdAt event))) event)].
Proof.
  intros e s event s'.
  assert (reachable s) as Hreach by apply (reachable_run _ _ (reachable_initial None)).
  assert (id event ∉ itemIds s) as Habsent.
  { apply (bool_decide_unpack _). vm_compute. exact I. }
  split; [exact Hreach |]. split; [exact Habsent |].
  exact (proj1 (proj1 (remote_event_installs_record s event e Hreach) Habsent)).
Defined.

(** ** Local toggles *)

(** The count of open records when exactly the record at [item] changes. *)
Lemma incomplete_count_flip (h h' : Heap) (l : list ref) (item : ref) :
  NoDup l → item ∈ l →
  (∀ r, r ∈ l → r ≠ item → completed (deref h' r) = completed (deref h r)) →
  completed (deref h' item) = negb (completed (deref h item)) →
  length (filter (λ r, completed (deref h' r) = false) l)
    + (if completed (deref h item) then 0 else 1) =
  length (filter (λ r, completed (deref h r) = false) l)
    + (if completed (deref h item) then 1 else 0).
Proof.
  induction l as [|r l IH]; intros Hnd Hin Hother Hflip.
  - by apply elem_of_nil in Hin.
  - apply NoDup_cons in Hnd as [Hr Hnd].
    destruct (decide (r = item)) as [->|Hne].
    + assert (filter (λ r, completed (deref h' r) = false) l =
              filter (λ r, completed (deref h r) = false) l) as Hrest.
      { apply filter_agree. intros r' Hr'.
        rewrite Hother; [done | by apply list_elem_of_further | by intros ->]. }
      destruct (completed (deref h item)) eqn:Hc; simpl in Hflip.
      * rewrite filter_cons_True by done. rewrite filter_cons_False by (by rewrite Hc).
        rewrite Hrest. simpl. lia.
      * rewrite filter_cons_False by (by rewrite Hflip). rewrite filter_cons_True by done.
        rewrite Hrest. simpl. lia.
    + apply elem_of_cons in Hin as [->|Hin]; [done |].
      specialize (IH Hnd Hin).
      assert (completed (deref h' r) = completed (deref h r)) as Hsame.
      { apply Hother; [apply list_elem_of_here | done]. }
      destruct (completed (deref h r)) eqn:Hc.
      * rewrite !filter_cons_False by congruence. apply IH; [| done].
        intros r' Hr' Hne'. apply Hother; [by apply list_elem_of_further | done].
      * rewrite !filter_cons_True by congruence. simpl.
        specialize (IH ltac:(intros r' Hr' Hne'; apply Hother;
                               [by apply list_elem_of_further | done]) Hflip).
        lia.
Qed.

(** Toggling twice restores a record, up to its update time. *)
Lemma toggled_twice (x : ReorderItem) (t1 t2 : string) :
  with_updatedAt t2
    (with_completed
       (negb (completed (with_updatedAt t1 (with_completed (negb (completed x)) x))))
       (with_updatedAt t1 (with_completed (negb (completed x)) x)))
  = with_updatedAt t2 x.
Proof. destruct x. unfold with_updatedAt, with_completed. simpl. by rewrite negb_involutive. Qed.

(** An offline [toggleCompletion] of a listed id: the record is toggled
    once when no listener throws in the broadcast, and toggled back by
    the [catch] block when one does. *)
Lemma toggleCompletion_offline target userName e s i item :
  wf s → isOfflineMode s = true →
  list_find (λ r, id (deref (heap s) r) = target) (reorderItems s) = Some (i, item) →
  let s' := (toggleCompletion target userName e s).2 in
  let x := deref (heap s) item in
  reorderItems s' = reorderItems s ∧
  deref (heap s') item =
    (if broadcastThrows e s then with_updatedAt (iso (clock e 1)) x
     else with_updatedAt (iso (clock e 0)) (with_completed (negb (completed x)) x)) ∧
  (∀ r, r ∈ reorderItems s → r ≠ item → deref (heap s') r = deref (heap s) r) ∧
  list_find (λ r, id (deref (heap s') r) = target) (reorderItems s') = Some (i, item).
Proof.
  intros W Hoff Hfind s' x. subst s'.
  destruct (list_find_valid _ _ _ _ _ (proj1 W) Hfind) as (Hvalid & Hin & Hlook & Hid).
  assert (∀ r, r ∈ reorderItems s → r < length (heap s)) as Hlive.
  { intros r Hr. destruct W as (W1 & _). rewrite Forall_forall in W1. by apply W1. }
  rewrite (toggleCompletion_offline_eq target userName e s i item Hoff Hfind). cbv zeta.
  fold x.
  destruct (toggleLocally_after_history x userName item e s W Hvalid)
    as (W1 & R1 & E1 & _ & _ & _ & Hd1 & Ho1 & _).
  set (s1 := (toggleLocally item e (logReorderHistory x userName s)).2) in *.
  assert (list_find (λ r, id (deref (heap s1) r) = target) (reorderItems s1)
          = Some (i, item)) as Hfind1.
  { rewrite R1, <- Hfind. apply list_find_id_extends; [exact E1 | apply W]. }
  destruct (broadcastThrows e s).
  - rewrite (toggleFallback_eq target userName _ s1 i item Hfind1).
    assert (item < length (heap s1)) as Hvalid1 by (destruct E1 as [E1 _]; lia).
    destruct (toggleLocally_after_history (deref (heap s1) item) userName item
                (later 1 0 1 0 e) (set_isOfflineMode true s1) W1 Hvalid1)
      as (W2 & R2 & E2 & _ & _ & _ & Hd2 & Ho2 & _).
    cbn [heap reorderItems set_isOfflineMode] in R2, E2, Hd2, Ho2.
    set (s2 := (toggleLocally item (later 1 0 1 0 e)
                  (logReorderHistory (deref (heap s1) item) userName
                     (set_isOfflineMode true s1))).2) in *.
    split; [by rewrite R2, R1 |]. split; [| split].
    + rewrite Hd2, Hd1. apply toggled_twice.
    + intros r Hr Hne. rewrite Ho2; [by apply Ho1; [| apply Hlive] | done |].
      destruct E1 as [E1 _]. specialize (Hlive r Hr). lia.
    + rewrite R2, <- Hfind1. apply list_find_id_extends; [exact E2 | apply W1].
  - cbn [snd]. split; [exact R1 |]. split; [exact Hd1 |]. split; [| exact Hfind1].
    intros r Hr Hne. by apply Ho1; [| apply Hlive].
Qed.

(** X7.  Offline, [toggleCompletion] of a listed id changes one record
    only, the first one with that id, and every other slot of the
    collection shows what it showed.  When no listener throws in the
    broadcast, the record gets the opposite flag and the clock's reading
    as update time, and the count of open records, [getIncompleteCount],
    moves by exactly one.  When a listener throws, the [catch] block
    toggles the record a second time: its flag is as before, its update
    time is the next reading of the clock, and the count is as before. *)
Theorem offline_toggle_flips_one_record (s : State) (target userName : string) (e : Env)
    (i item : nat) :
  reachable s → isOfflineMode s = true →
  list_find (λ r, id (deref (heap s) r) = target) (reorderItems s) = Some (i, item) →
  let s' := (toggleCompletion target userName e s).2 in
  let x := deref (heap s) item in
  (broadcastThrows e s = false →
   records (heap s') (getItems s') =
     <[i := with_updatedAt (iso (clock e 0)) (with_completed (negb (completed x)) x)]>
       (records (heap s) (getItems s)) ∧
   getIncompleteCount s' + (if completed x then 0 else 1) =
     getIncompleteCount s + (if completed x then 1 else 0)) ∧
  (broadcastThrows e s = true →
   records (heap s') (getItems s') =
     <[i := with_updatedAt (iso (clock e 1)) x]> (records (heap s) (getItems s)) ∧
   getIncompleteCount s' = getIncompleteCount s).
Proof.
  intros Hreach Hoff Hfind s' x.
  pose proof (reachable_wf s Hreach) as W.
  destruct (toggleCompletion_offline target userName e s i item W Hoff Hfind)
    as (Tr & Ti & To & _).
  fold s' in Tr, Ti, To. fold x in Ti.
  destruct W as (W1 & W2 & W3).
  destruct (list_find_valid _ _ _ _ _ W1 Hfind) as (Hvalid & Hin & Hlook & Hid).
  split; intros Hb; rewrite Hb in Ti.
  - split.
    + unfold getItems. rewrite Tr. by apply (records_one_changed _ _ _ i item).
    + unfold getIncompleteCount. rewrite Tr.
      apply incomplete_count_flip; [done | done | |].
      * intros r Hr Hne. by rewrite To.
      * by rewrite Ti.
  - split.
    + unfold getItems. rewrite Tr. by apply (records_one_changed _ _ _ i item).
    + unfold getIncompleteCount. rewrite Tr. f_equal.
      apply filter_agree. intros r Hr.
      destruct (decide (r = item)) as [->|Hne]; [by rewrite Ti | by rewrite To].
Qed.

(** Offline, one widget on the list. *)
Lemma offline_toggle_flips_one_record_witness :
  let s := runAll (initial None)
             [Initialize None (unreachableAt 1700000000000 "k3x9q2m1z");
              AddItem widget 3 None "ann" false (unreachableAt 1700000000123 "k3x9q2m1z")] in
  let key := "offline-1700000000123-k3x9q2m1z" in
  let e := unreachableAt 1700000000456 "p0o9i8u7y" in
  let s' := (toggleCompletion key "ann" e s).2 in
  reachable s ∧ isOfflineMode s = true ∧
  list_find (λ r, id (deref (heap s) r) = key) (reorderItems s) = Some (0, 0) ∧
  broadcastThrows e s = false ∧
  getIncompleteCount s' + (if completed (deref (heap s) 0) then 0 else 1) =
    getIncompleteCount s + (if completed (deref (heap s) 0) then 1 else 0).
Proof.
  intros s key e s'.
  assert (reachable s) as Hreach by apply reachable_runAll, reachable_initial.
  assert (isOfflineMode s = true) as Hoff by (vm_compute; reflexivity).
  assert (list_find (λ r, id (deref (heap s) r) = key) (reorderItems s) = Some (0, 0))
    as Hfind by (vm_compute; reflexivity).
  assert (broadcastThrows e s = false) as Hb by (vm_compute; reflexivity).
  split; [exact Hreach |]. split; [exact Hoff |]. split; [exact Hfind |].
  split; [exact Hb |].
  exact (proj2 (proj1 (offline_toggle_flips_one_record s key "ann" e 0 0 Hreach Hoff Hfind)
                  Hb)).
Defined.

(** X8.  Offline, when no listener throws, two successive
    [toggleCompletion] of the same id restore the collection up to the
    update time of the toggled record, and [getIncompleteCount] is as
    before. *)
Theorem offline_toggle_twice_restores (s : State) (target userName : string) (e1 e2 : Env)
    (i item : nat) :
  reachable s → isOfflineMode s = true →
  quiet e1 → quiet e2 →
  list_find (λ r, id (deref (heap s) r) = target) (reorderItems s) = Some (i, item) →
  let s2 := (toggleCompletion target userName e2 (toggleCompletion target userName e1 s).2).2 in
  records (heap s2) (getItems s2) =
    <[i := with_updatedAt (iso (clock e2 0)) (deref (heap s) item)]>
      (records (heap s) (getItems s)) ∧
  getIncompleteCount s2 = getIncompleteCount s.
Proof.
  intros Hreach Hoff Hq1 Hq2 Hfind s2.
  set (s1 := (toggleCompletion target userName e1 s).2) in *.
  pose proof (reachable_wf s Hreach) as W.
  assert (reachable s1) as Hreach1
    by apply (reachable_run s (ToggleCompletion target userName e1) Hreach).
  pose proof (reachable_wf s1 Hreach1) as W'.
  destruct (toggleCompletion_offline target userName e1 s i item W Hoff Hfind)
    as (Tr & Ti & To & Hfind1).
  fold s1 in Tr, Ti, To, Hfind1.
  rewrite (proj1 (quiet_broadcast e1 s Hq1)) in Ti.
  assert (isOfflineMode s1 = true) as Hoff1.
  { subst s1. by rewrite toggleCompletion_mode, Hoff. }
  destruct (toggleCompletion_offline target userName e2 s1 i item W' Hoff1 Hfind1)
    as (Tr2 & Ti2 & To2 & _).
  fold s2 in Tr2, Ti2, To2.
  rewrite (proj1 (quiet_broadcast e2 s1 Hq2)) in Ti2.
  destruct W as (W1 & W2 & W3).
  destruct (list_find_valid _ _ _ _ _ W1 Hfind) as (Hvalid & Hin & Hlook & Hid).
  assert (deref (heap s2) item = with_updatedAt (iso (clock e2 0)) (deref (heap s) item))
    as Hitem.
  { rewrite Ti2, Ti. apply toggled_twice. }
  assert (∀ r, r ∈ reorderItems s → r ≠ item → deref (heap s2) r = deref (heap s) r)
    as Hothers.
  { intros r Hr Hne. rewrite To2; [by apply To | by rewrite Tr | done]. }
  split.
  - unfold getItems. rewrite Tr2, Tr. by apply (records_one_changed _ _ _ i item).
  - unfold getIncompleteCount. rewrite Tr2, Tr. f_equal.
    apply filter_agree. intros r Hr.
    destruct (decide (r = item)) as [->|Hne]; [by rewrite Hitem | by rewrite Hothers].
Qed.

(** The same list, toggled twice. *)
Lemma offline_toggle_twice_restores_witness :
  let s := runAll (initial None)
             [Initialize None (unreachableAt 1700000000000 "k3x9q2m1z");
              AddItem widget 3 None "ann" false (unreachableAt 1700000000123 "k3x9q2m1z")] in
  let key := "offline-1700000000123-k3x9q2m1z" in
  let e1 := unreachableAt 1700000000456 "p0o9i8u7y" in
  let e2 := unreachableAt 1700000000789 "p0o9i8u7y" in
  let s2 := (toggleCompletion key "ann" e2 (toggleCompletion key "ann" e1 s).2).2 in
  reachable s ∧ isOfflineMode s = true ∧ quiet e1 ∧ quiet e2 ∧
  list_find (λ r, id (deref (heap s) r) = key) (reorderItems s) = Some (0, 0) ∧
  getIncompleteCount s2 = getIncompleteCount s.
Proof.
  intros s key e1 e2 s2.
  assert (reachable s) as Hreach by apply reachable_runAll, reachable_initial.
  assert (isOfflineMode s = true) as Hoff by (vm_compute; reflexivity).
  assert (quiet e1) as Hq1 by (intros l k; reflexivity).
  assert (quiet e2) as Hq2 by (intros l k; reflexivity).
  assert (list_find (λ r, id (deref (heap s) r) = key) (reorderItems s) = Some (0, 0))
    as Hfind by (vm_compute; reflexivity).
  split; [exact Hreach |]. split; [exact Hoff |]. split; [exact Hq1 |]. split; [exact Hq2 |].
  split; [exact Hfind |].
  exact (proj2 (offline_toggle_twice_restores s key "ann" e1 e2 0 0 Hreach Hoff Hq1 Hq2 Hfind)).
Defined.

(** ** Records committed locally *)

Lemma finish_storage e s :
  storage (notifyListeners e (saveOfflineItems e s)).2 =
    snapshotAfter e (records (heap s) (reorderItems s)) (storage s) ∧
  broadcasts (notifyListeners e (saveOfflineItems e s)).2 =
    broadcasts s ++ ((λ l, (l, reorderItems s)) <$> called e s).
Proof. by destruct (finish_fields e s) as (_ & _ & _ & _ & _ & _ & -> & ->). Qed.

(** X9.  Offline, when no listener throws in the broadcast, [addItem]
    for a source item that no record references appends one record to
    the collection, the one built by [newReorderItem], with the next
    display index.  The pending queue gets a copy of it, another object.
    The call reports success.  The offline snapshot is the text of the
    new collection when the write goes through, and the old snapshot
    when it throws. *)
Theorem offline_addItem_appends_new_record (s : State) (item : ConvertedItem) (qty : number)
    (team : option TeamData) (user : string) (overwriteMode : bool) (e : Env) :
  reachable s → isOfflineMode s = true →
  c_id item ∉ itemId <$> records (heap s) (reorderItems s) →
  broadcastThrows e s = false →
  let out := addItem item qty team user overwriteMode e s in
  let new := newReorderItem item qty team user e s in
  out.1 = Resolved true ∧
  records (heap out.2) (getItems out.2) = records (heap s) (getItems s) ++ [new] ∧
  records (heap out.2) (pendingSyncItems out.2) =
    records (heap s) (pendingSyncItems s) ++ [new] ∧
  last (pendingSyncItems out.2) ≠ last (reorderItems out.2) ∧
  storage out.2 =
    snapshotAfter e (records (heap s) (getItems s) ++ [new]) (storage s) ∧
  index new = Some (getCount s + 1).
Proof.
  intros Hreach Hoff Hnew Hquiet out new.
  destruct (reachable_wf s Hreach) as (W1 & W2 & W3).
  assert (list_find (λ r, itemId (deref (heap s) r) = c_id item) (reorderItems s) = None)
    as Hfind.
  { apply list_find_None. apply Forall_forall. intros r Hr Hid. apply Hnew.
    rewrite <- Hid. unfold records. rewrite <- list_fmap_compose.
    by apply (list_elem_of_fmap_2 (itemId ∘ deref (heap s))). }
  assert (out = (Resolved true, (addItemOffline item qty team user overwriteMode e s).2))
    as ->.
  { unfold out, addItem. rewrite Hoff. unfold tryCatch.
    by rewrite addItemOffline_reply, Hquiet. }
  cbn [fst snd]. split; [done |].
  rewrite addItemOffline_state. unfold addLocally. rewrite Hfind. fold new.
  unfold clone, alloc. cbn [heap reorderItems set_reorderItems set_heap].
  match goal with |- context [saveOfflineItems e ?X] =>
    destruct (finish_arrays e X) as (Fh & Fr & Fp);
    destruct (finish_storage e X) as (Fs & _) end.
  unfold getItems. rewrite Fh, Fr, Fp, Fs. simpl.
  rewrite deref_alloc_new.
  assert (records ((heap s ++ [new]) ++ [new]) (reorderItems s ++ [length (heap s)])
          = records (heap s) (reorderItems s) ++ [new]) as Hitems.
  { rewrite records_snoc, <- app_assoc, records_app_old by done.
    rewrite app_assoc, deref_app_old by (rewrite length_app; simpl; lia).
    by rewrite deref_alloc_new. }
  split; [exact Hitems |]. split; [| split; [| split]].
  - rewrite records_snoc, deref_alloc_new.
    by rewrite <- app_assoc, records_app_old.
  - rewrite !last_snoc. rewrite length_app. simpl. intros [=]. lia.
  - by rewrite Hitems.
  - done.
Qed.

(** With a listener that throws at every call, the [catch] block adds
    the quantity again to the record just appended, and the call is
    rejected: three widgets are asked for and the list shows six. *)
Example offline_addItem_with_throwing_listener :
  let e := throwing 7 (unreachableAt 1700000000123 "k3x9q2m1z") in
  let s := run (initial None) (AddListener 7 (unreachableAt 1700000000000 "k3x9q2m1z")) in
  let out := addItem widget 3 None "ann" false e s in
  isOfflineMode s = true ∧ getItems s = [] ∧
  out.1 = Thrown ∧
  quantity <$> records (heap out.2) (getItems out.2) = [Some 6%float] ∧
  quantity <$> records (heap out.2) (pendingSyncItems out.2) = [Some 6%float].
Proof. vm_compute. done. Qed.

(** Offline with an empty list. *)
Lemma offline_addItem_appends_new_record_witness :
  let s := run (initial None) (Initialize None (unreachableAt 1700000000000 "k3x9q2m1z")) in
  let e := unreachableAt 1700000000123 "k3x9q2m1z" in
  let out := addItem widget 3 None "ann" false e s in
  reachable s ∧ isOfflineMode s = true ∧
  (c_id widget ∉ itemId <$> records (heap s) (reorderItems s)) ∧
  broadcastThrows e s = false ∧
  out.1 = Resolved true ∧
  records (heap out.2) (getItems out.2) =
    records (heap s) (getItems s) ++ [newReorderItem widget 3 None "ann" e s].
Proof.
  intros s e out.
  assert (reachable s) as Hreach by apply (reachable_run _ _ (reachable_initial None)).
  assert (isOfflineMode s = true) as Hoff by (vm_compute; reflexivity).
  assert (c_id widget ∉ itemId <$> records (heap s) (reorderItems s)) as Hnew.
  { apply (bool_decide_unpack _). vm_compute. exact I. }
  assert (broadcastThrows e s = false) as Hquiet by (vm_compute; reflexivity).
  destruct (offline_addItem_appends_new_record s widget 3%float None "ann" false e
              Hreach Hoff Hnew Hquiet) as (Hout & Hitems & _).
  split; [exact Hreach |]. split; [exact Hoff |]. split; [exact Hnew |].
  split; [exact Hquiet |]. split; [exact Hout | exact Hitems].
Defined.

(** X10.  Offline, when no listener throws in the broadcast,
    [addCustomItem] puts the new record first in the collection, with a
    display index one more than the old count.  The pending queue gets
    the very same object as its last entry.  The record refers to
    itself, so [toggleCompletion] never reports it to the item
    history. *)
Theorem offline_addCustomItem_prepends (s : State) (c : CustomItem) (e : Env) :
  reachable s → isOfflineMode s = true →
  broadcastThrows e s = false →
  let out := addCustomItem c e s in
  let new := newCustomItem c e s in
  out.1 = Resolved true ∧
  records (heap out.2) (getItems out.2) = new :: records (heap s) (getItems s) ∧
  records (heap out.2) (pendingSyncItems out.2) =
    records (heap s) (pendingSyncItems s) ++ [new] ∧
  last (pendingSyncItems out.2) = head (reorderItems out.2) ∧
  storage out.2 = snapshotAfter e (new :: records (heap s) (getItems s)) (storage s) ∧
  index new = Some (getCount s + 1) ∧ itemId new = id new ∧ tracksReorder new = false.
Proof.
  intros Hreach Hoff Hquiet out new.
  destruct (reachable_wf s Hreach) as (W1 & W2 & W3).
  assert (out = (Resolved true, (commitCustomItem new e s).2)) as ->.
  { unfold out, addCustomItem. rewrite Hoff. fold new. unfold tryCatch.
    rewrite andThen_outcome, andThen_state, commitCustomItem_reply, Hquiet. done. }
  cbn [fst snd]. split; [done |].
  unfold commitCustomItem, alloc. cbv zeta.
  match goal with |- context [saveOfflineItems e ?X] =>
    destruct (finish_arrays e X) as (Fh & Fr & Fp);
    destruct (finish_storage e X) as (Fs & _) end.
  unfold getItems. rewrite Fh, Fr, Fp, Fs. simpl.
  assert (records (heap s ++ [new]) (length (heap s) :: reorderItems s)
          = new :: records (heap s) (reorderItems s)) as Hitems.
  { unfold records at 1. simpl. rewrite deref_alloc_new. f_equal.
    by apply records_app_old. }
  split; [exact Hitems |]. split; [| split; [| split; [| split; [| split]]]].
  - by rewrite records_snoc, deref_alloc_new, records_app_old.
  - by rewrite last_snoc.
  - by rewrite deref_alloc_new, records_app_old.
  - done.
  - done.
  - unfold tracksReorder. apply andb_false_iff. right.
    apply negb_false_iff. by apply bool_decide_eq_true_2.
Qed.

(** With a listener that throws at every call, the [catch] block builds
    and commits a second record: one call leaves two records. *)
Example offline_addCustomItem_with_throwing_listener :
  let e := throwing 7 (tickingAt 1700000000123) in
  let s := run (initial None) (AddListener 7 (unreachableAt 1700000000000 "k3x9q2m1z")) in
  let out := addCustomItem tape e s in
  isOfflineMode s = true ∧ getItems s = [] ∧
  out.1 = Thrown ∧
  itemIds out.2 = ["custom-1700000000127-r1"; "custom-1700000000123-r0"] ∧
  pendingIds out.2 = ["custom-1700000000123-r0"; "custom-1700000000127-r1"].
Proof. vm_compute. done. Qed.

(** Offline, one widget on the list. *)
Lemma offline_addCustomItem_prepends_witness :
  let s := runAll (initial None)
             [Initialize None (unreachableAt 1700000000000 "k3x9q2m1z");
              AddItem widget 3 None "ann" false (unreachableAt 1700000000123 "k3x9q2m1z")] in
  let e := unreachableAt 1700000000456 "p0o9i8u7y" in
  let out := addCustomItem tape e s in
  reachable s ∧ isOfflineMode s = true ∧ broadcastThrows e s = false ∧
  out.1 = Resolved true ∧
  records (heap out.2) (getItems out.2) =
    newCustomItem tape e s :: records (heap s) (getItems s).
Proof.
  intros s e out.
  assert (reachable s) as Hreach by apply reachable_runAll, reachable_initial.
  assert (isOfflineMode s = true) as Hoff by (vm_compute; reflexivity).
  assert (broadcastThrows e s = false) as Hquiet by (vm_compute; reflexivity).
  destruct (offline_addCustomItem_prepends s tape e Hreach Hoff Hquiet) as (Hout & Hitems & _).
  split; [exact Hreach |]. split; [exact Hoff |]. split; [exact Hquiet |].
  split; [exact Hout | exact Hitems].
Defined.

(** ** The requests of a flush and of [clear] *)

Lemma syncLoop_log e l k synced s :
  log (syncLoop e k l synced s).2 =
  rev ((λ p, GqlCreateReorderItem (createInputOfPending (deref (heap s) p))) <$> l) ++ log s.
Proof.
  revert k synced s. induction l as [|p l IH]; intros k synced s; [done |].
  simpl. rewrite <- app_assoc. simpl.
  destruct (createReply e k) as [[|]|]; by rewrite IH.
Qed.

(** X11.  A flush resubmits every entry of the pending queue once, in
    queue order, as a creation that carries the fields of the queued
    copy, whatever the answers to the earlier entries.  It makes no
    other call and leaves the objects, the collection, the snapshot and
    the listeners alone.  With an empty queue it does nothing. *)
Theorem flush_resubmits_every_entry (e : Env) (s : State) :
  let s' := syncPendingItems e s in
  log s' =
    rev ((λ p, GqlCreateReorderItem (createInputOfPending (deref (heap s) p)))
           <$> pendingSyncItems s) ++ log s ∧
  heap s' = heap s ∧ reorderItems s' = reorderItems s ∧ storage s' = storage s ∧
  broadcasts s' = broadcasts s ∧
  (pendingSyncItems s = [] → s' = s).
Proof.
  intros s'. subst s'. unfold syncPendingItems.
  destruct (pendingSyncItems s) as [|p l] eqn:Hp; [done |].
  destruct (syncLoop e 0 (p :: l) [] s) as [synced s1] eqn:Hloop.
  pose proof (syncLoop_log e (p :: l) 0 [] s) as Hlog.
  pose proof (syncLoop_sameButLog e (p :: l) 0 [] s) as Hsame.
  rewrite Hloop in Hlog, Hsame. simpl in Hlog, Hsame.
  destruct Hsame as (Hh & Hr & _ & _ & _ & _ & _ & _ & Hst & Hb).
  simpl. by rewrite Hlog, Hh, Hr, Hst, Hb.
Qed.

(** An empty queue. *)
Lemma flush_resubmits_every_entry_witness :
  let s := initial None in
  let e := confirmingAt 1700000000000 "k3x9q2m1z" in
  pendingSyncItems s = [] ∧ syncPendingItems e s = s.
Proof.
  intros s e. split; [reflexivity |].
  destruct (flush_resubmits_every_entry e s) as (_ & _ & _ & _ & _ & Hempty).
  by apply Hempty.
Defined.

Lemma clearLoop_sent e l k s :
  ∃ n, n ≤ length l ∧
       log (clearLoop e k l s) =
         rev (GqlDeleteReorderItem <$> take n (ids (heap s) l)) ++ log s ∧
       (∀ j, j + 1 < n → ∃ b, deleteReply e (k + j) = Resolved b) ∧
       (n < length l → ∃ j, n = j + 1 ∧ deleteReply e (k + j) = Thrown).
Proof.
  revert k s. induction l as [|r l IH]; intros k s.
  - exists 0. simpl. split; [lia |]. split; [done |]. split; intros; lia.
  - simpl. destruct (deleteReply e k) as [b|] eqn:Hk.
    + destruct (IH (S k) (emit (GqlDeleteReorderItem (id (deref (heap s) r))) s))
        as (n & Hn & Hlog & Hbefore & Hlast).
      exists (S n). split; [lia |]. split; [| split].
      * rewrite Hlog. simpl. by rewrite <- app_assoc.
      * intros [|j] Hj.
        -- exists b. by rewrite Nat.add_0_r.
        -- destruct (Hbefore j) as [b' Hb']; [lia |]. exists b'.
           by replace (k + S j) with (S k + j) by lia.
      * intros Hlt. destruct Hlast as (j & -> & Hj); [lia |].
        exists (S j). split; [lia |]. by replace (k + S j) with (S k + j) by lia.
    + exists 1. split; [lia |]. split; [done |]. split.
      * intros j Hj. lia.
      * intros _. exists 0. split; [done |]. by rewrite Nat.add_0_r.
Qed.

(** X12.  [clear] sends the delete requests in the order of the
    collection and stops at the first one that throws: the requests sent
    are those for the first [n] records, every request before the last
    one sent was answered, and when [n] is less than the count the last
    one sent threw. *)
Theorem clear_stops_at_first_failure (e : Env) (s : State) :
  ∃ n, n ≤ getCount s ∧
       log (clear e s) = rev (GqlDeleteReorderItem <$> take n (itemIds s)) ++ log s ∧
       (∀ j, j + 1 < n → ∃ b, deleteReply e j = Resolved b) ∧
       (n < getCount s → ∃ j, n = j + 1 ∧ deleteReply e j = Thrown).
Proof.
  destruct (clearLoop_sent e (reorderItems s) 0 s) as (n & Hn & Hlog & Hbefore & Hlast).
  exists n. unfold clear, getCount, itemIds. done.
Qed.

(** Two records; the second delete request throws. *)
Lemma clear_stops_at_first_failure_witness :
  let s := runAll (initial None)
             [RemoteCreated (announced "r-1" "ITEM-1" 2) deletingOnce;
              RemoteCreated (announced "r-2" "ITEM-2" 5) deletingOnce;
              RemoteCreated (announced "r-3" "ITEM-3" 1) deletingOnce] in
  ∃ n, n = 2 ∧
       log (clear deletingOnce s) =
         rev (GqlDeleteReorderItem <$> take n (itemIds s)) ++ log s.
Proof.
  intros s.
  destruct (clear_stops_at_first_failure deletingOnce s) as (n & Hn & Hlog & Hbefore & Hlast).
  exists n. split; [| exact Hlog].
  assert (getCount s = 3) as Hcount by (vm_compute; reflexivity).
  rewrite Hcount in Hn, Hlast.
  destruct (decide (n = 3)) as [->|Hne].
  - destruct (Hbefore 1) as [b Hb]; [lia |]. discriminate Hb.
  - destruct Hlast as (j & -> & Hj); [lia |].
    destruct j as [|[|j]]; [discriminate Hj | done |].
    destruct (Hbefore 1) as [b Hb]; [lia |]. discriminate Hb.
Defined.


(** ** The offline snapshot and [refresh] *)

Lemma textFields_stamp i x : textFields (stamp i x) = textFields x.
Proof. done. Qed.

Lemma fmap_imap_stamp {B} (p : ReorderItem → B) (q : nat → ReorderItem → B)
    (items : list ReorderItem) :
  (∀ i x, p (stamp i x) = q i x) → p <$> imap stamp items = imap q items.
Proof.
  intros Hp. rewrite fmap_imap. apply imap_ext. intros i x _. simpl. apply Hp.
Qed.

Lemma imap_index_seq {A} (l : list A) :
  imap (λ i _, Some (i + 1)) l = Some <$> seq 1 (length l).
Proof.
  rewrite (imap_seq_0 l (λ j, Some (j + 1))).
  rewrite <- fmap_S_seq, <- list_fmap_compose.
  apply list_fmap_ext. intros i x _. simpl. f_equal. lia.
Qed.

(** What [loadOfflineItems] installs from a snapshot. *)
Lemma loadOfflineItems_installs e s u items :
  storageGet e 0 = Resolved u → storage s = Some items →
  let s' := loadOfflineItems e s in
  records (heap s') (reorderItems s') = imap stamp items ∧
  pendingSyncItems s' = pendingSyncItems s ∧ log s' = log s ∧
  broadcasts s' = broadcasts s ∧ storage s' = storage s.
Proof.
  intros Hget Hst s'. subst s'. unfold loadOfflineItems, alloc_all. rewrite Hget, Hst.
  simpl. split; [| done]. apply records_seq.
Qed.

(** The numbers that come back from the snapshot as they were saved. *)
Lemma jsonNumber_cases (f : number) :
  jsonNumber (Some f) =
  if jsonExact f then Some f
  else if PrimFloat.is_finite f then Some 0%float else None.
Proof.
  unfold jsonNumber, jsonExact.
  destruct (PrimFloat.is_finite f); [| done].
  by destruct (PrimFloat.Leibniz.eqb f (PrimFloat.opp 0%float)).
Qed.

(** Reading a stored record through a projection that [stamp] and the
    text keep or change as [q] says. *)
Lemma round_trip_field {B} (p q : ReorderItem → B) (saved : list ReorderItem) :
  (∀ i x, p (stamp i (jsonItem x)) = q x) →
  p <$> imap stamp (jsonItem <$> saved) = q <$> saved.
Proof.
  intros Hp. rewrite fmap_imap, imap_fmap, <- (imap_const q).
  apply imap_ext. intros i x _. apply Hp.
Qed.

(** X13.  A snapshot written by [saveOfflineItems] and read back by
    [loadOfflineItems] yields the records that were listed, in order:
    the strings and the completed flag are those saved; the numbers are
    those that the JSON text carries: a quantity or a price that is
    finite and not [-0] comes back as it was saved, [-0] comes back as
    [0], and a number that is not finite ([NaN], an infinity) comes back
    as [null]; the display indices are 1..N and the time stamp is the
    date of [createdAt].  The pending queue is untouched. *)
Theorem snapshot_round_trip (e1 e2 : Env) (s : State) (u1 u2 : unit) :
  storageSet e1 0 = Resolved u1 → storageGet e2 0 = Resolved u2 →
  let s' := loadOfflineItems e2 (saveOfflineItems e1 s) in
  let saved := records (heap s) (getItems s) in
  let loaded := records (heap s') (getItems s') in
  textFields <$> loaded = textFields <$> saved ∧
  quantity <$> loaded = (λ x, jsonNumber (quantity x)) <$> saved ∧
  itemPrice <$> loaded = (λ x, jsonNumber (itemPrice x)) <$> saved ∧
  teamData <$> loaded = (λ x, jsonTeamData <$> teamData x) <$> saved ∧
  index <$> loaded = Some <$> seq 1 (getCount s) ∧
  timestamp <$> loaded = (λ x, Some (DateParse (createdAt x))) <$> saved ∧
  pendingSyncItems s' = pendingSyncItems s ∧
  (∀ f, jsonNumber (Some f) =
        if jsonExact f then Some f
        else if PrimFloat.is_finite f then Some 0%float else None) ∧
  jsonNumber None = None.
Proof.
  intros Hset Hget s' saved loaded.
  assert (storage (saveOfflineItems e1 s) = Some (jsonItem <$> saved)) as Hst.
  { unfold saveOfflineItems. by rewrite Hset. }
  destruct (loadOfflineItems_installs e2 (saveOfflineItems e1 s) u2 _ Hget Hst)
    as (Hrec & Hpend & _).
  fold s' in Hrec, Hpend. unfold loaded, getItems. rewrite Hrec, Hpend.
  split; [by apply round_trip_field |]. split; [by apply round_trip_field |].
  split; [by apply round_trip_field |]. split; [by apply round_trip_field |].
  split; [| split; [by apply round_trip_field |]].
  - rewrite (fmap_imap_stamp index (λ i _, Some (i + 1))) by done.
    rewrite imap_index_seq. unfold saved, records, getCount, getItems.
    by rewrite !length_fmap.
  - split; [| split; [apply jsonNumber_cases | done]].
    unfold saveOfflineItems. by rewrite Hset.
Qed.

(** A quantity that is not a finite number is not kept by the snapshot:
    it comes back as [null]; and [-0] comes back as [0]. *)
Example snapshot_drops_infinite_quantity :
  let e := confirmingAt 1700000000000 "k3x9q2m1z" in
  let s := runAll (initial None)
             [RemoteCreated (announced "r-1" "ITEM-1" infinity) e;
              RemoteCreated (announced "r-2" "ITEM-2" nan) e;
              RemoteCreated (announced "r-3" "ITEM-3" (-0)) e;
              RemoteCreated (announced "r-4" "ITEM-4" 2.5) e] in
  let s' := loadOfflineItems e (saveOfflineItems e s) in
  quantity <$> records (heap s') (getItems s') =
    [None; None; Some 0%float; Some 2.5%float].
Proof. vm_compute. done. Qed.

(** One announced record, saved and loaded again. *)
Lemma snapshot_round_trip_witness :
  let e := confirmingAt 1700000000000 "k3x9q2m1z" in
  let s := run (initial None) (RemoteCreated (announced "r-1" "ITEM-1" 2) e) in
  let s' := loadOfflineItems e (saveOfflineItems e s) in
  storageSet e 0 = Resolved () ∧ storageGet e 0 = Resolved () ∧
  textFields <$> records (heap s') (getItems s') =
    textFields <$> records (heap s) (getItems s) ∧
  quantity <$> records (heap s') (getItems s') = [Some 2%float].
Proof.
  intros e s s'. split; [reflexivity |]. split; [reflexivity |].
  destruct (snapshot_round_trip e e s () () eq_refl eq_refl) as (Ht & Hq & _).
  split; [exact Ht |]. etrans; [exact Hq | vm_compute; reflexivity].
Defined.

Lemma pending_loadReorderItems e s :
  pendingSyncItems (loadReorderItems e s) = pendingSyncItems s.
Proof.
  assert (∀ k l s0, pendingSyncItems (loadTeamDataFrom e k l s0) = pendingSyncItems s0) as Hteam.
  { intros k l s0. by destruct (keeps_loadTeamDataFrom e l k s0) as (_ & _ & _ & -> & _). }
  assert (∀ items s0, pendingSyncItems (adoptServerItems items e s0).2 = pendingSyncItems s0)
    as Hadopt.
  { intros items s0. unfold adoptServerItems, saveReorderItemsLocally, alloc_all,
      loadTeamDataForItems.
    rewrite notifyListeners_eq. simpl. by rewrite Hteam. }
  assert (∀ s0, pendingSyncItems (recoverFromDynamoDB e s0) = pendingSyncItems s0) as Hrec.
  { intros s0. unfold recoverFromDynamoDB.
    destruct (monitorReply e); [| done].
    destruct (listReply e) as [[items|]|]; try done. by rewrite Hadopt. }
  unfold loadReorderItems, loadLocalReorderItems.
  destruct (dbRows e) as [rows|]; cbv beta iota zeta; [| by rewrite Hrec].
  destruct (itemOfRow <$> rows) as [|x xs]; [by rewrite Hrec |].
  unfold loadTeamDataForItems, alloc_all. by rewrite Hteam.
Qed.

(** X14.  When the probe of [refresh] throws, the session is offline,
    the probe is the only outgoing call, the pending queue is untouched,
    and the collection is replaced by the stored snapshot, indexed anew,
    when one can be read, and kept otherwise.  The listeners are called
    with the result, in order of registration, up to the first one that
    throws: all of them, each once, when none throws.  [refresh] returns
    in both cases. *)
Theorem refresh_offline_reloads_snapshot (e : Env) (s : State) :
  authProbe e = Thrown →
  let s' := refresh e s in
  getSyncStatus s' =
    {| isOnline := false; pendingCount := length (pendingSyncItems s);
       isAuthenticated := false |} ∧
  pendingSyncItems s' = pendingSyncItems s ∧
  log s' = GqlListReorderItems 1 :: log s ∧
  broadcasts s' = broadcasts s ++ ((λ l, (l, reorderItems s')) <$> called e s) ∧
  (broadcastThrows e s = false → called e s = listeners s) ∧
  match storageGet e 0, storage s with
  | Resolved _, Some items => records (heap s') (getItems s') = imap stamp items
  | _, _ => heap s' = heap s ∧ reorderItems s' = reorderItems s
  end.
Proof.
  intros Hprobe s'. subst s'. unfold refresh, checkAuthStatus. rewrite Hprobe.
  rewrite notifyListeners_eq. unfold getSyncStatus, getItems. cbn [snd].
  match goal with |- context [called e (loadOfflineItems e ?s1)] =>
    destruct (broadcast_local e s1 _ (localChange_loadOfflineItems e s1)) as [_ ->];
    change (called e s1) with (called e s) end.
  unfold loadOfflineItems, alloc_all.
  destruct (storageGet e 0) as [u|]; [destruct (storage s) as [items|] eqn:Hst |]; simpl;
    rewrite ?Hst; simpl; repeat split; try done; try apply returned_broadcast.
  apply records_seq.
Qed.

(** Offline with one queued widget; the probe fails again. *)
Lemma refresh_offline_reloads_snapshot_witness :
  let s := runAll (initial None)
             [Initialize None (unreachableAt 1700000000000 "k3x9q2m1z");
              AddItem widget 3 None "ann" false (unreachableAt 1700000000123 "k3x9q2m1z")] in
  let e := unreachableAt 1700000000456 "p0o9i8u7y" in
  authProbe e = Thrown ∧ pendingSyncItems (refresh e s) = pendingSyncItems s ∧
  log (refresh e s) = GqlListReorderItems 1 :: log s.
Proof.
  intros s e. split; [reflexivity |].
  destruct (refresh_offline_reloads_snapshot e s eq_refl) as (_ & Hp & Hl & _).
  split; [exact Hp | exact Hl].
Defined.

(** X15.  When the probe of [refresh] is answered and every resubmitted
    creation is confirmed, the pending queue is empty afterwards, and
    [getSyncStatus] reports an online session with nothing pending. *)
Theorem refresh_online_flushes_queue (e : Env) (s : State) (u : unit) :
  authProbe e = Resolved u →
  (∀ k, k < length (pendingSyncItems s) → createReply e k = Resolved true) →
  let s' := refresh e s in
  pendingSyncItems s' = [] ∧
  getSyncStatus s' = {| isOnline := true; pendingCount := 0; isAuthenticated := true |}.
Proof.
  intros Hprobe Hall s'.
  assert (pendingSyncItems s' = []) as Hempty.
  { subst s'. unfold refresh, checkAuthStatus. rewrite Hprobe.
    rewrite notifyListeners_eq. simpl. rewrite pending_loadReorderItems.
    set (s0 := set_isOfflineMode false (emit (GqlListReorderItems 1) s)).
    destruct (syncPendingItems_pending e s0) as (synced & Hsynced & _ & ->).
    apply list_eq. intros j. rewrite lookup_nil.
    destruct (filter _ _ !! j) as [p|] eqn:Hj; [| done].
    apply list_elem_of_lookup_2, list_elem_of_filter in Hj as [Hns Hin].
    exfalso. apply Hns. apply Hsynced.
    apply list_elem_of_lookup in Hin as [k Hk].
    exists k, p. split; [done |]. split; [done |].
    apply Hall. by eapply lookup_lt_Some. }
  split; [exact Hempty |].
  destruct (refresh_session e s) as (_ & _ & _ & M). fold s' in M.
  unfold getSyncStatus. rewrite Hempty, M, Hprobe. done.
Qed.

(** Offline with one queued widget; the service is back and confirms. *)
Lemma refresh_online_flushes_queue_witness :
  let s := runAll (initial None)
             [Initialize None (unreachableAt 1700000000000 "k3x9q2m1z");
              AddItem widget 3 None "ann" false (unreachableAt 1700000000123 "k3x9q2m1z")] in
  let e := confirmingAt 1700000000456 "p0o9i8u7y" in
  length (pendingSyncItems s) = 1 ∧ authProbe e = Resolved () ∧
  (∀ k, k < length (pendingSyncItems s) → createReply e k = Resolved true) ∧
  pendingSyncItems (refresh e s) = [].
Proof.
  intros s e.
  assert (∀ k, k < length (pendingSyncItems s) → createReply e k = Resolved true) as Hall
    by (intros k _; reflexivity).
  split; [vm_compute; reflexivity |]. split; [reflexivity |]. split; [exact Hall |].
  exact (proj1 (refresh_online_flushes_queue e s () eq_refl Hall)).
Defined.


(** ** Initialisation and the first listener *)

(** After [initialize] the service is initialised, for the user given. *)
Lemma initialize_user userId e s :
  isInitialized (initialize userId e s).2 = true ∧
  (str_or_undefined userId ≠ None →
   currentUserId (initialize userId e s).2 = str_or_undefined userId).
Proof.
  destruct (isInitialized s && sameUser (currentUserId s) userId) eqn:Hskip.
  - unfold initialize. rewrite Hskip. cbn [snd].
    apply andb_true_iff in Hskip as [Hinit Hsame]. split; [done |]. intros Hu.
    unfold sameUser in Hsame. destruct (currentUserId s) as [a|], userId as [b|]; try done.
    apply bool_decide_eq_true in Hsame as ->.
    simpl in *. by case_decide.
  - destruct (initialize_session userId e s Hskip) as (_ & I & U & _). done.
Qed.

(** X16.  [initialize] is skipped only for the user it ran for.  A
    second call with the same non-empty user id changes nothing and
    calls no listener.  A call with another user id, and every call
    without a user id, probes again; the session is offline afterwards
    when the probe throws or when a listener throws in the broadcast,
    and online otherwise: when no listener throws, the mode is the one
    that the probe gives. *)
Theorem initialize_reruns_unless_same_user (e1 e2 : Env) (s : State) :
  (∀ u, u ≠ "" →
        initialize (Some u) e2 (initialize (Some u) e1 s).2
          = (Resolved (), (initialize (Some u) e1 s).2)) ∧
  (∀ u v, u ≠ v →
        let s1 := (initialize (Some u) e1 s).2 in
        isOfflineMode (initialize (Some v) e2 s1).2
          = is_thrown (authProbe e2) || broadcastThrows e2 (initializeLoad (Some v) e2 s1)) ∧
  (let s1 := (initialize None e1 s).2 in
   isOfflineMode (initialize None e2 s1).2
     = is_thrown (authProbe e2) || broadcastThrows e2 (initializeLoad None e2 s1)) ∧
  (quiet e2 →
   (∀ u v, u ≠ v →
      isOfflineMode (initialize (Some v) e2 (initialize (Some u) e1 s).2).2
        = is_thrown (authProbe e2)) ∧
   isOfflineMode (initialize None e2 (initialize None e1 s).2).2 = is_thrown (authProbe e2)) ∧
  isInitialized (initialize None e1 s).2 = true.
Proof.
  assert (∀ u v, u ≠ v →
            let s1 := (initialize (Some u) e1 s).2 in
            isOfflineMode (initialize (Some v) e2 s1).2
            = is_thrown (authProbe e2) || broadcastThrows e2 (initializeLoad (Some v) e2 s1))
    as Hother.
  { intros u v Hne s1. destruct (initialize_user (Some u) e1 s) as [I U]. fold s1 in I, U.
    destruct (initialize_session (Some v) e2 s1) as (_ & _ & _ & M); [| exact M].
    rewrite I. simpl. unfold sameUser.
    destruct (currentUserId s1) as [a|] eqn:Hcur; [| done].
    apply bool_decide_eq_false. intros ->. simpl in U.
    destruct (decide (u = "")) as [->|Hu].
    - unfold s1, initialize in Hcur.
      destruct (isInitialized s && sameUser (currentUserId s) (Some "")) eqn:Hskip.
      + apply andb_true_iff in Hskip as [_ Hsame]. simpl in Hcur. rewrite Hcur in Hsame.
        simpl in Hsame. apply bool_decide_eq_true in Hsame. by apply Hne.
      + destruct (initialize_session (Some "") e1 s Hskip) as (_ & _ & U' & _).
        unfold initialize in U'. rewrite Hskip in U'. rewrite Hcur in U'. done.
    - assert (Some v = Some u) as [= ->] by by apply U. done. }
  assert (let s1 := (initialize None e1 s).2 in
          isOfflineMode (initialize None e2 s1).2
          = is_thrown (authProbe e2) || broadcastThrows e2 (initializeLoad None e2 s1))
    as Hnone.
  { intros s1. destruct (initialize_session None e2 s1) as (_ & _ & _ & M); [| exact M].
    unfold sameUser. destruct (currentUserId _); by rewrite andb_false_r. }
  split; [| split; [exact Hother | split; [exact Hnone | split]]].
  - intros u Hu. destruct (initialize_user (Some u) e1 s) as [I U].
    unfold initialize at 1. rewrite I, U.
    + simpl. rewrite decide_False by done. simpl. by rewrite bool_decide_eq_true_2.
    + simpl. by rewrite decide_False.
  - intros Hq. split.
    + intros u v Hne. rewrite (Hother u v Hne).
      rewrite (proj1 (quiet_broadcast e2 _ Hq)). apply orb_false_r.
    + cbv zeta in Hnone. rewrite Hnone.
      rewrite (proj1 (quiet_broadcast e2 _ Hq)). apply orb_false_r.
  - apply (initialize_user None).
Qed.

(** The same user twice, then another one. *)
Lemma initialize_reruns_unless_same_user_witness :
  let e1 := confirmingAt 1700000000000 "k3x9q2m1z" in
  let e2 := unreachableAt 1700000000456 "p0o9i8u7y" in
  let s := initial None in
  "ann" ≠ "" ∧ "ann" ≠ "bob" ∧ quiet e2 ∧
  initialize (Some "ann") e2 (initialize (Some "ann") e1 s).2
    = (Resolved (), (initialize (Some "ann") e1 s).2) ∧
  isOfflineMode (initialize (Some "bob") e2 (initialize (Some "ann") e1 s).2).2 = true.
Proof.
  intros e1 e2 s.
  assert ("ann" ≠ "") as H1 by done.
  assert ("ann" ≠ "bob") as H2 by done.
  assert (quiet e2) as Hq by (intros l k; reflexivity).
  destruct (initialize_reruns_unless_same_user e1 e2 s) as (Hsame & _ & _ & Hquiet & _).
  split; [exact H1 |]. split; [exact H2 |]. split; [exact Hq |].
  split; [exact (Hsame "ann" H1) | exact (proj1 (Hquiet Hq) "ann" "bob" H2)].
Defined.


(** When the first listener throws at every call, it is called by the
    recovery from the remote list, which ignores the exception, by the
    broadcast of [initialize], and by the broadcast of the [catch]
    block; the promise is rejected and [addListener] makes no call of
    its own; the session is offline although the probe was answered. *)
Example first_listener_throws :
  let e := throwing 7 (confirmingAt 1700000000000 "k3x9q2m1z") in
  let out := addListener 7 e (initial None) in
  out.1 = Thrown ∧ broadcasts out.2 = [(7, []); (7, []); (7, [])] ∧
  isInitialized out.2 = true ∧ isOfflineMode out.2 = true.
Proof. vm_compute. done. Qed.


(** ** Team data: the cache after a read and after an event *)

(** X18.  After a read of team data that missed the cache: when it
    returned data, a second read less than five minutes after the entry
    was stamped returns the same data and leaves the state, calls
    included, untouched; when it returned nothing, the cache is as
    before, so the next read asks again.  The entries of other items are
    not touched. *)
Theorem fetched_team_data_is_cached (fe1 fe2 : FetchEnv) (target : string) (s : State) :
  (teamDataCache s !! target = None ∨
   ∃ data stamped, teamDataCache s !! target = Some (data, stamped) ∧
                   (CACHE_DURATION ≤ f_now fe1 - stamped)%Z) →
  let r1 := (fetchTeamData fe1 target s).1 in
  let s1 := (fetchTeamData fe1 target s).2 in
  (∀ t, r1 = Some t → (f_now fe2 - f_stamp fe1 < CACHE_DURATION)%Z →
        fetchTeamData fe2 target s1 = (Some t, s1)) ∧
  (r1 = None → teamDataCache s1 = teamDataCache s) ∧
  (∀ other, other ≠ target → teamDataCache s1 !! other = teamDataCache s !! other).
Proof.
  intros Hmiss r1 s1.
  assert (fetchTeamData fe1 target s = fetchTeamDataLocal fe1 target s) as Heq.
  { unfold fetchTeamData.
    destruct Hmiss as [-> | (data & stamped & -> & Hstale)]; [done |].
    rewrite decide_False; [done | lia]. }
  subst r1 s1. rewrite Heq. clear Heq Hmiss.
  assert (∀ t s0,
            teamDataCache s0 !! target = Some (t, f_stamp fe1) →
            (f_now fe2 - f_stamp fe1 < CACHE_DURATION)%Z →
            fetchTeamData fe2 target s0 = (Some t, s0)) as Hhit.
  { intros t s0 Hc Hfresh. unfold fetchTeamData. rewrite Hc. by rewrite decide_True. }
  unfold fetchTeamDataLocal, recoverTeamDataFromDynamoDB.
  destruct (f_local fe1) as [[row|]|]; simpl.
  - split; [| split].
    + intros t [= <-] Hfresh. apply Hhit; [| done]. simpl. apply lookup_insert_eq.
    + done.
    + intros other Hne. by apply lookup_insert_ne.
  - destruct (f_monitor fe1) as [u|]; simpl;
      [destruct (f_remote fe1) as [[d|]|]; simpl; [destruct (f_upsert fe1); simpl | |] |].
    all: split; [| split]; try done.
    + intros t [= <-] Hfresh. apply Hhit; [| done]. simpl. apply lookup_insert_eq.
    + intros other Hne. by apply lookup_insert_ne.
  - by repeat split.
Qed.

(** A first read that finds the row, and a second one 299999 ms later. *)
Lemma fetched_team_data_is_cached_witness :
  let s := initial None in
  let fe1 := fetchLocalAt 1700000000000 in
  let fe2 := fetchMissingAt 1700000299999 in
  let s1 := (fetchTeamData fe1 "ITEM-1" s).2 in
  teamDataCache s !! "ITEM-1" = None ∧
  (fetchTeamData fe1 "ITEM-1" s).1 = Some (teamDataOfRow acmeRow) ∧
  fetchTeamData fe2 "ITEM-1" s1 = (Some (teamDataOfRow acmeRow), s1).
Proof.
  intros s fe1 fe2 s1.
  assert (teamDataCache s !! "ITEM-1" = None) as Hmiss by apply lookup_empty.
  assert ((fetchTeamData fe1 "ITEM-1" s).1 = Some (teamDataOfRow acmeRow)) as Hfirst.
  { unfold fetchTeamData. rewrite Hmiss. reflexivity. }
  split; [exact Hmiss |]. split; [exact Hfirst |].
  apply (proj1 (fetched_team_data_is_cached fe1 fe2 "ITEM-1" s (or_introl Hmiss))
           (teamDataOfRow acmeRow) Hfirst).
  vm_compute. reflexivity.
Defined.

Lemma if_bool_decide_iff {A} (P Q : Prop) `{Decision P, Decision Q} (x y : A) :
  (P ↔ Q) → (if bool_decide P then x else y) = (if bool_decide Q then x else y).
Proof. intros HPQ. by rewrite (bool_decide_ext P Q HPQ). Qed.

(** The [forEach] of [handleTeamDataUpdate], record by record. *)
Lemma attachTeamData_spec target t l (h : Heap) :
  Forall (λ r, r < length h) l →
  let out := attachTeamData target t l h in
  length out.2 = length h ∧
  (∀ r, r < length h →
        deref out.2 r =
        if bool_decide (r ∈ l ∧ itemId (deref h r) = target)
        then with_teamData (Some t) (deref h r) else deref h r) ∧
  out.1 = bool_decide (target ∈ itemId <$> records h l).
Proof.
  revert h. induction l as [|r0 l IH]; intros h Hl out; subst out.
  - split; [done |]. split.
    + intros r Hr. rewrite bool_decide_eq_false_2; [done |].
      intros [Hin _]. by apply elem_of_nil in Hin.
    + symmetry. apply bool_decide_eq_false_2. intros Hin.
      by apply elem_of_nil in Hin.
  - apply Forall_cons in Hl as [Hr0 Hl]. cbn [attachTeamData].
    destruct (decide (itemId (deref h r0) = target)) as [Hmatch|Hmiss]; cbn [fst snd].
    + set (h1 := assign (with_teamData (Some t)) r0 h).
      assert (length h1 = length h) as Hlen by apply length_assign.
      assert (∀ r, itemId (deref h1 r) = itemId (deref h r)) as Hitem.
      { intros r. by apply (deref_assign_proj itemId). }
      destruct (IH h1) as (L & D & _); [by rewrite Hlen |].
      split; [by rewrite L |]. split.
      * intros r Hr. rewrite D by by rewrite Hlen. rewrite Hitem.
        destruct (decide (r = r0)) as [->|Hne].
        -- rewrite (bool_decide_eq_true_2 (r0 ∈ r0 :: l ∧ _));
             [| split; [apply list_elem_of_here | done]].
           unfold h1. rewrite deref_assign_same by done.
           by case_bool_decide.
        -- unfold h1. rewrite deref_assign_other by done.
           apply if_bool_decide_iff. rewrite elem_of_cons. intuition congruence.
      * symmetry. apply bool_decide_eq_true_2. unfold records. rewrite !fmap_cons.
        rewrite Hmatch. apply list_elem_of_here.
    + destruct (IH h Hl) as (L & D & B). split; [done |]. split.
      * intros r Hr. rewrite D by done.
        apply if_bool_decide_iff. rewrite elem_of_cons. intuition congruence.
      * rewrite B. apply bool_decide_ext. unfold records. rewrite !fmap_cons.
        rewrite elem_of_cons. intuition congruence.
Qed.

(** X19.  A team-data event caches the data under the id of the item
    and writes it to every record of the collection that references the
    item and to no other.  Exactly when some record references the item,
    the listeners are called, in order of registration, up to the first
    one that throws: all of them, each once, when none throws; the
    handler throws when one does.  A read in the five minutes that
    follow returns the data of the event without any call. *)
Theorem team_data_event_reaches_every_record (d : ItemData) (e : Env) (s : State) :
  reachable s →
  let out := handleTeamDataUpdate d e s in
  let s' := out.2 in
  let t := teamDataOfItemData d in
  let referenced := bool_decide (d_id d ∈ itemId <$> records (heap s) (getItems s)) in
  teamDataCache s' !! d_id d = Some (t, ms (clock e 0)) ∧
  reorderItems s' = reorderItems s ∧
  records (heap s') (getItems s') =
    (λ x, if bool_decide (itemId x = d_id d) then with_teamData (Some t) x else x)
      <$> records (heap s) (getItems s) ∧
  broadcasts s' =
    broadcasts s ++
    (if referenced then (λ l, (l, reorderItems s)) <$> called e s else []) ∧
  out.1 = (if referenced && broadcastThrows e s then Thrown else Resolved ()) ∧
  (broadcastThrows e s = false → called e s = listeners s) ∧
  (∀ fe, (f_now fe - ms (clock e 0) < CACHE_DURATION)%Z →
         fetchTeamData fe (d_id d) s' = (Some t, s')).
Proof.
  intros Hreach out s' t referenced. destruct (reachable_wf s Hreach) as (W1 & W2 & W3).
  destruct (attachTeamData_spec (d_id d) t (reorderItems s) (heap s) W1) as (L & D & B).
  subst s' out referenced. unfold handleTeamDataUpdate. fold t.
  cbn [heap reorderItems set_teamDataCache].
  destruct (attachTeamData (d_id d) t (reorderItems s) (heap s)) as [itemsUpdated h'] eqn:Hatt.
  simpl in L, D, B.
  assert (bool_decide (d_id d ∈ itemId <$> records (heap s) (getItems s)) = itemsUpdated)
    as Hany.
  { by rewrite B. }
  assert (records h' (reorderItems s) =
          (λ x, if bool_decide (itemId x = d_id d) then with_teamData (Some t) x else x)
            <$> records (heap s) (reorderItems s)) as Hrec.
  { unfold records. rewrite <- list_fmap_compose. apply Forall_fmap_ext_1.
    apply Forall_forall. intros r Hr. simpl.
    rewrite D by (rewrite Forall_forall in W1; by apply W1).
    apply if_bool_decide_iff. intuition congruence. }
  rewrite Hany.
  assert (∀ s0, teamDataCache s0 !! d_id d = Some (t, ms (clock e 0)) →
                ∀ fe, (f_now fe - ms (clock e 0) < CACHE_DURATION)%Z →
                      fetchTeamData fe (d_id d) s0 = (Some t, s0)) as Hhit.
  { intros s0 Hc fe Hfresh. unfold fetchTeamData. rewrite Hc. by rewrite decide_True. }
  destruct itemsUpdated.
  - rewrite notifyListeners_eq. unfold getItems. simpl.
    split; [apply lookup_insert_eq |]. split; [done |]. split; [exact Hrec |].
    split; [done |]. split; [done |]. split; [apply returned_broadcast |].
    apply Hhit. simpl. apply lookup_insert_eq.
  - unfold getItems. simpl.
    split; [apply lookup_insert_eq |]. split; [done |]. split; [exact Hrec |].
    split; [by rewrite app_nil_r |]. split; [done |]. split; [apply returned_broadcast |].
    apply Hhit. simpl. apply lookup_insert_eq.
Qed.

(** One announced record of the item that the event is about. *)
Lemma team_data_event_reaches_every_record_witness :
  let e := confirmingAt 1700000000000 "k3x9q2m1z" in
  let s := run (initial None) (RemoteCreated (announced "r-1" "ITEM-1" 2) e) in
  let s' := (handleTeamDataUpdate acmeData e s).2 in
  reachable s ∧
  teamDataCache s' !! "ITEM-1" = Some (teamDataOfItemData acmeData, 1700000000000%Z).
Proof.
  intros e s s'.
  assert (reachable s) as Hreach by apply (reachable_run _ _ (reachable_initial None)).
  split; [exact Hreach |].
  exact (proj1 (team_data_event_reaches_every_record acmeData e s Hreach)).
Defined.

(** ** Bulk loads *)

Lemma addsTeamCalls_refl s : addsTeamCalls s s.
Proof. by exists []. Qed.

Lemma addsTeamCalls_trans s1 s2 s3 :
  addsTeamCalls s1 s2 → addsTeamCalls s2 s3 → addsTeamCalls s1 s3.
Proof.
  intros (c1 & L1 & F1) (c2 & L2 & F2). exists (c2 ++ c1). split.
  - by rewrite L2, L1, app_assoc.
  - by apply Forall_app.
Qed.

Lemma fetchTeamData_calls fe target s :
  addsTeamCalls s (fetchTeamData fe target s).2 ∧
  heap (fetchTeamData fe target s).2 = heap s ∧
  broadcasts (fetchTeamData fe target s).2 = broadcasts s.
Proof.
  unfold fetchTeamData, fetchTeamDataLocal, recoverTeamDataFromDynamoDB.
  repeat (case_match; simpl); (split; [| done]).
  all: first
    [ by exists []
    | by exists [DbGetTeamData target]; split; [| repeat constructor]
    | by exists [MonitorBeforeRequest "getItemData"; DbGetTeamData target];
        split; [| repeat constructor]
    | by exists [GqlGetItemData target; MonitorBeforeRequest "getItemData";
                 DbGetTeamData target]; split; [| repeat constructor]
    | by exists [DbUpsertTeamData target; GqlGetItemData target;
                 MonitorBeforeRequest "getItemData"; DbGetTeamData target];
        split; [| repeat constructor] ].
Qed.

(** The loop of [loadTeamDataForItems] writes [teamData] only. *)
Lemma loadTeamDataFrom_calls e l k s :
  let s' := loadTeamDataFrom e k l s in
  addsTeamCalls s s' ∧ broadcasts s' = broadcasts s ∧
  ∀ B (p : ReorderItem → B), (∀ t x, p (with_teamData t x) = p x) →
    ∀ r, p (deref (heap s') r) = p (deref (heap s) r).
Proof.
  revert k s. induction l as [|item l IH]; intros k s; simpl.
  - split; [apply addsTeamCalls_refl | done].
  - destruct (fetchTeamData (teamFetch e k) (itemId (deref (heap s) item)) s)
      as [t s1] eqn:Hf.
    destruct (fetchTeamData_calls (teamFetch e k) (itemId (deref (heap s) item)) s)
      as (C1 & H1 & B1).
    rewrite Hf in C1, H1, B1. simpl in C1, H1, B1.
    match goal with |- context [loadTeamDataFrom e (S k) l ?s2] =>
      destruct (IH (S k) s2) as (C2 & B2 & P2); set (s2' := s2) in * end.
    assert (log s2' = log s1 ∧ broadcasts s2' = broadcasts s1) as [Hl Hb].
    { subst s2'. by destruct t. }
    split; [| split].
    + eapply addsTeamCalls_trans; [exact C1 |].
      destruct C2 as (calls & L & F). exists calls. by rewrite L, Hl.
    + by rewrite B2, Hb.
    + intros B p Hp r. rewrite (P2 B p Hp). subst s2'. destruct t; simpl.
      * rewrite (deref_assign_proj p); [by rewrite H1 | apply Hp].
      * by rewrite H1.
Qed.

(** The display indices that [stamp] writes. *)
Lemma index_imap_stamp (items : list ReorderItem) :
  index <$> imap stamp items = Some <$> seq 1 (length items).
Proof.
  rewrite (fmap_imap_stamp index (λ i _, Some (i + 1))) by done.
  apply imap_index_seq.
Qed.

(** X20.  [loadReorderItems] is local-first.  When the local table has
    rows, the collection becomes these rows, all with display index 0,
    and the calls made after the table read are team-data calls only:
    the remote list is not requested.  With an empty table it is the
    recovery from the remote list. *)
Theorem loadReorderItems_is_local_first (e : Env) (s : State) (rows : list Row) :
  dbRows e = Resolved rows →
  let s' := loadReorderItems e s in
  (rows ≠ [] →
   itemIds s' = row_id <$> rows ∧
   plainFields <$> records (heap s') (getItems s') = plainFields ∘ itemOfRow <$> rows ∧
   displayIndices s' = replicate (length rows) (Some 0) ∧
   ∃ calls, log s' = calls ++ DbLoadReorderItems :: log s ∧
            Forall (λ c, is_team_call c = true) calls) ∧
  (rows = [] → s' = recoverFromDynamoDB e (emit DbLoadReorderItems s)).
Proof.
  intros Hrows s'. subst s'. unfold loadReorderItems, loadLocalReorderItems. rewrite Hrows.
  cbv beta iota zeta. split; [| by intros ->].
  intros Hsome.
  destruct (itemOfRow <$> rows) as [|x xs] eqn:Hmap.
  { destruct rows; [done | discriminate Hmap]. }
  rewrite <- Hmap. clear x xs Hmap.
  unfold loadTeamDataForItems, alloc_all. simpl.
  set (xs := itemOfRow <$> rows).
  set (s0 := set_reorderItems (seq (length (heap s)) (length xs))
               (set_heap (heap s ++ xs) (emit DbLoadReorderItems s))).
  destruct (loadTeamDataFrom_calls e (seq (length (heap s)) (length xs)) 0 s0)
    as (Hcalls & _ & Hproj).
  destruct (keeps_loadTeamDataFrom e (seq (length (heap s)) (length xs)) 0 s0)
    as (_ & _ & Hr & _).
  assert (∀ B (p : ReorderItem → B), (∀ t x, p (with_teamData t x) = p x) →
            p <$> records (heap (loadTeamDataFrom e 0 (seq (length (heap s)) (length xs)) s0))
                    (seq (length (heap s)) (length xs)) = p <$> xs) as Hfields.
  { intros B p Hp. trans (p <$> records (heap s0) (seq (length (heap s)) (length xs))).
    - unfold records. rewrite <- !list_fmap_compose. apply list_fmap_ext.
      intros i r _. simpl. by rewrite (Hproj B p Hp).
    - unfold s0. simpl. by rewrite records_seq. }
  unfold itemIds, displayIndices, getItems, ids. rewrite Hr. simpl.
  split; [| split; [| split]].
  - rewrite (Hfields _ id) by done. unfold xs. by rewrite <- list_fmap_compose.
  - rewrite (Hfields _ plainFields) by done. unfold xs. by rewrite <- list_fmap_compose.
  - rewrite (Hfields _ index) by done. unfold xs.
    clear. induction rows as [|row rows IH]; [done |]. simpl. f_equal. apply IH.
  - exact Hcalls.
Qed.

(** The local table holds one row. *)
Lemma loadReorderItems_is_local_first_witness :
  let e := answeringWith [shelfRow] [announced "r-1" "ITEM-1" 2] in
  let s' := loadReorderItems e (initial None) in
  dbRows e = Resolved [shelfRow] ∧ [shelfRow] ≠ [] ∧
  itemIds s' = ["r-7"] ∧ displayIndices s' = [Some 0].
Proof.
  intros e s'.
  assert ([shelfRow] ≠ []) as Hsome by done.
  destruct (proj1 (loadReorderItems_is_local_first e (initial None) [shelfRow] eq_refl) Hsome)
    as (Hids & _ & Hindex & _).
  split; [reflexivity |]. split; [exact Hsome |]. split; [exact Hids | exact Hindex].
Defined.

(** X21.  [manualSync] throws exactly when the request monitor throws,
    when the list request throws, or when the answer has items and a
    listener throws in the broadcast that ends it; the list request is
    not sent when the monitor throws.  When the monitor or the request
    throws, and when the answer has no item list, only the log of
    outgoing calls changes.  When the answer has items, the collection
    becomes these items with display indices 1..N, they are written to
    the local table, the listeners are called in order of registration
    up to the first one that throws (all of them, once each, when none
    throws), and the pending queue and the offline snapshot are
    untouched. *)
Theorem manualSync_replaces_collection (e : Env) (s : State) :
  let out := manualSync e s in
  is_thrown out.1 =
    is_thrown (monitorReply e) ||
    match listReply e with
    | Thrown => true
    | Resolved (Some _) => broadcastThrows e s
    | Resolved None => false
    end ∧
  (is_thrown (monitorReply e) = true →
   out = (Thrown, emit (MonitorBeforeRequest "listReorderItems") s)) ∧
  (is_thrown (monitorReply e) = true ∨ is_thrown (listReply e) = true ∨
   listReply e = Resolved None → sameButLog s out.2) ∧
  (∀ items, is_thrown (monitorReply e) = false → listReply e = Resolved (Some items) →
     out.1 = (if broadcastThrows e s then Thrown else Resolved ()) ∧
     itemIds out.2 = id <$> items ∧
     plainFields <$> records (heap out.2) (getItems out.2) = plainFields <$> items ∧
     displayIndices out.2 = Some <$> seq 1 (length items) ∧
     pendingSyncItems out.2 = pendingSyncItems s ∧ storage out.2 = storage s ∧
     (∃ calls,
        log out.2 =
          calls ++ DbSaveReorderItems (imap stamp items) :: GqlListReorderItems 1000
            :: MonitorBeforeRequest "listReorderItems" :: log s ∧
        Forall (λ c, is_team_call c = true) calls) ∧
     broadcasts out.2 = broadcasts s ++ ((λ l, (l, reorderItems out.2)) <$> called e s) ∧
     (broadcastThrows e s = false → called e s = listeners s)).
Proof.
  intros out. subst out. unfold manualSync.
  destruct (monitorReply e) as [u|] eqn:Hmon; cbn [is_thrown orb fst snd].
  - destruct (listReply e) as [[items|]|] eqn:Hlist; cbn [is_thrown orb fst snd].
    + unfold adoptServerItems, saveReorderItemsLocally, alloc_all, loadTeamDataForItems.
      cbv zeta. cbn [heap set_heap set_reorderItems emit reorderItems].
      set (xs := imap stamp items).
      set (refs := seq (length (heap s)) (length xs)).
      match goal with |- context [loadTeamDataFrom e 0 refs ?s1] => set (s0 := s1) end.
      destruct (loadTeamDataFrom_calls e refs 0 s0) as (Hcalls & Hb & Hproj).
      destruct (keeps_loadTeamDataFrom e refs 0 s0) as (_ & _ & Hr & Hp & Hst).
      destruct (sameSession_loadTeamDataFrom e refs 0 s0) as (Hl & _).
      set (s1 := loadTeamDataFrom e 0 refs s0) in *.
      assert (broadcastThrows e s1 = broadcastThrows e s) as Hthrows.
      { unfold broadcastThrows. by rewrite Hb, Hl. }
      assert (called e s1 = called e s) as Hcalled.
      { unfold called. by rewrite Hb, Hl. }
      rewrite notifyListeners_eq, Hthrows, Hcalled. cbn [fst snd].
      split; [by destruct (broadcastThrows e s) |]. split; [done |].
      split; [by intros [? | [? | ?]] |].
      intros items' _ [= <-].
      assert (∀ B (p : ReorderItem → B), (∀ t x, p (with_teamData t x) = p x) →
                p <$> records (heap s1) refs = p <$> xs)
        as Hfields.
      { intros B p Hp'. trans (p <$> records (heap s0) refs).
        - unfold records. rewrite <- !list_fmap_compose. apply list_fmap_ext.
          intros i r _. simpl. by rewrite (Hproj B p Hp').
        - unfold s0, refs. simpl. by rewrite records_seq. }
      unfold itemIds, displayIndices, getItems, ids.
      cbn [heap reorderItems pendingSyncItems storage log broadcasts listeners set_broadcasts].
      rewrite Hr, Hp, Hst, Hb.
      change (reorderItems s0) with refs. change (pendingSyncItems s0) with (pendingSyncItems s).
      change (storage s0) with (storage s). change (broadcasts s0) with (broadcasts s).
      split; [done |].
      split; [| split; [| split; [| repeat split]]].
      * rewrite (Hfields _ id) by done. apply ids_imap_stamp.
      * rewrite (Hfields _ plainFields) by done. unfold xs.
        rewrite (fmap_imap_stamp plainFields (λ _ x, plainFields x)) by done.
        apply (imap_const plainFields).
      * rewrite (Hfields _ index) by done. apply index_imap_stamp.
      * exact Hcalls.
      * apply returned_broadcast.
    + split; [done |]. split; [done |]. split; [intros _; by repeat split |].
      by intros items _ [=].
    + split; [done |]. split; [done |]. split; [intros _; by repeat split |].
      by intros items _ [=].
  - split; [done |]. split; [done |]. split; [intros _; by repeat split |].
    by intros items [=].
Qed.

(** When a listener throws, the collection is replaced all the same and
    the call is rejected. *)
Example manualSync_with_throwing_listener :
  let items := [announced "r-1" "ITEM-1" 2; announced "r-2" "ITEM-2" 5] in
  let s := run (initial None) (AddListener 7 (confirmingAt 1700000000000 "k3x9q2m1z")) in
  let out := manualSync (throwing 7 (answeringWith [] items)) s in
  out.1 = Thrown ∧ itemIds out.2 = ["r-1"; "r-2"].
Proof. vm_compute. done. Qed.

(** The remote list holds two records. *)
Lemma manualSync_replaces_collection_witness :
  let items := [announced "r-1" "ITEM-1" 2; announced "r-2" "ITEM-2" 5] in
  let e := answeringWith [] items in
  let out := manualSync e (initial None) in
  is_thrown (monitorReply e) = false ∧ listReply e = Resolved (Some items) ∧
  itemIds out.2 = ["r-1"; "r-2"] ∧ displayIndices out.2 = [Some 1; Some 2].
Proof.
  intros items e out.
  destruct (manualSync_replaces_collection e (initial None)) as (_ & _ & _ & Hinstall).
  destruct (Hinstall items eq_refl eq_refl) as (_ & Hids & _ & Hindex & _).
  split; [reflexivity |]. split; [reflexivity |]. split; [exact Hids | exact Hindex].
Defined.

(** ** Who is called *)


































(** ** Subscriptions *)

(** The state of [initializeService] is the one of [initialize]. *)
Lemma initializeService_service userId e env svc :
  service (initializeService userId e env svc) = (initialize userId e (service svc)).2.
Proof.
  unfold initializeService, initialize.
  by destruct (isInitialized (service svc) && sameUser (currentUserId (service svc)) userId).
Qed.

Lemma checkAuthStatus_answer e s :
  (checkAuthStatus e s).1 = negb (is_thrown (authProbe e)).
Proof. unfold checkAuthStatus. by destruct (authProbe e). Qed.

(** [subscribeEach] keeps the subscriptions it is given and adds, in the
    order of the channels, at most one for each. *)
Lemma subscribeEach_adds env channels subs :
  ∃ new, subscribeEach env channels subs = subs ++ new ∧
         sublist (channel <$> new) channels ∧
         ((∀ ch, ch ∈ channels → ∃ b, subscribeReply env ch = Resolved (Some b)) →
          channel <$> new = channels).
Proof.
  revert subs. induction channels as [|ch rest IH]; intros subs; simpl.
  - exists []. by rewrite app_nil_r.
  - destruct (subscribeReply env ch) as [[b|]|] eqn:Hr.
    + destruct (IH (subs ++ [{| channel := ch; canUnsubscribe := b |}]))
        as (new & -> & Hsub & Hall).
      exists ({| channel := ch; canUnsubscribe := b |} :: new). split; [| split].
      * by rewrite <- app_assoc.
      * simpl. by constructor.
      * intros H. simpl. f_equal. apply Hall. intros c Hc. apply H. by right.
    + destruct (IH subs) as (new & -> & Hsub & Hall).
      exists new. split; [done | split].
      * by constructor.
      * intros H. destruct (H ch) as [b Hb]; [left |]. congruence.
    + exists []. rewrite app_nil_r. split; [done | split].
      * apply sublist_nil_l.
      * intros H. destruct (H ch) as [b Hb]; [left |]. congruence.
Qed.

(** X28.  [initialize] never drops a subscription: it keeps the ones of
    the service and adds, in the order create, update, delete, team
    data, at most one for each channel.  It adds none when the call
    returns at its first line, when the probe of [checkAuthStatus]
    throws or in emergency mode; it adds one for each of the four
    channels when the call runs, the probe is answered, emergency mode
    is off and each channel can be subscribed to. *)
Theorem subscriptions_accumulate userId (e : Env) (env : SubscribeEnv) (svc : Service) :
  ∃ new,
    subscriptions (initializeService userId e env svc) = subscriptions svc ++ new ∧
    sublist (channel <$> new) allChannels ∧
    (isInitialized (service svc) && sameUser (currentUserId (service svc)) userId = true
     ∨ authProbe e = Thrown ∨ emergencyMode env = true → new = []) ∧
    (isInitialized (service svc) && sameUser (currentUserId (service svc)) userId = false →
     authProbe e = Resolved () → emergencyMode env = false →
     (∀ ch, ∃ b, subscribeReply env ch = Resolved (Some b)) →
     channel <$> new = allChannels).
Proof.
  unfold initializeService.
  destruct (isInitialized (service svc) && sameUser (currentUserId (service svc)) userId)
    eqn:Hskip.
  { exists []. rewrite app_nil_r. repeat split; try done. apply sublist_nil_l. }
  cbn [subscriptions]. rewrite checkAuthStatus_answer.
  destruct (authProbe e) as [[]|] eqn:Hp; simpl.
  - unfold setupSubscriptions. destruct (emergencyMode env) eqn:Hem.
    + exists []. rewrite app_nil_r. repeat split; try done. apply sublist_nil_l.
    + destruct (subscribeEach_adds env allChannels (subscriptions svc))
        as (new & Hn & Hsub & Hall).
      exists new. repeat split; try done.
      * intros [H|[H|H]]; done.
      * intros _ _ _ H. apply Hall. intros ch _. apply H.
  - exists []. rewrite app_nil_r. repeat split; try done. apply sublist_nil_l.
Qed.

(** X29.  [cleanup] calls [unsubscribe] on the subscriptions that have
    one and leaves the service without subscription, its state as it is.
    After [initialize] for a user with a non-empty id and [cleanup],
    [initialize] for the same user changes nothing, so the service stays
    without subscription; [initialize] for another user, or without one,
    subscribes again when the probe is answered. *)
Theorem cleanup_is_final_for_the_same_user (u : string) (e1 : Env) (env1 : SubscribeEnv)
    (svc : Service) :
  u ≠ "" →
  let svc1 := initializeService (Some u) e1 env1 svc in
  (cleanup svc1).1 = filter (λ sub, canUnsubscribe sub = true) (subscriptions svc1) ∧
  subscriptions (cleanup svc1).2 = [] ∧
  service (cleanup svc1).2 = (initialize (Some u) e1 (service svc)).2 ∧
  (∀ e2 env2, initializeService (Some u) e2 env2 (cleanup svc1).2 = (cleanup svc1).2) ∧
  (∀ userId e2 env2, userId ≠ Some u →
     subscriptions (initializeService userId e2 env2 (cleanup svc1).2) =
       if is_thrown (authProbe e2) then [] else setupSubscriptions env2 []).
Proof.
  intros Hu svc1.
  assert (service (cleanup svc1).2 = (initialize (Some u) e1 (service svc)).2) as Hs.
  { unfold cleanup, svc1. cbn [snd service]. apply initializeService_service. }
  destruct (initialize_user (Some u) e1 (service svc)) as [I U].
  simpl in U. rewrite decide_False in U by done. specialize (U ltac:(done)).
  split; [done | split; [done | split; [exact Hs | split]]].
  - intros e2 env2. unfold initializeService at 1. rewrite Hs, I, U.
    simpl. by rewrite bool_decide_eq_true_2.
  - intros userId e2 env2 Hne. unfold initializeService at 1. rewrite Hs, I, U.
    assert (sameUser (Some u) userId = false) as ->.
    { unfold sameUser. destruct userId as [v|]; [| done].
      apply bool_decide_eq_false. congruence. }
    cbn [andb subscriptions]. rewrite checkAuthStatus_answer.
    by destruct (authProbe e2).
Qed.

(** A service initialised for a user while every channel can be
    subscribed to; then [cleanup], and the same user or another one. *)
Lemma cleanup_is_final_for_the_same_user_witness :
  let e := confirmingAt 1700000000000 "k3x9q2m1z" in
  let svc1 := initializeService (Some "ann") e subscribing
                {| service := initial None; subscriptions := [] |} in
  "ann" ≠ "" ∧
  channel <$> subscriptions svc1 = allChannels ∧
  (cleanup svc1).1 = subscriptions svc1 ∧
  subscriptions (initializeService (Some "ann") e subscribing (cleanup svc1).2) = [] ∧
  channel <$> subscriptions (initializeService (Some "bob") e subscribing (cleanup svc1).2)
    = allChannels.
Proof.
  intros e svc1.
  assert ("ann" ≠ "") as Hu by done.
  destruct (cleanup_is_final_for_the_same_user "ann" e subscribing
              {| service := initial None; subscriptions := [] |} Hu)
    as (Hun & Hnone & _ & Hsame & Hother).
  split; [exact Hu |]. split; [reflexivity |]. split; [reflexivity |]. split.
  - fold svc1 in Hsame. rewrite Hsame. exact Hnone.
  - fold svc1 in Hother. rewrite (Hother (Some "bob") e subscribing) by done. reflexivity.
Defined.


(** * Properties of the application store *)

Section AppStoreProperties.
Context {ScanHistoryItem : Type} (scanId : ScanHistoryItem → string).

Implicit Types (item : ScanHistoryItem) (s state : AppState ScanHistoryItem)
  (a : Action ScanHistoryItem).

(** The history after [addScanHistoryItem]: [item], then at most 99
    entries of what is left of the old history. *)
Lemma addScanHistoryItem_unfold item s :
  ∃ rest, scanHistory (addScanHistoryItem scanId item s) = item :: take 99 rest ∧
          rest `sublist_of` scanHistory s ∧
          (scanId item ∈ scanId <$> scanHistory s → S (length rest) = length (scanHistory s)) ∧
          (scanId item ∉ scanId <$> scanHistory s → rest = scanHistory s) ∧
          (∀ x, x ∈ scanHistory s → scanId x ≠ scanId item → x ∈ rest) ∧
          (NoDup (scanId <$> scanHistory s) →
           rest = filter (λ x, scanId x ≠ scanId item) (scanHistory s)).
Proof.
  unfold addScanHistoryItem. simpl. set (h := scanHistory s).
  destruct (list_find _ h) as [[i x]|] eqn:Hfind.
  - exists (delete i h). split; [done |]. split; [apply sublist_delete |].
    apply list_find_Some in Hfind as (Hi & Hx & Hbefore).
    split; [| split; [| split]].
    + intros _. rewrite length_delete by eauto.
      apply lookup_lt_Some in Hi. lia.
    + intros Habs. exfalso. apply Habs. rewrite <- Hx.
      apply list_elem_of_fmap_2. by eapply list_elem_of_lookup_2.
    + intros y Hy Hne. apply list_elem_of_lookup in Hy as [j Hj].
      destruct (decide (j < i)) as [Hlt|Hge].
      * apply (list_elem_of_lookup_2 _ j). by rewrite list_lookup_delete_lt.
      * assert (j ≠ i) by (intros ->; congruence).
        apply (list_elem_of_lookup_2 _ (j - 1)). rewrite list_lookup_delete_ge by lia.
        by replace (S (j - 1)) with j by lia.
    + intros Hnd. rewrite <- (take_drop_middle h i x Hi) at 2.
      rewrite delete_take_drop. rewrite filter_app, filter_cons_False by (by intros ?).
      assert (∀ l : list ScanHistoryItem, Forall (λ y, scanId y ≠ scanId item) l →
                filter (λ y, scanId y ≠ scanId item) l = l) as Hall.
      { induction l as [|y l IH]; [done |]. intros [Hy Hl]%Forall_cons.
        rewrite filter_cons_True by done. by rewrite IH. }
      rewrite !Hall; [done | |].
      * apply Forall_forall. intros y Hy.
        apply list_elem_of_lookup in Hy as [j Hj].
        rewrite lookup_drop in Hj. intros Heq.
        assert (i = S i + j) as Habs; [| lia].
        eapply NoDup_lookup; [exact Hnd | |].
        -- rewrite list_lookup_fmap, Hi. done.
        -- rewrite list_lookup_fmap, Hj. simpl. by rewrite Heq, Hx.
      * apply Forall_forall. intros y Hy.
        apply list_elem_of_lookup in Hy as [j Hj].
        apply lookup_take_Some in Hj as [Hj Hlt]. by eapply Hbefore.
  - exists h. apply list_find_None in Hfind.
    split; [done |]. split; [done |]. split; [| split; [done | split; [done |]]].
    + intros Hin. exfalso. apply list_elem_of_fmap in Hin as (y & Hy & Hin).
      rewrite Forall_forall in Hfind. by apply (Hfind y Hin).
    + intros _. induction h as [|y l IH]; [done |].
      apply Forall_cons in Hfind as [Hy Hl].
      rewrite filter_cons_True by done. by rewrite <- IH.
Qed.

(** X23.  From a scan history with distinct ids and at most 100 entries,
    the empty one of a new store in particular, every sequence of store
    actions leaves a history with distinct ids and at most 100 entries. *)
Theorem scan_history_stays_distinct_and_bounded s (actions : list (Action ScanHistoryItem)) :
  NoDup (scanId <$> scanHistory s) → length (scanHistory s) ≤ 100 →
  NoDup (scanId <$> scanHistory (actAll scanId s actions)) ∧
  length (scanHistory (actAll scanId s actions)) ≤ 100.
Proof.
  revert s. induction actions as [|a actions IH]; intros s Hnd Hlen; [done |].
  simpl. apply IH.
  - destruct a; cbn [act]; try exact Hnd; [| apply NoDup_nil_2].
    destruct (addScanHistoryItem_unfold item s) as (rest & -> & Hsub & _ & _ & _ & Hfilter).
    rewrite (Hfilter Hnd). rewrite fmap_cons. apply NoDup_cons. split.
    + intros Hin. apply list_elem_of_fmap in Hin as (y & Hy & Hin).
      apply elem_of_take in Hin as (j & Hin & _).
      apply list_elem_of_lookup_2, list_elem_of_filter in Hin as [Hne _]. by apply Hne.
    + eapply sublist_NoDup; [exact Hnd |]. apply fmap_sublist.
      etrans; [apply sublist_take | apply sublist_filter].
  - destruct a; cbn [act]; try exact Hlen; [| simpl; lia].
    destruct (addScanHistoryItem_unfold item s) as (rest & -> & _).
    simpl. rewrite length_take. lia.
Qed.

(** X24.  On a scan history with distinct ids, [addScanHistoryItem] puts
    the item first, drops the older entry with its id and keeps the
    others in order, cut to 100 entries. *)
Theorem addScanHistoryItem_keeps_latest item s :
  NoDup (scanId <$> scanHistory s) →
  scanHistory (addScanHistoryItem scanId item s) =
    take 100 (item :: filter (λ x, scanId x ≠ scanId item) (scanHistory s)).
Proof.
  intros Hnd.
  destruct (addScanHistoryItem_unfold item s) as (rest & -> & _ & _ & _ & _ & Hfilter).
  by rewrite (Hfilter Hnd).
Qed.

(** X25.  Adding the same scan twice in a row is adding it once. *)
Theorem addScanHistoryItem_idempotent item s :
  addScanHistoryItem scanId item (addScanHistoryItem scanId item s) =
  addScanHistoryItem scanId item s.
Proof.
  destruct (addScanHistoryItem_unfold item s) as (rest & Hh & _).
  unfold addScanHistoryItem at 1. rewrite Hh. simpl.
  rewrite decide_True by done. simpl. rewrite take_take.
  unfold set_scanHistory. simpl. rewrite <- Hh. by destruct s.
Qed.

(** X26.  [addScanHistoryItem] drops an entry with another id only when
    the history is full and the item is new: with room left, or when the
    id of the item is already listed in a history of at most 100
    entries, every entry with another id stays; with 100 entries or more
    and a new id, the result is the item followed by the first 99
    entries. *)
Theorem addScanHistoryItem_evicts_only_when_full item s :
  (length (scanHistory s) < 100 ∨
   (scanId item ∈ scanId <$> scanHistory s ∧ length (scanHistory s) ≤ 100) →
   ∀ x, x ∈ scanHistory s → scanId x ≠ scanId item →
        x ∈ scanHistory (addScanHistoryItem scanId item s)) ∧
  (100 ≤ length (scanHistory s) → scanId item ∉ scanId <$> scanHistory s →
   scanHistory (addScanHistoryItem scanId item s) = item :: take 99 (scanHistory s)).
Proof.
  destruct (addScanHistoryItem_unfold item s)
    as (rest & -> & Hsub & Hfound & Hnew & Hkept & _).
  split.
  - intros Hroom x Hx Hne. apply list_elem_of_further.
    rewrite take_ge; [by apply Hkept |].
    destruct Hroom as [Hlt | [Hin Hle]].
    + apply sublist_length in Hsub. lia.
    + specialize (Hfound Hin). lia.
  - intros _ Habs. by rewrite (Hnew Habs).
Qed.

(** What is persisted of a state. *)
Lemma partialize_eq s :
  partialize s =
    [("scanHistory", VHistory (scanHistory s));
     ("autoSearchOnEnter", VBool (autoSearchOnEnter s));
     ("autoSearchOnTab", VBool (autoSearchOnTab s))].
Proof. done. Qed.

(** An action acts on what is persisted through what is persisted. *)
Lemma partialize_act s1 s2 a :
  partialize s1 = partialize s2 →
  partialize (act scanId s1 a) = partialize (act scanId s2 a).
Proof.
  intros Heq. rewrite !partialize_eq in Heq. injection Heq as Hh He Ht.
  rewrite !partialize_eq.
  destruct a; simpl; by rewrite ?Hh, ?He, ?Ht.
Qed.

(** X27.  [partialize] writes three entries, in this order: the scan
    history and the two auto-search flags.  What is persisted after a
    sequence of actions is what is persisted after the
    [addScanHistoryItem], [clearScanHistory] and toggle actions of the
    sequence alone: no other action has an influence on it. *)
Theorem persisted_state_ignores_other_actions s (actions : list (Action ScanHistoryItem)) :
  partialize s =
    [("scanHistory", VHistory (scanHistory s));
     ("autoSearchOnEnter", VBool (autoSearchOnEnter s));
     ("autoSearchOnTab", VBool (autoSearchOnTab s))] ∧
  partialize (actAll scanId s actions) =
    partialize (actAll scanId s (filter (λ a, writesPersisted a = true) actions)).
Proof.
  split; [apply partialize_eq |].
  assert (∀ s1 s2, partialize s1 = partialize s2 →
            partialize (actAll scanId s1 actions) =
            partialize (actAll scanId s2 (filter (λ a, writesPersisted a = true) actions)))
    as Hgen; [| by apply Hgen].
  induction actions as [|a actions IH]; intros s1 s2 Heq; [done |].
  destruct (writesPersisted a) eqn:Hw.
  - rewrite filter_cons_True by done. simpl. apply IH. by apply partialize_act.
  - rewrite filter_cons_False by (by rewrite Hw). simpl. apply IH.
    rewrite <- Heq. by destruct a.
Qed.

End AppStoreProperties.

(** Scans identified by their text: two scans, the first one repeated. *)
Lemma scan_history_stays_distinct_and_bounded_witness :
  let scanId := λ scan : string, scan in
  let s := actAll scanId initialAppState
             [AddScanHistoryItem "tape"; AddScanHistoryItem "glue"; AddScanHistoryItem "tape"] in
  NoDup (scanId <$> scanHistory (@initialAppState string)) ∧
  length (scanHistory (@initialAppState string)) ≤ 100 ∧
  scanHistory s = ["tape"; "glue"] ∧ NoDup (scanId <$> scanHistory s) ∧
  length (scanHistory s) ≤ 100.
Proof.
  intros scanId s.
  assert (NoDup (scanId <$> scanHistory (@initialAppState string))) as Hnd by apply NoDup_nil_2.
  assert (length (scanHistory (@initialAppState string)) ≤ 100) as Hlen by (simpl; lia).
  split; [exact Hnd |]. split; [exact Hlen |]. split; [reflexivity |].
  exact (scan_history_stays_distinct_and_bounded scanId initialAppState
           [AddScanHistoryItem "tape"; AddScanHistoryItem "glue"; AddScanHistoryItem "tape"]
           Hnd Hlen).
Defined.

(** A history of two scans; the older one is scanned again. *)
Lemma addScanHistoryItem_keeps_latest_witness :
  let scanId := λ scan : string, scan in
  let s := actAll scanId initialAppState [AddScanHistoryItem "tape"; AddScanHistoryItem "glue"] in
  NoDup (scanId <$> scanHistory s) ∧
  scanHistory (addScanHistoryItem scanId "tape" s) =
    take 100 ("tape" :: filter (λ x, scanId x ≠ scanId "tape") (scanHistory s)).
Proof.
  intros scanId s.
  assert (NoDup (scanId <$> scanHistory s)) as Hnd.
  { apply (bool_decide_unpack _). vm_compute. exact I. }
  split; [exact Hnd |]. exact (addScanHistoryItem_keeps_latest scanId "tape" s Hnd).
Defined.

(** A history of two scans and a third, new one. *)
Lemma addScanHistoryItem_evicts_only_when_full_witness :
  let scanId := λ scan : string, scan in
  let s := actAll scanId initialAppState [AddScanHistoryItem "tape"; AddScanHistoryItem "glue"] in
  length (scanHistory s) < 100 ∧
  ∀ x, x ∈ scanHistory s → scanId x ≠ scanId "nails" →
       x ∈ scanHistory (addScanHistoryItem scanId "nails" s).
Proof.
  intros scanId s.
  assert (length (scanHistory s) < 100) as Hroom by (vm_compute; lia).
  split; [exact Hroom |].
  exact (proj1 (addScanHistoryItem_evicts_only_when_full scanId "nails" s) (or_introl Hroom)).
Defined.

